(** * tahoefuse/crypto.py: a file encrypted with AES in counter mode

    A shallow embedding of [CryptFile], [NullStream] and the 128-bit helpers of
    [src/tahoefuse/crypto.py] (Python 2), and the properties of the container
    that follow from the code.

    What is modelled and how:
    - Python integers are [Z]; byte strings are [list byte];
    - the file object [self.fp] is a record holding the bytes of the file, the
      position, and the closed / writable flags of a Python 2 [file];
    - exceptions are a result type [Res]; a method is a function from the
      object's state to a result and the state it leaves behind, so that what
      was mutated before an exception is raised stays mutated;
    - the AES block function is a parameter of the development ([AES_block]);
      counter mode on top of it is written out, with PyCrypto's 128-bit
      wrapping counter;
    - [fcntl.flock] has no counterpart here: the model has one handle at a
      time on a file;
    - positions and sizes are integers without a bound, and the storage does
      not fail: the limits of the platform (64-bit file offsets, memory) are
      not part of the model. *)

From Stdlib Require Import String Ascii.
From Stdlib Require Import ZArith List Lia Bool.
From Stdlib Require Import Strings.Byte.
From Equations Require Import Equations.
Import ListNotations.
Local Open Scope string_scope.
Local Open Scope list_scope.
Local Open Scope Z_scope.

Set Implicit Arguments.

(** ** Bytes *)

Definition bytes : Type := list byte.

Definition bits8 : Type :=
  (bool * (bool * (bool * (bool * (bool * (bool * (bool * bool)))))))%type.

Definition xor_bits8 (a b : bits8) : bits8 :=
  let '(a0, (a1, (a2, (a3, (a4, (a5, (a6, a7))))))) := a in
  let '(b0, (b1, (b2, (b3, (b4, (b5, (b6, b7))))))) := b in
  (xorb a0 b0, (xorb a1 b1, (xorb a2 b2, (xorb a3 b3,
   (xorb a4 b4, (xorb a5 b5, (xorb a6 b6, xorb a7 b7))))))).

(** [a ^ b] on two bytes. *)
Definition byte_xor (a b : byte) : byte :=
  Byte.of_bits (xor_bits8 (Byte.to_bits a) (Byte.to_bits b)).

(** The value of a byte, [ord(c)]. *)
Definition byte_Z (b : byte) : Z := Z.of_N (Byte.to_N b).

(** The byte of value [z mod 256], [chr(z & 0xff)]. *)
Definition byte_of_Z (z : Z) : byte :=
  match Byte.of_N (Z.to_N (z mod 256)) with Some b => b | None => x00 end.

(** [b'\x00' * n]; a count that is zero or negative gives the empty string. *)
Definition zeros (n : Z) : bytes := repeat x00 (Z.to_nat n).
Arguments zeros : simpl never.

(** [len(s)] as a Python integer. *)
Definition len (s : bytes) : Z := Z.of_nat (length s).

(** ** Exceptions and the state-and-exception monad *)

Inductive exn : Type :=
| ValueError (msg : string)
| IOError (msg : string)
| TypeError (msg : string)
| StructError (msg : string).

Inductive Res (A : Type) : Type :=
| Ok (a : A)
| Raise (e : exn).
Arguments Ok {A} a.
Arguments Raise {A} e.

Definition M (S A : Type) : Type := S -> Res A * S.

Definition ret {S A : Type} (a : A) : M S A := fun s => (Ok a, s).

Definition raise {S A : Type} (e : exn) : M S A := fun s => (Raise e, s).

Definition bind {S A B : Type} (m : M S A) (k : A -> M S B) : M S B :=
  fun s => match m s with
           | (Ok a, s') => k a s'
           | (Raise e, s') => (Raise e, s')
           end.

Definition gets {S A : Type} (f : S -> A) : M S A := fun s => (Ok (f s), s).

Definition modify {S : Type} (f : S -> S) : M S unit := fun s => (Ok tt, f s).

Declare Scope py_scope.
Delimit Scope py_scope with py.
Notation "x <- m ;; k" := (bind m (fun x => k))
  (at level 61, m at next level, right associativity) : py_scope.
Notation "m ;; k" := (bind m (fun _ => k))
  (at level 61, right associativity) : py_scope.
Local Open Scope py_scope.

(** ** The Python 2 file object behind [self.fp] *)

Record pyfile : Type := mk_pyfile {
  f_data : bytes;      (* the bytes of the file *)
  f_pos : Z;           (* the position of the next read or write *)
  f_closed : bool;
  f_writable : bool    (* false for mode 'rb' *)
}.

Definition closed_file : exn := ValueError "I/O operation on closed file".
Definition not_writable : exn := IOError "File not open for writing".
Definition einval : exn := IOError "[Errno 22] Invalid argument".
Definition enoent : exn := IOError "[Errno 2] No such file or directory".

Definition set_pos (p : Z) (f : pyfile) : pyfile :=
  mk_pyfile (f_data f) p (f_closed f) (f_writable f).

Definition set_data (d : bytes) (f : pyfile) : pyfile :=
  mk_pyfile d (f_pos f) (f_closed f) (f_writable f).

(** [fp.seek(pos, whence)]: a position before the start of the file is
    refused by the operating system. *)
Definition file_seek (pos whence : Z) : M pyfile unit := fun f =>
  if f_closed f then (Raise closed_file, f) else
  let base := if whence =? 0 then Some 0
              else if whence =? 1 then Some (f_pos f)
              else if whence =? 2 then Some (len (f_data f))
              else None in
  match base with
  | None => (Raise einval, f)
  | Some b => if b + pos <? 0 then (Raise einval, f)
              else (Ok tt, set_pos (b + pos) f)
  end.

(** [fp.tell()]. *)
Definition file_tell : M pyfile Z := fun f =>
  if f_closed f then (Raise closed_file, f) else (Ok (f_pos f), f).

(** [fp.read(size)]: at most [size] bytes from the position on; a negative
    [size] reads to the end of the file. *)
Definition file_read (size : Z) : M pyfile bytes := fun f =>
  if f_closed f then (Raise closed_file, f) else
  let rest := skipn (Z.to_nat (f_pos f)) (f_data f) in
  let s := if size <? 0 then rest else firstn (Z.to_nat size) rest in
  (Ok s, set_pos (f_pos f + len s) f).

(** The bytes of a file after [s] is written at position [p]: a position past
    the end leaves a gap that reads as zero bytes. *)
Definition overwrite (p : nat) (s data : bytes) : bytes :=
  firstn p (data ++ repeat x00 (p - length data)) ++ s
    ++ skipn (p + length s) data.

(** [fp.write(s)]; writing the empty string writes nothing, also past the end
    of the file. *)
Definition file_write (s : bytes) : M pyfile unit := fun f =>
  if f_closed f then (Raise closed_file, f) else
  if negb (f_writable f) then (Raise not_writable, f) else
  match s with
  | [] => (Ok tt, f)
  | _ => (Ok tt, mk_pyfile (overwrite (Z.to_nat (f_pos f)) s (f_data f))
                   (f_pos f + len s) (f_closed f) (f_writable f))
  end.

(** [fp.truncate(size)]: the file is cut, or extended with zero bytes, to
    [size] bytes; the position stays. *)
Definition file_truncate (size : Z) : M pyfile unit := fun f =>
  if f_closed f then (Raise closed_file, f) else
  if negb (f_writable f) then (Raise not_writable, f) else
  if size <? 0 then (Raise einval, f) else
  (Ok tt, set_data (firstn (Z.to_nat size) (f_data f)
                      ++ repeat x00 (Z.to_nat size - length (f_data f))) f).

(** [fp.close()]; closing a closed file is allowed. *)
Definition file_close : M pyfile unit := fun f =>
  (Ok tt, mk_pyfile (f_data f) (f_pos f) true (f_writable f)).

(** [open(path, mode)] for the three modes [CryptFile] lets through. [disk] is
    what [path] holds: [None] when there is no such file. *)
Definition open (disk : option bytes) (mode : string) : Res pyfile :=
  if String.eqb mode "w+b" then Ok (mk_pyfile [] 0 false true)
  else match disk with
       | None => Raise enoent
       | Some d => Ok (mk_pyfile d 0 false (String.eqb mode "r+b"))
       end.

(** ** 128-bit helpers *)

(** [struct.unpack('<Q', s)[0]]: exactly eight bytes, least significant
    first. *)
Fixpoint le_to_Z (s : bytes) : Z :=
  match s with
  | [] => 0
  | b :: r => Z.lor (byte_Z b) (Z.shiftl (le_to_Z r) 8)
  end.

Definition struct_unpack_Q (s : bytes) : Res Z :=
  if (length s =? 8)%nat then Ok (le_to_Z s)
  else Raise (StructError "unpack requires a string argument of length 8").

Definition _unpack_uint128 (s : bytes) : Res Z :=
  match struct_unpack_Q (firstn 8 s) with
  | Raise e => Raise e
  | Ok lo => match struct_unpack_Q (skipn 8 s) with
             | Raise e => Raise e
             | Ok hi => Ok (Z.lor lo (Z.shiftl hi 64))
             end
  end.

(** [struct.pack('<Q', x)]: the eight bytes of [x], least significant first;
    [x] has to fit in 64 bits. *)
Fixpoint Z_to_le (n : nat) (x : Z) : bytes :=
  match n with
  | O => []
  | S n' => byte_of_Z (x mod 256) :: Z_to_le n' (x / 256)
  end.

Definition struct_pack_Q (x : Z) : Res bytes :=
  if (0 <=? x) && (x <? 2 ^ 64) then Ok (Z_to_le 8 x)
  else Raise (StructError "integer out of range for 'Q' format code").

Definition _pack_uint128 (num : Z) : Res bytes :=
  match struct_pack_Q (Z.land num 0xffffffffffffffff) with
  | Raise e => Raise e
  | Ok lo =>
      match struct_pack_Q (Z.land (Z.shiftr num 64) 0xffffffffffffffff) with
      | Raise e => Raise e
      | Ok hi => Ok (lo ++ hi)
      end
  end.

Definition _wrapsum_uint128 (a b : Z) : Z :=
  (a + b) mod 0x100000000000000000000000000000000.

(** ** NullStream *)

(** The default [block_size] of [NullStream.__init__]; no caller passes
    another one. *)
Definition NullStream_block_size : Z := 131072.

(** [NullStream.__iter__]: the blocks the generator yields, in order, for a
    stream of [remaining] zero bytes. *)
Equations? NullStream_iter (remaining : Z) : list bytes
  by wf (Z.to_nat remaining) lt :=
  NullStream_iter remaining with Z_gt_dec remaining 0 => {
    | right _ := [];
    | left _ with Z_gt_dec remaining NullStream_block_size => {
      | left _ := zeros NullStream_block_size
                    :: NullStream_iter (remaining - NullStream_block_size);
      | right _ := [zeros remaining] } }.
Proof. unfold NullStream_block_size in *. lia. Qed.

(** What [write] and [_write] are given as [data]: a byte string, or a
    streaming iterator, an object with a [next] method that yields byte
    strings, such as the generator [iter(NullStream(size))]. *)
Inductive wdata : Type :=
| Buffer (s : bytes)
| Stream (blocks : list bytes).

(** [iter(NullStream(size))]. *)
Definition NullStream (size : Z) : wdata := Stream (NullStream_iter size).

(** [len(data)]: a generator has no length. *)
Definition py_len {S : Type} (data : wdata) : M S Z :=
  match data with
  | Buffer s => ret (len s)
  | Stream _ => raise (TypeError "object of type 'generator' has no len()")
  end.

(** [s1 in s2] on strings. *)
Definition py_in (s1 s2 : string) : bool :=
  match index 0 s1 s2 with Some _ => true | None => false end.

(** ** CryptFile *)

Section CryptFile.

(** The AES block function, from PyCrypto: [AES_block key c] is the 16-byte
    encryption under [key] of the counter block whose value is [c]. *)
Variable AES_block : bytes -> Z -> bytes.

Definition HEADER_SIZE : Z := 16.
Definition AES_block_size : Z := 16.

(** A cipher object in counter mode, [AES.new(key, AES.MODE_CTR, counter=ctr)]
    with [ctr = Counter.new(128, initial_value=v, allow_wraparound=True)]:
    [c_ctr] is the counter value of the keystream block in use and [c_used]
    the number of bytes of that block already consumed. The keystream is the
    blocks [AES_block key v], [AES_block key (v + 1)], ... one after the
    other, and the object keeps its place in it from one call to the next. *)
Record cryptor : Type := mk_cryptor {
  c_key : bytes;
  c_ctr : Z;
  c_used : Z
}.

(** After a block is used up the counter goes to the next value and wraps
    around at 2^128. *)
Definition crypt_byte (c : cryptor) (b : byte) : byte * cryptor :=
  let k := nth (Z.to_nat (c_used c)) (AES_block (c_key c) (c_ctr c)) x00 in
  (byte_xor b k,
   if c_used c + 1 <? AES_block_size
   then mk_cryptor (c_key c) (c_ctr c) (c_used c + 1)
   else mk_cryptor (c_key c) ((c_ctr c + 1) mod 2 ^ 128) 0).

(** [cryptor.encrypt(s)] and [cryptor.decrypt(s)]: in counter mode both xor
    [s] with the next [len(s)] bytes of keystream. The result is the output
    and the cipher object afterwards. *)
Fixpoint crypt (c : cryptor) (s : bytes) : bytes * cryptor :=
  match s with
  | [] => ([], c)
  | b :: r => let (o, c1) := crypt_byte c b in
              let (os, c2) := crypt c1 r in
              (o :: os, c2)
  end.

Definition encrypt : cryptor -> bytes -> bytes * cryptor := crypt.
Definition decrypt : cryptor -> bytes -> bytes * cryptor := crypt.

(** [AES.new(key, AES.MODE_CTR, counter=ctr)]: [None] is not a key, and a key
    has 16, 24 or 32 bytes. *)
Definition AES_new (key : option bytes) (initial_value : Z) : Res cryptor :=
  match key with
  | None => Raise (TypeError "argument 1 must be string or read-only buffer, not None")
  | Some k =>
      if ((length k =? 16) || (length k =? 24) || (length k =? 32))%nat
      then Ok (mk_cryptor k initial_value 0)
      else Raise (ValueError "AES key must be either 16, 24, or 32 bytes long")
  end.

Record CryptFile : Type := mk_CryptFile {
  fp : pyfile;
  mode : string;
  key : option bytes;
  nonce : Z;
  offset : Z
}.

Definition set_fp (f : pyfile) (h : CryptFile) : CryptFile :=
  mk_CryptFile f (mode h) (key h) (nonce h) (offset h).

Definition set_offset (o : Z) (h : CryptFile) : CryptFile :=
  mk_CryptFile (fp h) (mode h) (key h) (nonce h) o.

Definition set_key (k : option bytes) (h : CryptFile) : CryptFile :=
  mk_CryptFile (fp h) (mode h) k (nonce h) (offset h).

(** A method of [self.fp], run on the file of the handle. *)
Definition on_fp {A : Type} (m : M pyfile A) : M CryptFile A := fun h =>
  let (r, f) := m (fp h) in (r, set_fp f h).

(** A result without a state, as a step of a method. *)
Definition lift {S A : Type} (r : Res A) : M S A := fun s => (r, s).

(** [CryptFile.__init__(path, key, mode)]. [disk] is the content of [path]
    before the call and [rnd] what [Random.new().read(16)] returns. *)
Definition CryptFile_init (disk : option bytes) (rnd : bytes)
    (key : bytes) (mode : string) : Res CryptFile :=
  if negb (length key =? 32)%nat
  then Raise (ValueError "Key must be 32 bytes") else
  if negb (String.eqb mode "rb" || String.eqb mode "r+b"
           || String.eqb mode "w+b")
  then Raise (IOError "Unsupported mode") else
  match open disk mode with
  | Raise e => Raise e
  | Ok f0 =>
      let (r, f1) :=
        (if py_in mode "w+b"
         then (file_write rnd ;; ret rnd)
         else file_read 16) f0 in
      match r with
      | Raise e => Raise e
      | Ok nonce =>
          match _unpack_uint128 nonce with
          | Raise e => Raise e
          | Ok n => Ok (mk_CryptFile f1 mode (Some key) n 0)
          end
      end
  end.

Definition _get_file_size : M CryptFile Z :=
  on_fp (file_seek 0 2) ;;
  on_fp file_tell.

Definition seek (offset0 whence : Z) : M CryptFile unit :=
  offset1 <- (if whence =? 0 then ret offset0
              else if whence =? 1 then
                cur <- gets offset ;; ret (cur + offset0)
              else if whence =? 2 then
                size <- _get_file_size ;; ret (size - HEADER_SIZE + offset0)
              else raise (IOError "Invalid whence")) ;;
  if offset1 <? 0 then raise (IOError "Invalid offset")
  else modify (set_offset offset1).

Definition tell : M CryptFile Z := gets offset.

Definition _get_AES_at (offset0 : Z) (for_encrypt : bool) : M CryptFile cryptor :=
  let start_block := offset0 / AES_block_size in
  let start_off := offset0 mod AES_block_size in
  k <- gets key ;;
  n <- gets nonce ;;
  cryptor0 <- lift (AES_new k (_wrapsum_uint128 n start_block)) ;;
  ret (snd ((if for_encrypt then encrypt else decrypt)
              cryptor0 (zeros start_off))).

Definition _read (size : option Z) (offset0 : Z) : M CryptFile bytes :=
  size1 <- match size with
           | None => fs <- _get_file_size ;; ret (fs - offset0 - HEADER_SIZE)
           | Some n => ret n
           end ;;
  if size1 <=? 0 then ret [] else
  decryptor <- _get_AES_at offset0 false ;;
  on_fp (file_seek (HEADER_SIZE + offset0) 0) ;;
  ct <- on_fp (file_read size1) ;;
  ret (fst (decrypt decryptor ct)).

(** [for block in data: self.fp.write(encryptor.encrypt(block))]. *)
Fixpoint write_blocks (encryptor : cryptor) (blocks : list bytes)
    : M CryptFile unit :=
  match blocks with
  | [] => ret tt
  | block :: rest =>
      let (ct, encryptor1) := encrypt encryptor block in
      on_fp (file_write ct) ;;
      write_blocks encryptor1 rest
  end.

Definition _write (data : wdata) (offset0 : Z) : M CryptFile unit :=
  encryptor <- _get_AES_at offset0 true ;;
  on_fp (file_seek (HEADER_SIZE + offset0) 0) ;;
  match data with
  | Stream blocks => write_blocks encryptor blocks
  | Buffer s => on_fp (file_write (fst (encrypt encryptor s)))
  end.

Definition read (size : option Z) : M CryptFile bytes :=
  cur <- gets offset ;;
  data <- _read size cur ;;
  cur1 <- gets offset ;;
  modify (set_offset (cur1 + len data)) ;;
  ret data.

Definition write (data : wdata) : M CryptFile unit :=
  on_fp (file_seek 0 2) ;;
  file_size <- on_fp file_tell ;;
  cur <- gets offset ;;
  (if file_size <? cur + HEADER_SIZE
   then _write (NullStream (cur + HEADER_SIZE - file_size))
               (file_size - HEADER_SIZE)
   else ret tt) ;;
  cur1 <- gets offset ;;
  _write data cur1 ;;
  n <- py_len data ;;
  cur2 <- gets offset ;;
  modify (set_offset (cur2 + n)).

Definition truncate (size : Z) : M CryptFile unit :=
  file_size <- _get_file_size ;;
  on_fp (file_truncate (size + HEADER_SIZE)) ;;
  if file_size <? size + HEADER_SIZE
  then _write (NullStream (size + HEADER_SIZE - file_size))
              (file_size - HEADER_SIZE)
  else ret tt.

Definition close : M CryptFile unit :=
  on_fp file_close ;;
  modify (set_key None).

End CryptFile.

Arguments crypt_byte : simpl never.
Arguments crypt : simpl never.

(** ** A block function to run the code on

    A stand-in for AES with the same shape (16 bytes out, depending on the
    key and on the counter value), so that the container can be run on
    concrete inputs. *)

Definition toy_block (k : bytes) (c : Z) : bytes :=
  map (fun i => byte_of_Z (c * 31 + Z.of_nat i * 7 + byte_Z (hd x00 k)))
      (seq 0 16).

Definition key0 : bytes := repeat x2a 32.

(** A nonce one below 2^128: the counter wraps at the second block. *)
Definition rnd0 : bytes := repeat xff 16.

(** The handle on a container that was just created with [key0] and [rnd0].
    Creation does not fail here; the other branch is there to make the
    definition total. *)
Definition fresh0 : CryptFile :=
  match CryptFile_init None rnd0 key0 "w+b" with
  | Ok h => h
  | Raise _ => mk_CryptFile (mk_pyfile [] 0 true false) "" None 0 0
  end.

(** The handle after six bytes have been written to that container and the
    cursor has been taken back to offset 2. *)
Definition stored0 : CryptFile :=
  snd (seek 2 0
         (snd (write toy_block (Buffer [x61; x62; x63; x64; x65; x66])
                 fresh0))).

(** The handle on the file of [stored0] opened 'rb'. *)
Definition readonly0 : CryptFile :=
  match CryptFile_init (Some (f_data (fp stored0))) rnd0 key0 "rb" with
  | Ok h => h
  | Raise _ => fresh0
  end.

(** ** Notions the properties are stated with *)

(** The cipher object the data model asks for at plaintext offset [o] of a
    container with nonce [n]: counter value (n + floor(o / 16)) mod 2^128,
    with the first [o mod 16] bytes of that keystream block already used. *)
Definition cryptor_at (k : bytes) (n o : Z) : cryptor :=
  mk_cryptor k ((n + o / 16) mod 2 ^ 128) (o mod 16).

(** The bytes of a file after [fp.write(s)] at position [p]. *)
Definition written (p : nat) (s data : bytes) : bytes :=
  match s with [] => data | _ => overwrite p s data end.

(** The plaintext length of a container: the file size less the header. *)
Definition plaintext_length (h : CryptFile) : Z := len (f_data (fp h)) - 16.

Definition key_ok (k : option bytes) : bool :=
  match k with Some k => (length k =? 32)%nat | None => false end.

(** An open handle as [CryptFile.__init__] and the methods leave it: the file
    is open, the key is the 32-byte key and the cursor is not negative. *)
Definition opened (h : CryptFile) : bool :=
  negb (f_closed (fp h)) && key_ok (key h) && (0 <=? offset h).

(** The file of the handle has at least [n] bytes. *)
Definition at_least (n : Z) (h : CryptFile) : Prop := n <= len (f_data (fp h)).

(** The header is in place: the file has its 16 bytes of nonce. *)
Definition header_intact (h : CryptFile) : Prop := at_least 16 h.

(** A method keeps a property of the handle, whether it returns or raises. *)
Definition Preserves {A : Type} (I : CryptFile -> Prop) (m : M CryptFile A)
    : Prop :=
  forall h : CryptFile, I h -> I (snd (m h)).

(** The nonce of the handle is [n]. *)
Definition has_nonce (n : Z) (h : CryptFile) : Prop := nonce h = n.

(** The handle is open, in the sense of [opened]. *)
Definition is_opened (h : CryptFile) : Prop := opened h = true.

(** The calls a user of a handle makes. *)
Inductive call : Type :=
| Seek (offset0 whence : Z)
| Tell
| Read (size : option Z)
| Write (data : wdata)
| Truncate (size : Z).

(** The handle after a call, whatever the call returned or raised. *)
Definition after_call (AES_block : bytes -> Z -> bytes) (c : call)
    (h : CryptFile) : CryptFile :=
  match c with
  | Seek o w => snd (seek o w h)
  | Tell => snd (tell h)
  | Read size => snd (read AES_block size h)
  | Write data => snd (write AES_block data h)
  | Truncate size => snd (truncate AES_block size h)
  end.

Definition after_calls (AES_block : bytes -> Z -> bytes) (cs : list call)
    (h : CryptFile) : CryptFile :=
  fold_left (fun h c => after_call AES_block c h) cs h.

(** A call that is not a [truncate] to a size from -16 to -1. *)
Definition keeps_header (c : call) : bool :=
  match c with
  | Truncate size => (0 <=? size) || (size <? -16)
  | _ => true
  end.

(** Calls of every kind, one of them a [truncate] past the end. *)
Definition calls0 : list call :=
  [Write (Buffer [x61; x62; x63]); Truncate 40; Seek 3 0; Read (Some 2);
   Tell].

(** A method fails loudly on a handle when it raises an exception. *)
Definition fails_loudly {A : Type} (m : M CryptFile A) (h : CryptFile) : Prop :=
  exists e : exn, fst (m h) = Raise e.

(** The target of [seek(offset, whence)] in the words of the interface:
    [offset] from the start, from the cursor, or from the end of the
    plaintext. *)
Definition seek_target (h : CryptFile) (offset0 whence : Z) : Z :=
  if whence =? 0 then offset0
  else if whence =? 1 then offset h + offset0
  else plaintext_length h + offset0.

(** ** The rest of the class, and notions for its properties *)

(** [CryptFile.__enter__]: the handle itself. *)
Definition __enter__ : M CryptFile CryptFile := gets (fun h => h).

(** [CryptFile.__exit__(exc_type, exc_value, traceback)]: closes and returns
    [False], whatever the three arguments are ([exc] stands for them: the
    exception that left the [with] block, if one did). *)
Definition __exit__ (exc : option exn) : M CryptFile bool :=
  close ;; ret false.

(** The number a byte string stands for when read least significant byte
    first. *)
Definition le_value (s : bytes) : Z :=
  fold_right (fun b acc => byte_Z b + 256 * acc) 0 s.

(** Byte [j] of the keystream of a container with key [k] and nonce [n], as
    the on-disk format has it: byte [j mod 16] of the block of counter value
    (n + floor(j / 16)) mod 2^128. *)
Definition keystream_byte (AES_block : bytes -> Z -> bytes) (k : bytes)
    (n j : Z) : byte :=
  nth (Z.to_nat (j mod 16)) (AES_block k ((n + j / 16) mod 2 ^ 128)) x00.

(** The plaintext of a container between offsets [a] and [a + size], as
    [_read] gives it. *)
Definition plaintext_at (AES_block : bytes -> Z -> bytes) (h : CryptFile)
    (a size : Z) : Res bytes :=
  fst (_read AES_block (Some size) a h).

(** The header of the file is [hdr]: its first 16 bytes, all there. *)
Definition has_header (hdr : bytes) (h : CryptFile) : Prop :=
  firstn 16 (f_data (fp h)) = hdr /\ 16 <= len (f_data (fp h)).

(** The key of the handle is [k]. *)
Definition has_key (k : option bytes) (h : CryptFile) : Prop := key h = k.

(** The handle is open for writing: open, and not on a file opened 'rb'. *)
Definition writable (h : CryptFile) : bool :=
  opened h && f_writable (fp h).

(** ** Properties *)

(** *** Bytes and xor *)

Lemma xorb_cancel_r (a b : bool) : xorb (xorb a b) b = a.
Proof. destruct a, b; reflexivity. Qed.

Lemma xor_bits8_cancel_r (x y : bits8) : xor_bits8 (xor_bits8 x y) y = x.
Proof.
  destruct x as (x0 & x1 & x2 & x3 & x4 & x5 & x6 & x7).
  destruct y as (y0 & y1 & y2 & y3 & y4 & y5 & y6 & y7).
  unfold xor_bits8. now rewrite !xorb_cancel_r.
Qed.

Lemma byte_xor_cancel_r (a k : byte) : byte_xor (byte_xor a k) k = a.
Proof.
  unfold byte_xor.
  rewrite Byte.to_bits_of_bits, xor_bits8_cancel_r.
  apply Byte.of_bits_to_bits.
Qed.

Lemma len_app (a b : bytes) : len (a ++ b) = len a + len b.
Proof. unfold len. rewrite length_app. lia. Qed.

Lemma len_nonneg (a : bytes) : 0 <= len a.
Proof. unfold len. lia. Qed.

Lemma len_zeros (n : Z) : len (zeros n) = Z.max 0 n.
Proof. unfold len, zeros. rewrite repeat_length. lia. Qed.

Lemma zeros_add (a b : Z) : 0 <= a -> 0 <= b ->
  zeros (a + b) = zeros a ++ zeros b.
Proof.
  intros Ha Hb. unfold zeros.
  rewrite Z2Nat.inj_add by assumption. apply repeat_app.
Qed.

(** *** The 128-bit helpers *)

Lemma _wrapsum_uint128_range (a b : Z) : 0 <= _wrapsum_uint128 a b < 2 ^ 128.
Proof. unfold _wrapsum_uint128. apply Z.mod_pos_bound. reflexivity. Qed.

Lemma _unpack_uint128_16 (s : bytes) : length s = 16%nat ->
  exists n, _unpack_uint128 s = Ok n.
Proof.
  intros H. unfold _unpack_uint128, struct_unpack_Q.
  rewrite length_firstn, length_skipn, H. simpl. eauto.
Qed.

Lemma byte_Z_range (b : byte) : 0 <= byte_Z b < 256.
Proof.
  unfold byte_Z. pose proof (Byte.to_N_bounded b). lia.
Qed.

Lemma byte_Z_of_Z (z : Z) : byte_Z (byte_of_Z z) = z mod 256.
Proof.
  unfold byte_Z, byte_of_Z.
  pose proof (Z.mod_pos_bound z 256 ltac:(lia)) as Hb.
  destruct (Byte.of_N (Z.to_N (z mod 256))) as [b|] eqn:E.
  - apply Byte.to_of_N in E. rewrite E. lia.
  - apply Byte.of_N_None_iff in E. lia.
Qed.

Lemma lor_low_high (k a b : Z) : 0 <= k -> 0 <= a < 2 ^ k ->
  Z.lor a (Z.shiftl b k) = a + 2 ^ k * b.
Proof.
  intros Hk Ha.
  assert (Hl : Z.land a (Z.shiftl b k) = 0).
  { apply Z.bits_inj'. intros i Hi.
    rewrite Z.land_spec, Z.bits_0.
    destruct (Z_lt_le_dec i k) as [Hlt|Hge].
    - rewrite Z.shiftl_spec_low by lia. apply andb_false_r.
    - replace (Z.testbit a i) with false; [reflexivity|].
      symmetry. destruct (Z.eq_dec a 0) as [->|Hn]; [apply Z.bits_0|].
      apply Z.bits_above_log2; [lia|].
      apply Z.log2_lt_pow2; [lia|].
      apply Z.lt_le_trans with (2 ^ k); [lia|].
      apply Z.pow_le_mono_r; lia. }
  rewrite <- Z.lxor_lor by exact Hl.
  rewrite <- Z.add_nocarry_lxor by exact Hl.
  rewrite Z.shiftl_mul_pow2 by lia. lia.
Qed.

Lemma le_to_Z_range (s : bytes) : 0 <= le_to_Z s < 2 ^ (8 * len s).
Proof.
  induction s as [|b r IH].
  - simpl. lia.
  - cbn [le_to_Z]. rewrite (@lor_low_high 8) by (try lia; apply byte_Z_range).
    pose proof (byte_Z_range b) as Hb.
    replace (8 * len (b :: r)) with (8 + 8 * len r)
      by (unfold len; simpl length; lia).
    rewrite Z.pow_add_r by (unfold len; lia).
    change (2 ^ 8) with 256 in *. nia.
Qed.

Lemma le_to_Z_to_le (n : nat) : forall x : Z,
  le_to_Z (Z_to_le n x) = x mod 2 ^ (8 * Z.of_nat n).
Proof.
  induction n as [|n IH]; intros x.
  - simpl. now rewrite Z.mod_1_r.
  - cbn [Z_to_le le_to_Z].
    rewrite (@lor_low_high 8)
      by (try lia; rewrite byte_Z_of_Z; apply Z.mod_pos_bound; lia).
    rewrite byte_Z_of_Z, IH, Z.mod_mod by lia. change (2 ^ 8) with 256.
    replace (8 * Z.of_nat (S n)) with (8 + 8 * Z.of_nat n) by lia.
    rewrite Z.pow_add_r by lia. change (2 ^ 8) with 256.
    rewrite Z.rem_mul_r by lia. reflexivity.
Qed.

Lemma Z_to_le_length (n : nat) : forall x, length (Z_to_le n x) = n.
Proof. induction n; intros x; simpl; [reflexivity|now rewrite IHn]. Qed.

Lemma _unpack_uint128_range (s : bytes) (n : Z) :
  _unpack_uint128 s = Ok n -> 0 <= n < 2 ^ 128.
Proof.
  unfold _unpack_uint128, struct_unpack_Q.
  destruct (length (firstn 8 s) =? 8)%nat eqn:E1; [|discriminate].
  destruct (length (skipn 8 s) =? 8)%nat eqn:E2; [|discriminate].
  apply Nat.eqb_eq in E1, E2. intros H.
  assert (Hn : n = Z.lor (le_to_Z (firstn 8 s))
                     (Z.shiftl (le_to_Z (skipn 8 s)) 64)) by congruence.
  rewrite Hn. clear H Hn.
  pose proof (le_to_Z_range (firstn 8 s)) as H1.
  pose proof (le_to_Z_range (skipn 8 s)) as H2.
  unfold len in H1, H2. rewrite E1 in H1. rewrite E2 in H2.
  change (2 ^ (8 * Z.of_nat 8)) with (2 ^ 64) in H1, H2.
  rewrite (@lor_low_high 64) by lia.
  change (2 ^ 128) with (2 ^ 64 * 2 ^ 64). nia.
Qed.

Lemma mask64 (x : Z) : Z.land x 0xffffffffffffffff = x mod 2 ^ 64.
Proof. change 0xffffffffffffffff with (Z.ones 64). apply Z.land_ones. lia. Qed.

Lemma struct_pack_Q_mask (x : Z) :
  struct_pack_Q (Z.land x 0xffffffffffffffff) = Ok (Z_to_le 8 (x mod 2 ^ 64)).
Proof.
  rewrite mask64. unfold struct_pack_Q.
  pose proof (Z.mod_pos_bound x (2 ^ 64) ltac:(lia)) as Hb.
  replace (0 <=? x mod 2 ^ 64) with true by (symmetry; apply Z.leb_le; lia).
  replace (x mod 2 ^ 64 <? 2 ^ 64) with true
    by (symmetry; apply Z.ltb_lt; lia).
  reflexivity.
Qed.

Lemma firstn_length_app (a b : bytes) (n : nat) :
  length a = n -> firstn n (a ++ b) = a.
Proof.
  intros <-. now rewrite firstn_app, firstn_all, Nat.sub_diag, app_nil_r.
Qed.

Lemma skipn_length_app (a b : bytes) (n : nat) :
  length a = n -> skipn n (a ++ b) = b.
Proof.
  intros <-. now rewrite skipn_app, skipn_all, Nat.sub_diag.
Qed.

(** Packing never fails and gives 16 bytes; unpacking them gives the number
    back, reduced to 128 bits. *)
Lemma _unpack_pack_uint128 (num : Z) :
  exists s : bytes,
    _pack_uint128 num = Ok s /\ length s = 16%nat /\
    _unpack_uint128 s = Ok (num mod 2 ^ 128).
Proof.
  eexists. unfold _pack_uint128. rewrite !struct_pack_Q_mask.
  split; [reflexivity|]. split.
  - rewrite length_app, !Z_to_le_length. reflexivity.
  - unfold _unpack_uint128, struct_unpack_Q.
    rewrite firstn_length_app, skipn_length_app by apply Z_to_le_length.
    rewrite !Z_to_le_length. cbn [Nat.eqb].
    f_equal. rewrite !le_to_Z_to_le.
    change (2 ^ (8 * Z.of_nat 8)) with (2 ^ 64). rewrite !Z.mod_mod by lia.
    rewrite (@lor_low_high 64) by (try lia; apply Z.mod_pos_bound; lia).
    rewrite Z.shiftr_div_pow2 by lia.
    change (2 ^ 128) with (2 ^ 64 * 2 ^ 64).
    rewrite Z.rem_mul_r by lia. reflexivity.
Qed.

(** *** NullStream *)

Lemma NullStream_iter_concat (n : Z) : concat (NullStream_iter n) = zeros n.
Proof.
  funelim (NullStream_iter n).
  - unfold zeros. replace (Z.to_nat remaining) with 0%nat by lia. reflexivity.
  - rewrite concat_cons.
    match goal with IH : concat _ = _ |- _ => rewrite IH end.
    rewrite <- zeros_add by (unfold NullStream_block_size in *; lia).
    f_equal. lia.
  - rewrite concat_cons. apply app_nil_r.
Qed.

(** *** The file object *)

Lemma overwrite_append (d s z : bytes) :
  overwrite (length d) s (d ++ z) = d ++ s ++ skipn (length s) z.
Proof.
  unfold overwrite.
  replace (length d - length (d ++ z))%nat with 0%nat
    by (rewrite length_app; lia).
  simpl repeat. rewrite app_nil_r.
  rewrite firstn_app, firstn_all, Nat.sub_diag, firstn_O, app_nil_r.
  rewrite skipn_app.
  rewrite (skipn_all2 d) by lia.
  replace (length d + length s - length d)%nat with (length s) by lia.
  reflexivity.
Qed.

Lemma overwrite_at_end (d s : bytes) : overwrite (length d) s d = d ++ s.
Proof.
  pose proof (overwrite_append d s []) as H.
  rewrite app_nil_r, skipn_nil, app_nil_r in H. exact H.
Qed.

Lemma overwrite_length (p : nat) (s d : bytes) :
  length (overwrite p s d) = Nat.max (p + length s) (length d).
Proof.
  unfold overwrite.
  rewrite !length_app, length_firstn, length_app, repeat_length, length_skipn.
  lia.
Qed.

Lemma overwrite_app (p : nat) (a b d : bytes) :
  overwrite (p + length a) b (overwrite p a d) = overwrite p (a ++ b) d.
Proof.
  unfold overwrite at 1.
  replace (p + length a - length (overwrite p a d))%nat with 0%nat
    by (rewrite overwrite_length; lia).
  simpl repeat. rewrite app_nil_r.
  unfold overwrite.
  set (P := firstn p (d ++ repeat x00 (p - length d))).
  assert (HP : length P = p).
  { unfold P. rewrite length_firstn, length_app, repeat_length. lia. }
  rewrite (app_assoc P a).
  rewrite firstn_app.
  replace (p + length a - length (P ++ a))%nat with 0%nat
    by (rewrite length_app; lia).
  rewrite firstn_O, app_nil_r.
  rewrite firstn_all2 by (rewrite length_app; lia).
  rewrite skipn_app.
  rewrite (skipn_all2 (P ++ a)) by (rewrite length_app; lia).
  rewrite skipn_skipn, !length_app, HP.
  replace (p + length a + length b - (p + length a) + (p + length a))%nat
    with (p + (length a + length b))%nat by lia.
  simpl. now rewrite <- !app_assoc.
Qed.

Lemma file_write_app (a b : bytes) (f : pyfile) : 0 <= f_pos f ->
  (file_write a ;; file_write b) f = file_write (a ++ b) f.
Proof.
  destruct f as [d p c w]. cbn [f_pos]. intros Hp.
  unfold bind, file_write. cbn [f_closed f_writable f_data f_pos].
  destruct c; [reflexivity|]. destruct w; [|reflexivity]. cbn [negb].
  destruct a as [|x a]; [reflexivity|].
  cbn [f_closed f_writable f_data f_pos negb].
  destruct b as [|y b].
  - now rewrite app_nil_r.
  - change ((x :: a) ++ y :: b) with (x :: (a ++ y :: b)). cbv iota.
    change (x :: (a ++ y :: b)) with ((x :: a) ++ (y :: b)).
    f_equal. f_equal.
    + replace (Z.to_nat (p + len (x :: a)))
        with (Z.to_nat p + length (x :: a))%nat
        by (unfold len; lia).
      apply (overwrite_app _ (x :: a) (y :: b)).
    + rewrite len_app. lia.
Qed.

Lemma written_at_end (d s : bytes) : written (length d) s d = d ++ s.
Proof.
  destruct s; [symmetry; apply app_nil_r|]. apply overwrite_at_end.
Qed.

Lemma written_over_tail (d s z : bytes) : length z = length s ->
  written (length d) s (d ++ z) = d ++ s.
Proof.
  intros Hl. destruct s as [|x s].
  - destruct z; [reflexivity|discriminate].
  - cbn [written]. rewrite overwrite_append, <- Hl, skipn_all.
    now rewrite app_nil_r.
Qed.

Lemma zeros_nonpositive (n : Z) : n <= 0 -> zeros n = [].
Proof. intros H. unfold zeros. now replace (Z.to_nat n) with 0%nat by lia. Qed.

Lemma bind_ok {S A B : Type} (m : M S A) (k : A -> M S B) (s s' : S) (a : A) :
  m s = (Ok a, s') -> bind m k s = k a s'.
Proof. intros H. unfold bind. now rewrite H. Qed.

Lemma bind_raise {S A B : Type} (m : M S A) (k : A -> M S B) (s s' : S)
    (e : exn) :
  m s = (Raise e, s') -> bind m k s = (Raise e, s').
Proof. intros H. unfold bind. now rewrite H. Qed.

Lemma _unpack_uint128_Ok (s : bytes) (n : Z) :
  _unpack_uint128 s = Ok n -> length s = 16%nat.
Proof.
  unfold _unpack_uint128, struct_unpack_Q.
  destruct (length (firstn 8 s) =? 8)%nat eqn:E1; [|discriminate].
  destruct (length (skipn 8 s) =? 8)%nat eqn:E2; [|discriminate].
  intros _. apply Nat.eqb_eq in E1, E2.
  rewrite length_firstn in E1. rewrite length_skipn in E2. lia.
Qed.

(** *** Creating and opening a container *)

Lemma CryptFile_init_create (disk : option bytes) (rnd key : bytes) :
  length key = 32%nat -> length rnd = 16%nat ->
  exists n, _unpack_uint128 rnd = Ok n /\
    CryptFile_init disk rnd key "w+b" =
    Ok (mk_CryptFile (mk_pyfile rnd 16 false true) "w+b" (Some key) n 0).
Proof.
  intros Hk Hr. destruct (_unpack_uint128_16 rnd Hr) as [n Hn].
  exists n. split; [exact Hn|].
  unfold CryptFile_init. rewrite Hk. cbn [Nat.eqb negb].
  change (py_in "w+b" "w+b") with true. cbv iota.
  change (open disk "w+b") with (Ok (mk_pyfile [] 0 false true)).
  change (negb (("w+b" =? "rb")%string || ("w+b" =? "r+b")%string
                || ("w+b" =? "w+b")%string)) with false. cbv iota.
  unfold bind, file_write, ret. cbn [f_closed f_writable negb f_pos f_data].
  destruct rnd as [|x rnd]; [discriminate|].
  cbv iota. rewrite Hn.
  unfold overwrite. cbn [Z.to_nat firstn app]. rewrite skipn_nil, app_nil_r.
  unfold len. rewrite Hr. reflexivity.
Qed.

Lemma CryptFile_init_rb (rnd rnd' ct key : bytes) (n : Z) :
  length key = 32%nat -> length rnd = 16%nat -> _unpack_uint128 rnd = Ok n ->
  CryptFile_init (Some (rnd ++ ct)) rnd' key "rb" =
  Ok (mk_CryptFile (mk_pyfile (rnd ++ ct) 16 false false) "rb" (Some key) n 0).
Proof.
  intros Hk Hr Hn. unfold CryptFile_init. rewrite Hk. cbn [Nat.eqb negb].
  change (py_in "rb" "w+b") with false. cbv iota.
  change (negb (("rb" =? "rb")%string || ("rb" =? "r+b")%string
                || ("rb" =? "w+b")%string)) with false. cbv iota.
  unfold open. change (("rb" =? "w+b")%string) with false.
  change (("rb" =? "r+b")%string) with false. cbv iota.
  assert (Hf : firstn (Z.to_nat 16) (skipn (Z.to_nat 0) (rnd ++ ct)) = rnd).
  { change (Z.to_nat 0) with 0%nat. change (Z.to_nat 16) with 16%nat.
    cbn [skipn]. rewrite <- Hr.
    now rewrite firstn_app, firstn_all, Nat.sub_diag, firstn_O, app_nil_r. }
  unfold file_read. cbn [f_closed f_pos f_data].
  change (16 <? 0) with false. cbv iota. rewrite Hf, Hn.
  unfold set_pos, len. cbn [f_data f_pos f_closed f_writable]. rewrite Hr.
  reflexivity.
Qed.

Section Properties.

Variable AES_block : bytes -> Z -> bytes.

(** *** Counter mode *)

Lemma crypt_nil (c : cryptor) : crypt AES_block c [] = ([], c).
Proof. reflexivity. Qed.

Lemma crypt_cons (c : cryptor) (b : byte) (r : bytes) :
  crypt AES_block c (b :: r) =
  (fst (crypt_byte AES_block c b)
     :: fst (crypt AES_block (snd (crypt_byte AES_block c b)) r),
   snd (crypt AES_block (snd (crypt_byte AES_block c b)) r)).
Proof.
  unfold crypt at 1. fold (crypt AES_block).
  destruct (crypt_byte AES_block c b) as [o c1]. simpl.
  now destruct (crypt AES_block c1 r).
Qed.

Lemma crypt_length (s : bytes) : forall c,
  length (fst (crypt AES_block c s)) = length s.
Proof.
  induction s as [|b r IH]; intros c; [reflexivity|].
  rewrite crypt_cons. simpl. now rewrite IH.
Qed.

Lemma crypt_len (c : cryptor) (s : bytes) :
  len (fst (crypt AES_block c s)) = len s.
Proof. unfold len. now rewrite crypt_length. Qed.

Lemma crypt_app (a b : bytes) : forall c,
  crypt AES_block c (a ++ b) =
  (fst (crypt AES_block c a)
     ++ fst (crypt AES_block (snd (crypt AES_block c a)) b),
   snd (crypt AES_block (snd (crypt AES_block c a)) b)).
Proof.
  induction a as [|x r IH]; intros c.
  - rewrite crypt_nil. simpl. now destruct (crypt AES_block c b).
  - rewrite <- app_comm_cons, !crypt_cons, IH. reflexivity.
Qed.

(** Decrypting from the state the encryption started in gives the plaintext
    back. *)
Lemma crypt_involutive (s : bytes) : forall c,
  fst (crypt AES_block c (fst (crypt AES_block c s))) = s.
Proof.
  induction s as [|b r IH]; intros c; [reflexivity|].
  rewrite crypt_cons. cbn [fst]. rewrite crypt_cons. cbn [fst].
  assert (Hs : forall x y, snd (crypt_byte AES_block c x)
                           = snd (crypt_byte AES_block c y))
    by reflexivity.
  rewrite (Hs _ b), IH. f_equal.
  unfold crypt_byte. cbn [fst]. apply byte_xor_cancel_r.
Qed.

Lemma crypt_byte_at (k : bytes) (n o : Z) (b : byte) :
  snd (crypt_byte AES_block (cryptor_at k n o) b) = cryptor_at k n (o + 1).
Proof.
  unfold crypt_byte, cryptor_at, AES_block_size. cbn [snd c_used c_key c_ctr].
  pose proof (Z.div_mod o 16 ltac:(lia)) as Ho.
  pose proof (Z.mod_pos_bound o 16 ltac:(lia)) as Hb.
  pose proof (Z.div_mod (o + 1) 16 ltac:(lia)) as Ho1.
  pose proof (Z.mod_pos_bound (o + 1) 16 ltac:(lia)) as Hb1.
  destruct (o mod 16 + 1 <? 16) eqn:E.
  - apply Z.ltb_lt in E.
    assert ((o + 1) / 16 = o / 16) as -> by lia.
    assert ((o + 1) mod 16 = o mod 16 + 1) as -> by lia.
    reflexivity.
  - apply Z.ltb_ge in E.
    assert ((o + 1) / 16 = o / 16 + 1) as -> by lia.
    assert ((o + 1) mod 16 = 0) as -> by lia.
    rewrite Z.add_mod_idemp_l by lia.
    now rewrite Z.add_assoc.
Qed.

(** The state of the cipher object follows the offset: after [len(s)] bytes
    from offset [o] it is the cipher object of offset [o + len(s)]. *)
Lemma crypt_at (k : bytes) (n : Z) (s : bytes) : forall o,
  snd (crypt AES_block (cryptor_at k n o) s) = cryptor_at k n (o + len s).
Proof.
  induction s as [|b r IH]; intros o.
  - rewrite crypt_nil. cbn [snd]. f_equal. unfold len. simpl. lia.
  - rewrite crypt_cons. cbn [snd]. rewrite crypt_byte_at, IH.
    f_equal. unfold len. simpl length. lia.
Qed.

(** *** The cipher object of an offset *)

Lemma _get_AES_at_state (o : Z) (e : bool) (h : CryptFile) :
  snd (_get_AES_at AES_block o e h) = h.
Proof.
  unfold _get_AES_at, bind, gets, lift, ret.
  now destruct (AES_new (key h) _).
Qed.

Lemma skip_to_offset (k : bytes) (n o : Z) :
  snd (crypt AES_block (mk_cryptor k (_wrapsum_uint128 n (o / 16)) 0)
         (zeros (o mod 16))) = cryptor_at k n o.
Proof.
  pose proof (Z.mod_pos_bound o 16 ltac:(lia)) as Hb.
  replace (mk_cryptor k (_wrapsum_uint128 n (o / 16)) 0)
    with (cryptor_at k n (16 * (o / 16))).
  - rewrite crypt_at, len_zeros. f_equal.
    rewrite (Z.div_mod o 16) at 3 by lia. lia.
  - unfold cryptor_at, _wrapsum_uint128.
    replace (16 * (o / 16)) with (o / 16 * 16) by lia.
    rewrite Z.div_mul, Z.mod_mul by lia. reflexivity.
Qed.

Lemma _get_AES_at_ok (o : Z) (e : bool) (h : CryptFile) (k : bytes) :
  key h = Some k -> length k = 32%nat ->
  _get_AES_at AES_block o e h = (Ok (cryptor_at k (nonce h) o), h).
Proof.
  intros Hk Hl. unfold _get_AES_at, bind, gets, lift, ret, AES_new.
  rewrite Hk, Hl. cbn [Nat.eqb orb]. unfold AES_block_size.
  f_equal. f_equal. destruct e; apply skip_to_offset.
Qed.

Lemma _get_AES_at_no_key (o : Z) (e : bool) (h : CryptFile) :
  key h = None -> exists err, _get_AES_at AES_block o e h = (Raise err, h).
Proof.
  intros Hk. unfold _get_AES_at, bind, gets, lift, ret, AES_new.
  rewrite Hk. eauto.
Qed.

(** *** Writing blocks one after the other *)

Lemma write_blocks_concat (blocks : list bytes) :
  forall (c : cryptor) (d : bytes) (p : Z) (m : string) (k : option bytes)
         (n cur : Z),
  0 <= p ->
  write_blocks AES_block c blocks
    (mk_CryptFile (mk_pyfile d p false true) m k n cur) =
  on_fp (file_write (fst (crypt AES_block c (concat blocks))))
    (mk_CryptFile (mk_pyfile d p false true) m k n cur).
Proof.
  induction blocks as [|b r IH]; intros c d p m k n cur Hp.
  - reflexivity.
  - cbn [write_blocks concat]. unfold encrypt.
    rewrite crypt_app. cbn [fst].
    destruct (crypt AES_block c b) as [ct c1] eqn:Eb. cbn [fst snd].
    unfold on_fp at 2. cbn [fp].
    rewrite <- file_write_app by (cbn [f_pos]; exact Hp).
    unfold bind at 1 2. unfold on_fp at 1. cbn [fp].
    destruct ct as [|x ct].
    + unfold file_write at 1 2. cbn [f_closed f_writable negb].
      unfold set_fp. cbn [fp mode key nonce offset].
      rewrite IH by exact Hp. reflexivity.
    + unfold file_write at 1 2.
      cbn [f_closed f_writable f_data f_pos negb].
      unfold set_fp. cbn [fp mode key nonce offset].
      rewrite IH by (pose proof (len_nonneg (x :: ct)); lia).
      reflexivity.
Qed.

(** *** [_write] and [_read] on an open handle *)

(** A stream of blocks is written as the byte string of the blocks put end to
    end is: the same result and the same state of the handle, bytes of the
    file included. *)
Lemma _write_Stream_concat (blocks : list bytes) (off : Z) (h : CryptFile) :
  f_writable (fp h) = true ->
  _write AES_block (Stream blocks) off h =
  _write AES_block (Buffer (concat blocks)) off h.
Proof.
  destruct h as [[d p c w] m k n cur]. cbn [fp f_writable]. intros ->.
  unfold _write, bind.
  pose proof (_get_AES_at_state off true
                (mk_CryptFile (mk_pyfile d p c true) m k n cur)) as Hs.
  destruct (_get_AES_at AES_block off true _) as [[enc|e] h1];
    cbn [snd] in Hs; subst h1; [|reflexivity].
  unfold on_fp at 1 3. unfold file_seek.
  cbn [fp f_closed f_pos f_data Z.eqb].
  destruct c; [reflexivity|].
  destruct (0 + (HEADER_SIZE + off) <? 0) eqn:E; [reflexivity|].
  apply Z.ltb_ge in E.
  unfold set_pos, set_fp. cbn [fp f_closed f_pos f_data f_writable mode key
                               nonce offset].
  apply write_blocks_concat. exact E.
Qed.

Lemma _write_Buffer_spec (s d : bytes) (p off : Z) (m : string) (k : bytes)
    (n cur : Z) :
  length k = 32%nat -> 0 <= 16 + off ->
  _write AES_block (Buffer s) off
    (mk_CryptFile (mk_pyfile d p false true) m (Some k) n cur) =
  (Ok tt,
   mk_CryptFile
     (mk_pyfile
        (written (Z.to_nat (16 + off))
           (fst (crypt AES_block (cryptor_at k n off) s)) d)
        (16 + off + len s) false true) m (Some k) n cur).
Proof.
  intros Hk Ho. unfold _write, bind.
  rewrite (@_get_AES_at_ok off true _ k) by (cbn [key]; trivial).
  cbn [nonce]. unfold encrypt.
  unfold on_fp, file_seek, HEADER_SIZE.
  cbn [fp f_closed f_pos f_data Z.eqb].
  rewrite Z.add_0_l.
  replace (16 + off <? 0) with false by (symmetry; apply Z.ltb_ge; lia).
  unfold set_pos, set_fp. cbn [fp f_closed f_pos f_data f_writable mode key
                               nonce offset].
  unfold file_write. cbn [f_closed f_pos f_data f_writable negb].
  pose proof (crypt_len (cryptor_at k n off) s) as Hl.
  destruct (fst (crypt AES_block (cryptor_at k n off) s)) as [|x ct].
  - cbn [written]. replace (len s) with 0 by (rewrite <- Hl; reflexivity).
    now rewrite Z.add_0_r.
  - cbn [written]. rewrite Hl. reflexivity.
Qed.

Lemma _read_spec (size : Z) (d : bytes) (p off : Z) (w : bool) (m : string)
    (k : bytes) (n cur : Z) :
  length k = 32%nat -> 0 <= 16 + off -> 0 < size ->
  let ct := firstn (Z.to_nat size) (skipn (Z.to_nat (16 + off)) d) in
  _read AES_block (Some size) off
    (mk_CryptFile (mk_pyfile d p false w) m (Some k) n cur) =
  (Ok (fst (crypt AES_block (cryptor_at k n off) ct)),
   mk_CryptFile (mk_pyfile d (16 + off + len ct) false w) m (Some k) n cur).
Proof.
  intros Hk Ho Hs ct. unfold _read, bind, ret.
  replace (size <=? 0) with false by (symmetry; apply Z.leb_gt; lia).
  rewrite (@_get_AES_at_ok off false _ k) by (cbn [key]; trivial).
  cbn [nonce]. unfold decrypt.
  unfold on_fp, file_seek, HEADER_SIZE.
  cbn [fp f_closed f_pos f_data Z.eqb].
  rewrite Z.add_0_l.
  replace (16 + off <? 0) with false by (symmetry; apply Z.ltb_ge; lia).
  unfold set_pos, set_fp. cbn [fp f_closed f_pos f_data f_writable mode key
                               nonce offset].
  unfold file_read. cbn [f_closed f_pos f_data f_writable].
  replace (size <? 0) with false by (symmetry; apply Z.ltb_ge; lia).
  unfold set_pos. cbn [fp f_closed f_pos f_data f_writable].
  reflexivity.
Qed.

Lemma _get_file_size_spec (d : bytes) (p : Z) (w : bool) (m : string)
    (k : option bytes) (n cur : Z) :
  _get_file_size (mk_CryptFile (mk_pyfile d p false w) m k n cur) =
  (Ok (len d), mk_CryptFile (mk_pyfile d (len d) false w) m k n cur).
Proof.
  unfold _get_file_size, bind, on_fp, file_seek, file_tell.
  cbn [fp f_closed f_pos f_data Z.eqb Pos.eqb].
  rewrite Z.add_0_r.
  replace (len d <? 0) with false
    by (symmetry; apply Z.ltb_ge; apply len_nonneg).
  reflexivity.
Qed.

Lemma _read_None (d : bytes) (p off : Z) (w : bool) (m : string)
    (k : option bytes) (n cur : Z) :
  _read AES_block None off
    (mk_CryptFile (mk_pyfile d p false w) m k n cur) =
  _read AES_block (Some (len d - off - 16)) off
    (mk_CryptFile (mk_pyfile d (len d) false w) m k n cur).
Proof.
  unfold _read. unfold bind at 1 2. rewrite _get_file_size_spec. reflexivity.
Qed.

Lemma _read_nonpositive (size off : Z) (h : CryptFile) :
  size <= 0 -> _read AES_block (Some size) off h = (Ok [], h).
Proof.
  intros Hs. unfold _read, bind, ret.
  replace (size <=? 0) with true by (symmetry; apply Z.leb_le; lia).
  reflexivity.
Qed.

(** The byte at index [i] of what a cipher object positioned at offset [o]
    produces: the input byte xor-ed with byte [(o + i) mod 16] of the
    keystream block of counter value (n + floor((o + i) / 16)) mod 2^128. *)
Lemma crypt_nth (k : bytes) (n : Z) (s : bytes) : forall (o : Z) (i : nat),
  (i < length s)%nat ->
  nth i (fst (crypt AES_block (cryptor_at k n o) s)) x00 =
  byte_xor (nth i s x00)
    (nth (Z.to_nat ((o + Z.of_nat i) mod 16))
       (AES_block k ((n + (o + Z.of_nat i) / 16) mod 2 ^ 128)) x00).
Proof.
  induction s as [|b r IH]; intros o i Hi; [simpl in Hi; lia|].
  rewrite crypt_cons. cbn [fst]. destruct i as [|i].
  - cbn [nth]. unfold crypt_byte, cryptor_at. cbn [fst c_used c_key c_ctr].
    now rewrite Z.add_0_r.
  - cbn [nth]. rewrite crypt_byte_at, IH by (simpl in Hi; lia).
    replace (o + 1 + Z.of_nat i) with (o + Z.of_nat (S i)) by lia.
    reflexivity.
Qed.

Lemma read_positive (size : Z) (d : bytes) (p : Z) (w : bool) (m : string)
    (k : bytes) (n cur : Z) :
  length k = 32%nat -> 0 <= cur -> 0 < size ->
  let ct := firstn (Z.to_nat size) (skipn (Z.to_nat (16 + cur)) d) in
  let pt := fst (crypt AES_block (cryptor_at k n cur) ct) in
  read AES_block (Some size)
    (mk_CryptFile (mk_pyfile d p false w) m (Some k) n cur) =
  (Ok pt,
   mk_CryptFile (mk_pyfile d (16 + cur + len ct) false w) m (Some k) n
     (cur + len pt)).
Proof.
  intros Hk Hc Hs ct pt. unfold read. unfold bind at 1. unfold gets at 1.
  cbn [offset]. unfold bind at 1.
  rewrite _read_spec by (trivial; lia).
  reflexivity.
Qed.

Lemma read_None (d : bytes) (p : Z) (w : bool) (m : string)
    (k : option bytes) (n cur : Z) :
  read AES_block None (mk_CryptFile (mk_pyfile d p false w) m k n cur) =
  read AES_block (Some (len d - cur - 16))
    (mk_CryptFile (mk_pyfile d (len d) false w) m k n cur).
Proof.
  unfold read. unfold bind at 1 2 6 7. unfold gets at 1 3. cbn [offset].
  now rewrite _read_None.
Qed.

Lemma read_nonpositive (size : Z) (h : CryptFile) :
  size <= 0 -> read AES_block (Some size) h = (Ok [], h).
Proof.
  intros Hs.
  unfold read, bind, gets. rewrite _read_nonpositive by assumption.
  unfold modify, ret, set_offset. destruct h as [f m k n cur].
  cbn [fp mode key nonce offset len length Z.of_nat].
  now rewrite Z.add_0_r.
Qed.

Lemma nil_of_len (s : bytes) : len s = 0 -> s = [].
Proof. destruct s; [reflexivity|]. unfold len. simpl length. lia. Qed.

Lemma opened_inv (f : pyfile) (m : string) (k : option bytes) (n cur : Z) :
  opened (mk_CryptFile f m k n cur) = true ->
  f_closed f = false /\ (exists k0, k = Some k0 /\ length k0 = 32%nat)
  /\ 0 <= cur.
Proof.
  unfold opened. cbn [fp key offset]. intros H.
  apply andb_prop in H as [H H3]. apply andb_prop in H as [H1 H2].
  apply negb_true_iff in H1. apply Z.leb_le in H3.
  destruct k as [k0|]; [|discriminate]. cbn [key_ok] in H2.
  apply Nat.eqb_eq in H2. eauto.
Qed.

(** Filling the hole before the end of the file: the blocks of the null
    stream go where one string of zero bytes would go. *)
Lemma _write_NullStream (size off : Z) (h : CryptFile) :
  f_writable (fp h) = true ->
  _write AES_block (NullStream size) off h =
  _write AES_block (Buffer (zeros size)) off h.
Proof.
  intros Hw. unfold NullStream.
  rewrite _write_Stream_concat by exact Hw.
  now rewrite NullStream_iter_concat.
Qed.

Lemma write_Buffer_spec (s d : bytes) (p : Z) (m : string) (k : bytes)
    (n cur : Z) :
  length k = 32%nat -> 0 <= cur ->
  let fill := fst (crypt AES_block (cryptor_at k n (len d - 16))
                     (zeros (cur + 16 - len d))) in
  write AES_block (Buffer s)
    (mk_CryptFile (mk_pyfile d p false true) m (Some k) n cur) =
  (Ok tt,
   mk_CryptFile
     (mk_pyfile
        (written (Z.to_nat (16 + cur))
           (fst (crypt AES_block (cryptor_at k n cur) s)) (d ++ fill))
        (16 + cur + len s) false true) m (Some k) n (cur + len s)).
Proof.
  intros Hk Hc fill. unfold write.
  rewrite (bind_ok _ _ _ (s' := mk_CryptFile (mk_pyfile d (len d) false true)
                                  m (Some k) n cur) (a := tt)).
  2:{ unfold on_fp, file_seek. cbn [fp f_closed f_pos f_data Z.eqb Pos.eqb].
      rewrite Z.add_0_r.
      replace (len d <? 0) with false
        by (symmetry; apply Z.ltb_ge; apply len_nonneg).
      reflexivity. }
  rewrite (bind_ok _ _ _ (s' := mk_CryptFile (mk_pyfile d (len d) false true)
                                  m (Some k) n cur) (a := len d))
    by reflexivity.
  rewrite (bind_ok _ _ _ (s' := mk_CryptFile (mk_pyfile d (len d) false true)
                                  m (Some k) n cur) (a := cur))
    by reflexivity.
  unfold HEADER_SIZE.
  rewrite (bind_ok _ _ _
             (s' := mk_CryptFile
                      (mk_pyfile (d ++ fill)
                         (Z.max (len d) (cur + 16)) false true)
                      m (Some k) n cur) (a := tt)).
  2:{ destruct (len d <? cur + 16) eqn:E.
      - apply Z.ltb_lt in E.
        rewrite _write_NullStream by reflexivity.
        rewrite _write_Buffer_spec by (trivial; pose proof (len_nonneg d); lia).
        replace (Z.to_nat (16 + (len d - 16))) with (length d)
          by (unfold len; lia).
        fold fill. rewrite written_at_end, len_zeros.
        f_equal. f_equal. f_equal. lia.
      - apply Z.ltb_ge in E. unfold ret. f_equal. f_equal. f_equal.
        + unfold fill. rewrite zeros_nonpositive by lia.
          rewrite crypt_nil. cbn [fst]. now rewrite app_nil_r.
        + lia. }
  rewrite (bind_ok _ _ _
             (s' := mk_CryptFile
                      (mk_pyfile (d ++ fill)
                         (Z.max (len d) (cur + 16)) false true)
                      m (Some k) n cur) (a := cur))
    by reflexivity.
  erewrite bind_ok by (apply _write_Buffer_spec; trivial; lia).
  unfold bind, py_len, ret, gets, modify, set_offset.
  cbn [fp mode key nonce offset]. reflexivity.
Qed.

Lemma truncate_spec (size : Z) (d : bytes) (p : Z) (m : string) (k : bytes)
    (n cur : Z) :
  length k = 32%nat -> 0 <= size + 16 ->
  let d' := if len d <? size + 16
            then d ++ fst (crypt AES_block (cryptor_at k n (len d - 16))
                             (zeros (size + 16 - len d)))
            else firstn (Z.to_nat (size + 16)) d in
  exists p' : Z,
    truncate AES_block size
      (mk_CryptFile (mk_pyfile d p false true) m (Some k) n cur) =
    (Ok tt, mk_CryptFile (mk_pyfile d' p' false true) m (Some k) n cur).
Proof.
  intros Hk Hs d'. unfold truncate.
  erewrite bind_ok by apply _get_file_size_spec.
  unfold HEADER_SIZE.
  rewrite (bind_ok _ _ _
             (s' := mk_CryptFile
                      (mk_pyfile
                         (firstn (Z.to_nat (size + 16)) d
                            ++ repeat x00 (Z.to_nat (size + 16) - length d))
                         (len d) false true) m (Some k) n cur) (a := tt)).
  2:{ unfold on_fp, file_truncate. cbn [fp f_closed f_writable negb f_data].
      replace (size + 16 <? 0) with false by (symmetry; apply Z.ltb_ge; lia).
      reflexivity. }
  subst d'. destruct (len d <? size + 16) eqn:E.
  - apply Z.ltb_lt in E. eexists.
    rewrite _write_NullStream by reflexivity.
    rewrite _write_Buffer_spec by (trivial; pose proof (len_nonneg d); lia).
    rewrite firstn_all2 by (unfold len in E; lia).
    replace (Z.to_nat (16 + (len d - 16))) with (length d)
      by (unfold len; lia).
    rewrite written_over_tail; [reflexivity|].
    rewrite crypt_length, repeat_length. unfold zeros.
    rewrite repeat_length. unfold len. lia.
  - apply Z.ltb_ge in E. eexists. unfold ret.
    replace (Z.to_nat (size + 16) - length d)%nat with 0%nat
      by (unfold len in E; lia).
    cbn [repeat]. now rewrite app_nil_r.
Qed.

(** What was encrypted in two pieces, one after the other, decrypts in one
    go. *)
Lemma crypt_two_pieces (k : bytes) (n o : Z) (a b : bytes) :
  fst (crypt AES_block (cryptor_at k n o)
         (fst (crypt AES_block (cryptor_at k n o) a)
            ++ fst (crypt AES_block (cryptor_at k n (o + len a)) b))) =
  a ++ b.
Proof.
  rewrite crypt_app. cbn [fst].
  rewrite crypt_involutive, crypt_at, crypt_len, crypt_involutive.
  reflexivity.
Qed.

Lemma firstn_skipn_tail (d x : bytes) (size : Z) :
  size = len x ->
  firstn (Z.to_nat size) (skipn (length d) (d ++ x)) = x.
Proof.
  intros ->. rewrite skipn_app, skipn_all, Nat.sub_diag. cbn [skipn app].
  unfold len. rewrite Nat2Z.id. apply firstn_all.
Qed.

Lemma seek_start (o : Z) (h : CryptFile) :
  0 <= o -> seek o 0 h = (Ok tt, set_offset o h).
Proof.
  intros Ho. unfold seek, bind, ret, modify. cbn [Z.eqb].
  now replace (o <? 0) with false by (symmetry; apply Z.ltb_ge; lia).
Qed.

(** Reading the end of the file back: the plaintext [pt] whose ciphertext was
    put after the first [len d] bytes, with the cursor where it starts. *)
Lemma read_tail (d pt : bytes) (p : Z) (w : bool) (m : string) (k : bytes)
    (n : Z) :
  length k = 32%nat -> 16 <= len d ->
  fst (read AES_block (Some (len pt))
         (mk_CryptFile
            (mk_pyfile
               (d ++ fst (crypt AES_block (cryptor_at k n (len d - 16)) pt))
               p false w) m (Some k) n (len d - 16))) = Ok pt.
Proof.
  intros Hk Hd. destruct pt as [|x pt].
  - now rewrite read_nonpositive by (unfold len; simpl; lia).
  - rewrite read_positive by (trivial; unfold len in *; simpl length; lia).
    cbn [fst]. f_equal.
    replace (Z.to_nat (16 + (len d - 16))) with (length d)
      by (unfold len; lia).
    rewrite firstn_skipn_tail by now rewrite crypt_len.
    apply crypt_involutive.
Qed.

(** A write with the cursor past the end of the data, on an open handle. *)
Lemma write_past_end (s d : bytes) (p : Z) (m : string) (k : bytes)
    (n cur : Z) :
  length k = 32%nat -> 16 <= len d -> len d - 16 < cur ->
  let plen := len d - 16 in
  let fill := fst (crypt AES_block (cryptor_at k n plen)
                     (zeros (cur - plen))) in
  let ct := fst (crypt AES_block (cryptor_at k n cur) s) in
  let h' := mk_CryptFile (mk_pyfile (d ++ fill ++ ct) (16 + cur + len s)
                            false true) m (Some k) n (cur + len s) in
  write AES_block (Buffer s)
    (mk_CryptFile (mk_pyfile d p false true) m (Some k) n cur) = (Ok tt, h')
  /\ fst ((seek plen 0 ;; read AES_block (Some (cur - plen + len s))) h')
     = Ok (zeros (cur - plen) ++ s).
Proof.
  intros Hk Hd Hc plen fill ct h'. split.
  - rewrite write_Buffer_spec by (trivial; lia).
    replace (cur + 16 - len d) with (cur - plen) by (unfold plen; lia).
    fold plen. fold fill. fold ct.
    replace (Z.to_nat (16 + cur)) with (length (d ++ fill)).
    + rewrite written_at_end, <- app_assoc. reflexivity.
    + rewrite length_app. unfold fill.
      rewrite crypt_length. unfold zeros. rewrite repeat_length.
      unfold plen, len in *. lia.
  - erewrite bind_ok by (apply seek_start; unfold plen; lia).
    unfold h', set_offset. cbn [fp mode key nonce offset].
    assert (Hz : len (zeros (cur - plen)) = cur - plen)
      by (rewrite len_zeros; unfold plen; lia).
    replace (cur - plen + len s) with (len (zeros (cur - plen) ++ s))
      by (rewrite len_app, Hz; reflexivity).
    replace (fill ++ ct)
      with (fst (crypt AES_block (cryptor_at k n plen)
                   (zeros (cur - plen) ++ s))).
    + unfold plen. now apply read_tail.
    + rewrite crypt_app. cbn [fst]. rewrite crypt_at, Hz.
      replace (plen + (cur - plen)) with cur by lia. reflexivity.
Qed.

(** [truncate] to more than the plaintext length, on an open handle. *)
Lemma truncate_grow (size : Z) (d : bytes) (p : Z) (m : string) (k : bytes)
    (n cur : Z) :
  length k = 32%nat -> 16 <= len d -> len d - 16 < size ->
  let plen := len d - 16 in
  let fill := fst (crypt AES_block (cryptor_at k n plen)
                     (zeros (size - plen))) in
  exists p' : Z,
    let h' := mk_CryptFile (mk_pyfile (d ++ fill) p' false true) m (Some k)
                n cur in
    truncate AES_block size
      (mk_CryptFile (mk_pyfile d p false true) m (Some k) n cur) = (Ok tt, h')
    /\ fst ((seek plen 0 ;; read AES_block (Some (size - plen))) h')
       = Ok (zeros (size - plen)).
Proof.
  intros Hk Hd Hs plen fill.
  destruct (@truncate_spec size d p m k n cur Hk ltac:(lia)) as [p' Ht].
  exists p'. cbv zeta. split.
  - rewrite Ht. f_equal. f_equal. f_equal.
    replace (len d <? size + 16) with true
      by (symmetry; apply Z.ltb_lt; lia).
    unfold fill, plen. f_equal. f_equal. f_equal. f_equal. lia.
  - erewrite bind_ok by (apply seek_start; unfold plen; lia).
    unfold set_offset. cbn [fp mode key nonce offset].
    assert (Hz : len (zeros (size - plen)) = size - plen)
      by (rewrite len_zeros; unfold plen; lia).
    rewrite <- Hz at 1. unfold fill, plen. now apply read_tail.
Qed.

(** *** What the methods do to the length of the file *)

Lemma Preserves_ret {A : Type} (I : CryptFile -> Prop) (a : A) :
  Preserves I (ret a).
Proof. intros h H. exact H. Qed.

Lemma Preserves_raise {A : Type} (I : CryptFile -> Prop) (e : exn) :
  Preserves I (raise (A := A) e).
Proof. intros h H. exact H. Qed.

Lemma Preserves_lift {A : Type} (I : CryptFile -> Prop) (r : Res A) :
  Preserves I (lift r).
Proof. intros h H. exact H. Qed.

Lemma Preserves_gets {A : Type} (I : CryptFile -> Prop) (f : CryptFile -> A) :
  Preserves I (gets f).
Proof. intros h H. exact H. Qed.

Lemma Preserves_bind {A B : Type} (I : CryptFile -> Prop)
    (m : M CryptFile A) (k : A -> M CryptFile B) :
  Preserves I m -> (forall a, Preserves I (k a)) -> Preserves I (bind m k).
Proof.
  intros Hm Hk h H. unfold bind. specialize (Hm h H).
  destruct (m h) as [[a|e] h1]; cbn [snd] in *; [now apply Hk|exact Hm].
Qed.

Lemma Preserves_set_offset (n o : Z) :
  Preserves (at_least n) (modify (set_offset o)).
Proof. intros h H. exact H. Qed.

Lemma Preserves_set_key (n : Z) (k : option bytes) :
  Preserves (at_least n) (modify (set_key k)).
Proof. intros h H. exact H. Qed.

Lemma Preserves_on_fp {A : Type} (n : Z) (m : M pyfile A) :
  (forall f, n <= len (f_data f) -> n <= len (f_data (snd (m f)))) ->
  Preserves (at_least n) (on_fp m).
Proof.
  intros Hm h H. unfold on_fp, at_least in *. specialize (Hm (fp h) H).
  destruct (m (fp h)) as [r f]. exact Hm.
Qed.

Lemma file_seek_data (pos whence : Z) (f : pyfile) :
  f_data (snd (file_seek pos whence f)) = f_data f.
Proof.
  unfold file_seek. destruct (f_closed f); [reflexivity|].
  destruct (whence =? 0); [|destruct (whence =? 1); [|destruct (whence =? 2)]];
    try reflexivity; destruct (_ <? 0); reflexivity.
Qed.

Lemma file_tell_data (f : pyfile) : f_data (snd (file_tell f)) = f_data f.
Proof. unfold file_tell. destruct (f_closed f); reflexivity. Qed.

Lemma file_read_data (size : Z) (f : pyfile) :
  f_data (snd (file_read size f)) = f_data f.
Proof. unfold file_read. destruct (f_closed f); reflexivity. Qed.

Lemma file_write_grows (s : bytes) (f : pyfile) :
  len (f_data f) <= len (f_data (snd (file_write s f))).
Proof.
  unfold file_write. destruct (f_closed f); [cbn [snd]; lia|].
  destruct (f_writable f); cbn [negb snd]; [|lia].
  destruct s; cbn [snd f_data]; [lia|].
  unfold len. rewrite overwrite_length. lia.
Qed.

Lemma Preserves_file_seek (n pos whence : Z) :
  Preserves (at_least n) (on_fp (file_seek pos whence)).
Proof. apply Preserves_on_fp. intros f. now rewrite file_seek_data. Qed.

Lemma Preserves_file_tell (n : Z) : Preserves (at_least n) (on_fp file_tell).
Proof. apply Preserves_on_fp. intros f. now rewrite file_tell_data. Qed.

Lemma Preserves_file_read (n size : Z) :
  Preserves (at_least n) (on_fp (file_read size)).
Proof. apply Preserves_on_fp. intros f. now rewrite file_read_data. Qed.

Lemma Preserves_file_write (n : Z) (s : bytes) :
  Preserves (at_least n) (on_fp (file_write s)).
Proof.
  apply Preserves_on_fp. intros f H. pose proof (file_write_grows s f). lia.
Qed.

Lemma Preserves_file_close (n : Z) : Preserves (at_least n) (on_fp file_close).
Proof. apply Preserves_on_fp. intros f H. exact H. Qed.

Create HintDb preserves.

#[local] Hint Resolve Preserves_ret Preserves_raise Preserves_lift
  Preserves_gets Preserves_set_offset Preserves_set_key Preserves_file_seek
  Preserves_file_tell Preserves_file_read Preserves_file_write
  Preserves_file_close : preserves.

Ltac preserves :=
  repeat first
    [ progress auto with preserves
    | apply Preserves_bind; [|intros ?]
    | match goal with
      | |- Preserves _ (if ?b then _ else _) => destruct b
      | |- Preserves _ (match ?x with _ => _ end) => destruct x
      end ].

Lemma Preserves__get_file_size (n : Z) : Preserves (at_least n) _get_file_size.
Proof. unfold _get_file_size. preserves. Qed.

Lemma Preserves_seek (n o w : Z) : Preserves (at_least n) (seek o w).
Proof.
  pose proof (@Preserves__get_file_size n). unfold seek. preserves.
Qed.

Lemma Preserves_tell (n : Z) : Preserves (at_least n) tell.
Proof. unfold tell. preserves. Qed.

Lemma Preserves__get_AES_at (n o : Z) (e : bool) :
  Preserves (at_least n) (_get_AES_at AES_block o e).
Proof. intros h H. now rewrite _get_AES_at_state. Qed.

Lemma Preserves__read (n : Z) (size : option Z) (o : Z) :
  Preserves (at_least n) (_read AES_block size o).
Proof.
  pose proof (@Preserves__get_file_size n).
  pose proof (fun o e => @Preserves__get_AES_at n o e).
  unfold _read. preserves.
Qed.

Lemma Preserves_read (n : Z) (size : option Z) :
  Preserves (at_least n) (read AES_block size).
Proof.
  pose proof (fun o => @Preserves__read n size o). unfold read. preserves.
Qed.

Lemma Preserves_write_blocks (n : Z) (blocks : list bytes) :
  forall c, Preserves (at_least n) (write_blocks AES_block c blocks).
Proof.
  induction blocks as [|b r IH]; intros c; cbn [write_blocks].
  - preserves.
  - destruct (encrypt AES_block c b) as [ct c1]. preserves.
Qed.

Lemma Preserves__write (n : Z) (data : wdata) (o : Z) :
  Preserves (at_least n) (_write AES_block data o).
Proof.
  pose proof (fun o e => @Preserves__get_AES_at n o e).
  pose proof (fun b c => @Preserves_write_blocks n b c).
  unfold _write. preserves.
Qed.

Lemma Preserves_write (n : Z) (data : wdata) :
  Preserves (at_least n) (write AES_block data).
Proof.
  pose proof (fun d o => @Preserves__write n d o).
  unfold write, py_len. preserves.
Qed.

Lemma Preserves_close (n : Z) : Preserves (at_least n) close.
Proof. unfold close. preserves. Qed.

Lemma file_truncate_header (size : Z) (f : pyfile) :
  0 <= size \/ size < -16 -> 16 <= len (f_data f) ->
  16 <= len (f_data (snd (file_truncate (size + 16) f))).
Proof.
  intros Hs Hf. unfold file_truncate.
  destruct (f_closed f); [exact Hf|].
  destruct (f_writable f); cbn [negb]; [|exact Hf].
  destruct (size + 16 <? 0) eqn:E; [exact Hf|].
  apply Z.ltb_ge in E. cbn [snd set_data f_data]. unfold len in *.
  rewrite length_app, length_firstn, repeat_length. lia.
Qed.

Lemma Preserves_truncate (size : Z) :
  0 <= size \/ size < -16 ->
  Preserves header_intact (truncate AES_block size).
Proof.
  intros Hs. pose proof (@Preserves__get_file_size 16).
  pose proof (fun d o => @Preserves__write 16 d o).
  assert (Preserves (at_least 16)
            (on_fp (file_truncate (size + HEADER_SIZE)))).
  { apply Preserves_on_fp. intros f. now apply file_truncate_header. }
  unfold header_intact, truncate. preserves.
Qed.

(** The header stays in place under every call but a [truncate] to a size
    from -16 to -1. *)
Lemma header_intact_after_calls (cs : list call) : forall h : CryptFile,
  forallb keeps_header cs = true -> header_intact h ->
  header_intact (after_calls AES_block cs h).
Proof.
  induction cs as [|c cs IH]; intros h Hcs Hh; [exact Hh|].
  cbn [forallb] in Hcs. apply andb_prop in Hcs as [Hc Hcs].
  unfold after_calls. cbn [fold_left]. apply IH; [exact Hcs|].
  destruct c as [o w| |size|data|size]; cbn [after_call].
  - now apply Preserves_seek.
  - now apply Preserves_tell.
  - now apply Preserves_read.
  - now apply Preserves_write.
  - apply Preserves_truncate; [|exact Hh].
    cbn [keeps_header] in Hc. apply orb_prop in Hc as [Hc|Hc];
      [left; now apply Z.leb_le|right; now apply Z.ltb_lt].
Qed.

(** *** What [CryptFile.__init__] returns, and what stays true of it *)

Lemma CryptFile_init_Ok (disk : option bytes) (rnd k : bytes) (m : string)
    (h : CryptFile) :
  CryptFile_init disk rnd k m = Ok h -> is_opened h /\ header_intact h.
Proof.
  unfold CryptFile_init. intros H.
  destruct (length k =? 32)%nat eqn:Ek; cbn [negb] in H; [|discriminate].
  assert (Hex : forall d w,
            match _unpack_uint128 (firstn 16 d) with
            | Ok n => Ok (mk_CryptFile (mk_pyfile d (len (firstn 16 d))
                                          false w) m (Some k) n 0)
            | Raise e => Raise e
            end = Ok h -> is_opened h /\ header_intact h).
  { intros d w Hd.
    destruct (_unpack_uint128 _) as [n|e] eqn:En; [|discriminate].
    apply _unpack_uint128_Ok in En. injection Hd as <-.
    unfold is_opened, opened, header_intact, at_least, len.
    cbn [fp f_closed f_data key offset key_ok negb]. rewrite Ek.
    rewrite length_firstn in En.
    split; [reflexivity|lia]. }
  destruct (String.eqb m "rb") eqn:E1;
    [apply String.eqb_eq in E1|
     destruct (String.eqb m "r+b") eqn:E2;
       [apply String.eqb_eq in E2|
        destruct (String.eqb m "w+b") eqn:E3;
          [apply String.eqb_eq in E3|discriminate]]].
  - destruct disk as [d|]; [|subst m; discriminate].
    apply (Hex d false). rewrite <- H. subst m. reflexivity.
  - destruct disk as [d|]; [|subst m; discriminate].
    apply (Hex d true). rewrite <- H. subst m. reflexivity.
  - clear Hex. subst m.
    change (open disk "w+b") with (Ok (mk_pyfile [] 0 false true)) in H.
    change (py_in "w+b" "w+b") with true in H. cbv iota in H.
    cbn [negb orb] in H.
    unfold bind, file_write, ret in H.
    cbn [f_closed f_writable negb f_pos f_data] in H.
    destruct rnd as [|x rnd]; [discriminate|].
    destruct (_unpack_uint128 _) as [n|e] eqn:En; [|discriminate].
    apply _unpack_uint128_Ok in En. injection H as <-.
    unfold is_opened, opened, header_intact, at_least, len.
    cbn [fp f_closed f_data key offset key_ok negb]. rewrite Ek.
    rewrite overwrite_length. split; [reflexivity|lia].
Qed.

Lemma is_opened_set_fp (f : pyfile) (h : CryptFile) :
  f_closed f = f_closed (fp h) -> is_opened h -> is_opened (set_fp f h).
Proof.
  unfold is_opened, opened. cbn [set_fp fp key offset]. now intros ->.
Qed.

Lemma is_opened_set_offset (o : Z) (h : CryptFile) :
  0 <= o -> is_opened h -> is_opened (set_offset o h).
Proof.
  unfold is_opened, opened. cbn [set_offset fp key offset]. intros Ho H.
  apply andb_prop in H as [H _]. rewrite H.
  now apply Z.leb_le.
Qed.

Lemma is_opened_offset (h : CryptFile) : is_opened h -> 0 <= offset h.
Proof.
  unfold is_opened, opened. intros H. apply andb_prop in H as [_ H].
  now apply Z.leb_le.
Qed.

Lemma is_opened_on_fp {A : Type} (m : M pyfile A) :
  (forall f, f_closed (snd (m f)) = f_closed f) ->
  Preserves is_opened (on_fp m).
Proof.
  intros Hm h H. unfold on_fp. specialize (Hm (fp h)).
  destruct (m (fp h)) as [r f]. cbn [snd] in *. now apply is_opened_set_fp.
Qed.

Lemma is_opened_file_seek (pos whence : Z) :
  Preserves is_opened (on_fp (file_seek pos whence)).
Proof.
  apply is_opened_on_fp. intros f. unfold file_seek.
  destruct (f_closed f) eqn:E; [exact E|].
  destruct (whence =? 0); [|destruct (whence =? 1); [|destruct (whence =? 2)]];
    try exact E; destruct (_ <? 0); first [exact E | reflexivity].
Qed.

Lemma is_opened_file_tell : Preserves is_opened (on_fp file_tell).
Proof.
  apply is_opened_on_fp. intros f. unfold file_tell.
  destruct (f_closed f) eqn:E; exact E.
Qed.

Lemma is_opened_file_read (size : Z) :
  Preserves is_opened (on_fp (file_read size)).
Proof.
  apply is_opened_on_fp. intros f. unfold file_read.
  destruct (f_closed f) eqn:E; first [exact E | reflexivity].
Qed.

Lemma is_opened_file_write (s : bytes) :
  Preserves is_opened (on_fp (file_write s)).
Proof.
  apply is_opened_on_fp. intros f. unfold file_write.
  destruct (f_closed f) eqn:E; [exact E|].
  destruct (f_writable f); cbn [negb]; [|exact E].
  destruct s; first [exact E | reflexivity].
Qed.

Lemma is_opened_file_truncate (size : Z) :
  Preserves is_opened (on_fp (file_truncate size)).
Proof.
  apply is_opened_on_fp. intros f. unfold file_truncate.
  destruct (f_closed f) eqn:E; [exact E|].
  destruct (f_writable f); cbn [negb]; [|exact E].
  destruct (size <? 0); first [exact E | reflexivity].
Qed.

#[local] Hint Resolve is_opened_file_seek is_opened_file_tell
  is_opened_file_read is_opened_file_write is_opened_file_truncate
  : preserves.

(** The cursor is read and set again, moved forward by [n]. *)
Lemma is_opened_advance (n : Z) :
  0 <= n ->
  Preserves is_opened (cur <- gets offset ;; modify (set_offset (cur + n))).
Proof.
  intros Hn h H. unfold bind, gets, modify. cbn [snd].
  apply is_opened_set_offset; [|exact H].
  apply is_opened_offset in H. lia.
Qed.

Lemma is_opened__get_file_size : Preserves is_opened _get_file_size.
Proof. unfold _get_file_size. preserves. Qed.

Lemma is_opened_seek (o w : Z) : Preserves is_opened (seek o w).
Proof.
  pose proof is_opened__get_file_size as Hp1. unfold seek.
  apply Preserves_bind; [preserves|].
  intros t. destruct (t <? 0) eqn:E; [preserves|].
  apply Z.ltb_ge in E. intros h H. now apply is_opened_set_offset.
Qed.

Lemma is_opened__get_AES_at (o : Z) (e : bool) :
  Preserves is_opened (_get_AES_at AES_block o e).
Proof. intros h H. now rewrite _get_AES_at_state. Qed.

Lemma is_opened__read (size : option Z) (o : Z) :
  Preserves is_opened (_read AES_block size o).
Proof.
  pose proof is_opened__get_file_size as Hp2.
  pose proof is_opened__get_AES_at as Hp3.
  unfold _read. preserves.
Qed.

Lemma is_opened_read (size : option Z) :
  Preserves is_opened (read AES_block size).
Proof.
  pose proof (is_opened__read size) as Hp4. unfold read.
  apply Preserves_bind; [preserves|]. intros cur.
  apply Preserves_bind; [preserves|]. intros data.
  intros h H.
  pose proof (@is_opened_advance (len data) (len_nonneg data) h H) as Ha.
  unfold bind, gets, modify, ret in *. exact Ha.
Qed.

Lemma is_opened_write_blocks (blocks : list bytes) :
  forall c, Preserves is_opened (write_blocks AES_block c blocks).
Proof.
  induction blocks as [|b r IH]; intros c; cbn [write_blocks].
  - preserves.
  - destruct (encrypt AES_block c b) as [ct c1]. preserves.
Qed.

Lemma is_opened__write (data : wdata) (o : Z) :
  Preserves is_opened (_write AES_block data o).
Proof.
  pose proof is_opened__get_AES_at as Hp5.
  pose proof is_opened_write_blocks as Hp6.
  unfold _write. preserves.
Qed.

Lemma is_opened_write (data : wdata) :
  Preserves is_opened (write AES_block data).
Proof.
  pose proof is_opened__write as Hp7. unfold write.
  do 6 (apply Preserves_bind; [preserves|]; intros ?).
  destruct data as [s|blocks]; unfold py_len.
  - intros h H.
    pose proof (@is_opened_advance (len s) (len_nonneg s) h H) as Ha.
    unfold bind, gets, modify, ret in *. exact Ha.
  - intros h H. exact H.
Qed.

Lemma is_opened_truncate (size : Z) :
  Preserves is_opened (truncate AES_block size).
Proof.
  pose proof is_opened__get_file_size as Hp8. pose proof is_opened__write as Hp9.
  unfold truncate. preserves.
Qed.

(** A handle stays open, with its key and a cursor that is not negative,
    under every call. *)
Lemma is_opened_after_calls (cs : list call) : forall h : CryptFile,
  is_opened h -> is_opened (after_calls AES_block cs h).
Proof.
  induction cs as [|c cs IH]; intros h Hh; [exact Hh|].
  unfold after_calls. cbn [fold_left]. apply IH.
  destruct c as [o w| |size|data|size]; cbn [after_call].
  - now apply is_opened_seek.
  - exact Hh.
  - now apply is_opened_read.
  - now apply is_opened_write.
  - now apply is_opened_truncate.
Qed.

(** No method assigns the nonce. *)
Lemma has_nonce_on_fp {A : Type} (n : Z) (m : M pyfile A) :
  Preserves (has_nonce n) (on_fp m).
Proof.
  intros h H. unfold on_fp. destruct (m (fp h)) as [r f]. exact H.
Qed.

Lemma has_nonce_set_offset (n o : Z) :
  Preserves (has_nonce n) (modify (set_offset o)).
Proof. intros h H. exact H. Qed.

#[local] Hint Resolve has_nonce_on_fp has_nonce_set_offset : preserves.

Lemma has_nonce_seek (n o w : Z) : Preserves (has_nonce n) (seek o w).
Proof. unfold seek, _get_file_size. preserves. Qed.

Lemma has_nonce__get_AES_at (n o : Z) (e : bool) :
  Preserves (has_nonce n) (_get_AES_at AES_block o e).
Proof. intros h H. now rewrite _get_AES_at_state. Qed.

Lemma has_nonce_read (n : Z) (size : option Z) :
  Preserves (has_nonce n) (read AES_block size).
Proof.
  pose proof (@has_nonce__get_AES_at n) as Hp.
  unfold read, _read, _get_file_size. preserves.
Qed.

Lemma has_nonce_write_blocks (n : Z) (blocks : list bytes) :
  forall c, Preserves (has_nonce n) (write_blocks AES_block c blocks).
Proof.
  induction blocks as [|b r IH]; intros c; cbn [write_blocks].
  - preserves.
  - destruct (encrypt AES_block c b) as [ct c1]. preserves.
Qed.

Lemma has_nonce__write (n : Z) (data : wdata) (o : Z) :
  Preserves (has_nonce n) (_write AES_block data o).
Proof.
  pose proof (@has_nonce__get_AES_at n) as Hp1.
  pose proof (@has_nonce_write_blocks n) as Hp2.
  unfold _write. preserves.
Qed.

Lemma has_nonce_write (n : Z) (data : wdata) :
  Preserves (has_nonce n) (write AES_block data).
Proof.
  pose proof (@has_nonce__write n) as Hp. unfold write, py_len. preserves.
Qed.

Lemma has_nonce_truncate (n size : Z) :
  Preserves (has_nonce n) (truncate AES_block size).
Proof.
  pose proof (@has_nonce__write n) as Hp.
  unfold truncate, _get_file_size. preserves.
Qed.

Lemma has_nonce_after_calls (cs : list call) : forall h : CryptFile,
  nonce (after_calls AES_block cs h) = nonce h.
Proof.
  induction cs as [|c cs IH]; intros h; [reflexivity|].
  unfold after_calls. cbn [fold_left].
  fold (after_calls AES_block cs (after_call AES_block c h)). rewrite IH.
  destruct c as [o w| |size|data|size]; cbn [after_call].
  - now apply has_nonce_seek.
  - reflexivity.
  - now apply has_nonce_read.
  - now apply has_nonce_write.
  - now apply has_nonce_truncate.
Qed.

Lemma CryptFile_init_nonce (disk : option bytes) (rnd k : bytes) (m : string)
    (h : CryptFile) :
  CryptFile_init disk rnd k m = Ok h -> 0 <= nonce h < 2 ^ 128.
Proof.
  unfold CryptFile_init.
  destruct (negb (length k =? 32)%nat); [discriminate|].
  destruct (negb _); [discriminate|].
  destruct (open disk m) as [f0|e]; [|discriminate].
  match goal with
  | |- context [let (r, f1) := ?m f0 in _] =>
      destruct (m f0) as [[s|e] f1]; [|discriminate]
  end.
  destruct (_unpack_uint128 s) as [n|e] eqn:En; [|discriminate].
  intros H. injection H as <-. cbn [nonce].
  now apply _unpack_uint128_range in En.
Qed.

(** The container of the data model, for every handle [CryptFile.__init__]
    returns and after every sequence of calls without a [truncate] to a size
    from -16 to -1: the handle is open, its nonce is the 128-bit number it
    was created or opened with, and the file has its 16 bytes of header. *)
Lemma reachable_handle (disk : option bytes) (rnd k : bytes) (m : string)
    (h : CryptFile) (cs : list call) :
  CryptFile_init disk rnd k m = Ok h -> forallb keeps_header cs = true ->
  let h' := after_calls AES_block cs h in
  is_opened h' /\
  nonce h' = nonce h /\ 0 <= nonce h' < 2 ^ 128 /\
  16 <= len (f_data (fp h')) /\
  plaintext_length h' = len (f_data (fp h')) - 16.
Proof.
  intros Hi Hcs h'. pose proof (CryptFile_init_nonce _ _ _ _ Hi) as Hn.
  apply CryptFile_init_Ok in Hi as [Ho Hh].
  split; [now apply is_opened_after_calls|].
  split; [apply has_nonce_after_calls|].
  split; [unfold h'; now rewrite has_nonce_after_calls|].
  split; [now apply header_intact_after_calls|reflexivity].
Qed.

(** *** The claims *)

(** C2. Every encryption or decryption at plaintext offset [o] of a container
    with nonce [a] goes through [_get_AES_at]: it returns, without an error,
    a cipher object whose counter starts at (a + floor(o / 16)) mod 2^128,
    a value of 128 bits whatever [a] and [o] are (so also for a nonce
    next to 2^128 - 1), and whose first [o mod 16] keystream bytes are used
    up on zero bytes; byte [i] of the data processed next is xor-ed with the
    keystream byte of position [o + i]. *)
Theorem get_AES_at_counter (h : CryptFile) (k : bytes) (o : Z) (e : bool) :
  key h = Some k -> length k = 32%nat ->
  let a := nonce h in
  let v := (a + o / 16) mod 2 ^ 128 in
  let c0 := mk_cryptor k v 0 in
  let c1 := snd (crypt AES_block c0 (zeros (o mod 16))) in
  _wrapsum_uint128 a (o / AES_block_size) = v /\
  0 <= v < 2 ^ 128 /\
  AES_new (key h) v = Ok c0 /\
  len (zeros (o mod 16)) = o mod 16 /\
  _get_AES_at AES_block o e h = (Ok c1, h) /\
  c1 = mk_cryptor k v (o mod 16) /\
  forall (s : bytes) (i : nat), (i < length s)%nat ->
    nth i (fst (crypt AES_block c1 s)) x00 =
    byte_xor (nth i s x00)
      (nth (Z.to_nat ((o + Z.of_nat i) mod 16))
         (AES_block k ((a + (o + Z.of_nat i) / 16) mod 2 ^ 128)) x00).
Proof.
  intros Hk Hl a v c0 c1.
  assert (Hc1 : c1 = cryptor_at k a o) by apply skip_to_offset.
  repeat split.
  - apply Z.mod_pos_bound. reflexivity.
  - apply Z.mod_pos_bound. reflexivity.
  - unfold AES_new. rewrite Hk, Hl. reflexivity.
  - rewrite len_zeros.
    pose proof (Z.mod_pos_bound o 16 ltac:(lia)). lia.
  - rewrite Hc1. now apply _get_AES_at_ok.
  - exact Hc1.
  - intros s i Hi. rewrite Hc1. now apply crypt_nth.
Qed.

(** C10. [read(size)] with an explicit size that is zero or negative returns
    the empty byte string and leaves the whole handle as it was, cursor and
    file position included. No cipher object is built: the equation holds
    for every block function and for every handle, also one whose key has
    been discarded, on which building a cipher object raises. *)
Theorem read_nonpositive_size (h : CryptFile) (size : Z) :
  size <= 0 ->
  read AES_block (Some size) h = (Ok [], h) /\
  _read AES_block (Some size) (offset h) h = (Ok [], h).
Proof.
  intros Hs. split; [now apply read_nonpositive|now apply _read_nonpositive].
Qed.

(** C5. On an open handle [read] never raises. It returns the bytes of the
    plaintext from the cursor on, as many as were asked for (all of them when
    no size is given) or as are left when fewer are left: none when the
    cursor is at or past the plaintext length. The cursor moves forward by
    the number of bytes returned and the file is not changed. *)
Theorem read_clamps (h : CryptFile) (size : option Z) :
  opened h = true ->
  let avail := plaintext_length h - offset h in
  let want := match size with Some n => n | None => avail end in
  exists (data : bytes) (h' : CryptFile),
    read AES_block size h = (Ok data, h') /\
    len data = Z.max 0 (Z.min want avail) /\
    (plaintext_length h <= offset h -> data = []) /\
    offset h' = offset h + len data /\
    f_data (fp h') = f_data (fp h).
Proof.
  destruct h as [[d p c w] m k n cur]. intros Ho.
  apply opened_inv in Ho as (Hc & (k0 & -> & Hk) & Hcur).
  cbn [f_closed] in Hc. subst c.
  unfold plaintext_length. cbn [fp f_data offset].
  assert (Hpos : forall sz p0, 0 < sz ->
    exists data h',
      read AES_block (Some sz)
        (mk_CryptFile (mk_pyfile d p0 false w) m (Some k0) n cur)
      = (Ok data, h') /\
      len data = Z.max 0 (Z.min sz (len d - 16 - cur)) /\
      offset h' = cur + len data /\ f_data (fp h') = d).
  { intros sz p0 Hsz. eexists. eexists. split.
    - apply read_positive; assumption.
    - cbn [offset fp f_data]. repeat split.
      rewrite crypt_len. unfold len.
      rewrite length_firstn, length_skipn. lia. }
  assert (Hnp : forall sz p0, sz <= 0 ->
    exists data h',
      read AES_block (Some sz)
        (mk_CryptFile (mk_pyfile d p0 false w) m (Some k0) n cur)
      = (Ok data, h') /\
      len data = 0 /\
      offset h' = cur + len data /\ f_data (fp h') = d).
  { intros sz p0 Hsz. eexists. eexists. split.
    - apply read_nonpositive. exact Hsz.
    - cbn [offset fp f_data]. repeat split. unfold len. simpl. lia. }
  destruct size as [sz|].
  - destruct (Z_lt_le_dec 0 sz) as [Hsz|Hsz].
    + destruct (Hpos sz p Hsz) as (data & h' & Hr & Hl & Ho & Hd).
      exists data, h'. repeat split; trivial.
      intros Hle. apply nil_of_len. lia.
    + destruct (Hnp sz p Hsz) as (data & h' & Hr & Hl & Ho & Hd).
      exists data, h'. repeat split; trivial; [lia|].
      intros _. now apply nil_of_len.
  - rewrite read_None.
    destruct (Z_lt_le_dec 0 (len d - cur - 16)) as [Hsz|Hsz].
    + destruct (Hpos _ (len d) Hsz) as (data & h' & Hr & Hl & Ho & Hd).
      exists data, h'. repeat split; trivial; [lia|].
      intros Hle. apply nil_of_len. lia.
    + destruct (Hnp _ (len d) Hsz) as (data & h' & Hr & Hl & Ho & Hd).
      exists data, h'. repeat split; trivial; [lia|].
      intros _. now apply nil_of_len.
Qed.

(** C6. On an open handle [seek(offset, whence)] with [whence] 0, 1 or 2
    raises IOError("Invalid offset") exactly when the target (the offset
    itself, the cursor plus the offset, the plaintext length plus the offset)
    is negative, and then the cursor stays where it was. Every other target,
    however far past the end of the data, is accepted and becomes the cursor.
    Nothing else of the handle changes, but that asking for the size of the
    file ([whence] 2) leaves the position of the file object at its end. *)
Theorem seek_invalid_offset_iff (h : CryptFile) (offset0 whence : Z) :
  f_closed (fp h) = false ->
  whence = 0 \/ whence = 1 \/ whence = 2 ->
  let target := seek_target h offset0 whence in
  let h1 := if whence =? 2
            then set_fp (set_pos (len (f_data (fp h))) (fp h)) h else h in
  (fst (seek offset0 whence h) = Raise (IOError "Invalid offset")
     <-> target < 0) /\
  (target < 0 ->
     seek offset0 whence h = (Raise (IOError "Invalid offset"), h1)
     /\ offset h1 = offset h) /\
  (0 <= target ->
     seek offset0 whence h = (Ok tt, set_offset target h1)).
Proof.
  destruct h as [[d p c w] m k n cur]. cbn [fp f_closed]. intros -> Hw.
  cbv zeta.
  assert (Hs : seek offset0 whence
                 (mk_CryptFile (mk_pyfile d p false w) m k n cur) =
               let t := seek_target
                          (mk_CryptFile (mk_pyfile d p false w) m k n cur)
                          offset0 whence in
               let h1 := if whence =? 2
                         then mk_CryptFile (mk_pyfile d (len d) false w)
                                m k n cur
                         else mk_CryptFile (mk_pyfile d p false w) m k n cur
               in if t <? 0 then (Raise (IOError "Invalid offset"), h1)
                  else (Ok tt, set_offset t h1)).
  { unfold seek, seek_target, plaintext_length, HEADER_SIZE.
    cbn [fp f_data offset].
    destruct Hw as [-> | [-> | ->]]; cbn [Z.eqb Pos.eqb]; unfold bind.
    - unfold ret. destruct (offset0 <? 0); reflexivity.
    - unfold gets, ret. cbn [offset]. destruct (cur + offset0 <? 0);
        reflexivity.
    - rewrite _get_file_size_spec. unfold ret.
      destruct (len d - 16 + offset0 <? 0); reflexivity. }
  rewrite Hs. clear Hs. cbv zeta.
  set (t := seek_target _ offset0 whence).
  unfold set_fp, set_pos. cbn [fp f_data f_closed f_writable mode key nonce
                               offset].
  destruct (t <? 0) eqn:Et.
  - apply Z.ltb_lt in Et. split; [|split].
    + cbn [fst]. split; [intros _; exact Et | reflexivity].
    + intros _. split; destruct (whence =? 2); reflexivity.
    + intros Hge. lia.
  - apply Z.ltb_ge in Et. split; [|split].
    + cbn [fst]. split; [discriminate | lia].
    + intros Hlt. lia.
    + intros _. destruct (whence =? 2); reflexivity.
Qed.

(** C1. Round trip. With a 32-byte key, creating a container, writing [P]
    at offset 0, closing it, opening the file that was left behind for
    reading with the same key and reading [len(P)] bytes succeeds at every
    step and returns [P]; so does reading to the end. *)
Theorem write_close_reopen_read (disk : option bytes)
    (rnd rnd' key P : bytes) :
  length key = 32%nat -> length rnd = 16%nat ->
  exists h0 h1 h2 h3 : CryptFile,
    CryptFile_init disk rnd key "w+b" = Ok h0 /\
    write AES_block (Buffer P) h0 = (Ok tt, h1) /\
    close h1 = (Ok tt, h2) /\
    CryptFile_init (Some (f_data (fp h2))) rnd' key "rb" = Ok h3 /\
    fst (read AES_block (Some (len P)) h3) = Ok P /\
    fst (read AES_block None h3) = Ok P.
Proof.
  intros Hk Hr.
  destruct (CryptFile_init_create disk rnd key Hk Hr) as (n & Hn & Hinit).
  set (ct := fst (crypt AES_block (cryptor_at key n 0) P)).
  assert (Hlr : len rnd = 16) by (unfold len; lia).
  assert (Hw : write AES_block (Buffer P)
                 (mk_CryptFile (mk_pyfile rnd 16 false true) "w+b"
                    (Some key) n 0) =
               (Ok tt,
                mk_CryptFile (mk_pyfile (rnd ++ ct) (16 + 0 + len P)
                                false true) "w+b" (Some key) n (0 + len P))).
  { rewrite write_Buffer_spec by (trivial; lia).
    rewrite Hlr. rewrite (zeros_nonpositive (n := 0 + 16 - 16)) by lia.
    rewrite crypt_nil. cbn [fst]. rewrite app_nil_r.
    replace (Z.to_nat (16 + 0)) with (length rnd) by lia.
    now rewrite written_at_end. }
  exists (mk_CryptFile (mk_pyfile rnd 16 false true) "w+b" (Some key) n 0),
         (mk_CryptFile (mk_pyfile (rnd ++ ct) (16 + 0 + len P) false true)
            "w+b" (Some key) n (0 + len P)),
         (mk_CryptFile (mk_pyfile (rnd ++ ct) (16 + 0 + len P) true true)
            "w+b" None n (0 + len P)),
         (mk_CryptFile (mk_pyfile (rnd ++ ct) 16 false false) "rb"
            (Some key) n 0).
  split; [exact Hinit|]. split; [exact Hw|]. split; [reflexivity|].
  cbn [fp f_data]. split; [now apply CryptFile_init_rb|].
  assert (Hread : forall p0 : Z,
            fst (read AES_block (Some (len P))
                   (mk_CryptFile (mk_pyfile (rnd ++ ct) p0 false false) "rb"
                      (Some key) n 0)) = Ok P).
  { intros p0. destruct P as [|x P].
    - now rewrite read_nonpositive by (unfold len; simpl; lia).
    - rewrite read_positive by (trivial; unfold len; simpl length; lia).
      cbn [fst]. f_equal.
      replace (Z.to_nat (16 + 0)) with (length rnd) by lia.
      rewrite firstn_skipn_tail by (unfold ct; now rewrite crypt_len).
      apply crypt_involutive. }
  split; [apply Hread|].
  rewrite read_None.
  replace (len (rnd ++ ct) - 0 - 16) with (len P)
    by (rewrite len_app; unfold ct; rewrite crypt_len; lia).
  apply Hread.
Qed.

(** C3. Hole fill. On a container that was just created, [seek(100)], a
    write of "XXXXX" and a read of 105 bytes from offset 0 give 100 zero bytes
    and then "XXXXX". In general, on an open handle for writing whose cursor
    is past the end of the data, [write] puts the ciphertext of zero bytes
    from the old end up to the cursor after the bytes of the file, and the
    ciphertext of the data after that; reading from the old end on returns
    the zero bytes and the data. *)
Theorem write_fills_hole (disk : option bytes) (rnd key1 : bytes) :
  length key1 = 32%nat -> length rnd = 16%nat ->
  (exists h0 : CryptFile,
     CryptFile_init disk rnd key1 "w+b" = Ok h0 /\
     fst ((seek 100 0 ;;
           write AES_block (Buffer [x58; x58; x58; x58; x58]) ;;
           seek 0 0 ;;
           read AES_block (Some 105)) h0)
     = Ok (zeros 100 ++ [x58; x58; x58; x58; x58]))
  /\
  (forall (h : CryptFile) (k s : bytes),
     opened h = true -> f_writable (fp h) = true -> key h = Some k ->
     0 <= plaintext_length h < offset h ->
     let plen := plaintext_length h in
     let hole := offset h - plen in
     exists h' : CryptFile,
       write AES_block (Buffer s) h = (Ok tt, h') /\
       f_data (fp h') =
         f_data (fp h)
           ++ fst (crypt AES_block (cryptor_at k (nonce h) plen) (zeros hole))
           ++ fst (crypt AES_block (cryptor_at k (nonce h) (offset h)) s) /\
       offset h' = offset h + len s /\
       fst ((seek plen 0 ;; read AES_block (Some (hole + len s))) h')
       = Ok (zeros hole ++ s)).
Proof.
  intros Hk Hr. split.
  - destruct (CryptFile_init_create disk rnd key1 Hk Hr) as (n & Hn & Hinit).
    eexists. split; [exact Hinit|].
    assert (Hlr : len rnd = 16) by (unfold len; lia).
    erewrite bind_ok by (apply seek_start; lia).
    unfold set_offset. cbn [fp mode key nonce offset].
    destruct (@write_past_end [x58; x58; x58; x58; x58] rnd 16 "w+b" key1 n
                100 Hk ltac:(lia) ltac:(lia)) as [Hw Hrd].
    erewrite bind_ok by exact Hw.
    rewrite Hlr in Hrd.
    change (16 - 16) with 0 in Hrd. change (100 - 0) with 100 in Hrd.
    rewrite Hlr. change (16 - 16) with 0. change (100 - 0) with 100.
    exact Hrd.
  - intros h k s Ho Hw Hkey Hp plen hole.
    destruct h as [[d p c w] m k0 n cur].
    apply opened_inv in Ho as (Hc & (k1 & Hk1 & Hl) & Hcur).
    cbn [fp f_closed f_writable key] in Hc, Hw, Hkey. subst c w.
    rewrite Hkey in Hk1. injection Hk1 as <-. subst k0.
    unfold plaintext_length in *. cbn [fp f_data offset nonce] in *.
    destruct (@write_past_end s d p m k n cur Hl ltac:(lia) ltac:(lia))
      as [Hwr Hrd].
    eexists. split; [exact Hwr|]. cbn [fp f_data offset].
    split; [reflexivity|]. split; [reflexivity|]. exact Hrd.
Qed.

(** C4. Sparse growth. [truncate(N)] on a container that was just created and
    a read of [N] bytes from offset 0 give [N] zero bytes, for every
    [N >= 0]. In general, on an open handle for writing, [truncate] to more
    than the plaintext length leaves the bytes of the file in place, puts
    the ciphertext of zero bytes from the old end up to the new size after
    them, and does not move the cursor; reading from the old end on returns
    the zero bytes. *)
Theorem truncate_extends_with_zeros (disk : option bytes) (rnd key1 : bytes)
    (N : Z) :
  length key1 = 32%nat -> length rnd = 16%nat -> 0 <= N ->
  (exists h0 : CryptFile,
     CryptFile_init disk rnd key1 "w+b" = Ok h0 /\
     fst ((truncate AES_block N ;; read AES_block (Some N)) h0)
     = Ok (zeros N))
  /\
  (forall (h : CryptFile) (k : bytes) (size : Z),
     opened h = true -> f_writable (fp h) = true -> key h = Some k ->
     0 <= plaintext_length h < size ->
     let plen := plaintext_length h in
     exists h' : CryptFile,
       truncate AES_block size h = (Ok tt, h') /\
       f_data (fp h') =
         f_data (fp h)
           ++ fst (crypt AES_block (cryptor_at k (nonce h) plen)
                     (zeros (size - plen))) /\
       plaintext_length h' = size /\
       offset h' = offset h /\
       fst ((seek plen 0 ;; read AES_block (Some (size - plen))) h')
       = Ok (zeros (size - plen))).
Proof.
  intros Hk Hr HN. split.
  - destruct (CryptFile_init_create disk rnd key1 Hk Hr) as (n & Hn & Hinit).
    eexists. split; [exact Hinit|].
    assert (Hlr : len rnd = 16) by (unfold len; lia).
    destruct (@truncate_spec N rnd 16 "w+b" key1 n 0 Hk ltac:(lia))
      as [p' Ht].
    erewrite bind_ok by exact Ht.
    rewrite Hlr.
    destruct (16 <? N + 16) eqn:E.
    + pose proof (@read_tail rnd (zeros N) p' true "w+b" key1 n Hk
                    ltac:(lia)) as Hrd.
      rewrite Hlr in Hrd. change (16 - 16) with 0 in Hrd.
      rewrite len_zeros in Hrd.
      replace (Z.max 0 N) with N in Hrd by lia.
      replace (N + 16 - 16) with N by lia.
      change (16 - 16) with 0. exact Hrd.
    + apply Z.ltb_ge in E. assert (N = 0) as -> by lia.
      now rewrite read_nonpositive by lia.
  - intros h k size Ho Hw Hkey Hp plen.
    destruct h as [[d p c w] m k0 n cur].
    apply opened_inv in Ho as (Hc & (k1 & Hk1 & Hl) & Hcur).
    cbn [fp f_closed f_writable key] in Hc, Hw, Hkey. subst c w.
    rewrite Hkey in Hk1. injection Hk1 as <-. subst k0.
    unfold plaintext_length in *. cbn [fp f_data offset nonce] in *.
    destruct (@truncate_grow size d p m k n cur Hl ltac:(lia) ltac:(lia))
      as (p' & Ht & Hrd).
    eexists. split; [exact Ht|]. cbn [fp f_data offset].
    split; [reflexivity|]. split; [|split; [reflexivity|exact Hrd]].
    rewrite len_app, crypt_len, len_zeros. lia.
Qed.

(** [write] of a stream on an open handle for writing: the file gets the
    bytes that [write] of the blocks put end to end gives it, and then
    [len(data)] raises; the cursor is not moved. *)
Lemma write_Stream_spec (blocks : list bytes) (d : bytes) (p : Z)
    (m : string) (k : bytes) (n cur : Z) :
  length k = 32%nat -> 0 <= cur ->
  let h := mk_CryptFile (mk_pyfile d p false true) m (Some k) n cur in
  write AES_block (Stream blocks) h =
  (Raise (TypeError "object of type 'generator' has no len()"),
   set_offset cur (snd (write AES_block (Buffer (concat blocks)) h))).
Proof.
  intros Hk Hc h. unfold h at 2.
  rewrite write_Buffer_spec by assumption. cbn [snd].
  unfold set_offset. cbn [fp mode key nonce offset].
  unfold h, write.
  rewrite (bind_ok _ _ _ (s' := mk_CryptFile (mk_pyfile d (len d) false true)
                                  m (Some k) n cur) (a := tt)).
  2:{ unfold on_fp, file_seek. cbn [fp f_closed f_pos f_data Z.eqb Pos.eqb].
      rewrite Z.add_0_r.
      replace (len d <? 0) with false
        by (symmetry; apply Z.ltb_ge; apply len_nonneg).
      reflexivity. }
  rewrite (bind_ok _ _ _ (s' := mk_CryptFile (mk_pyfile d (len d) false true)
                                  m (Some k) n cur) (a := len d))
    by reflexivity.
  rewrite (bind_ok _ _ _ (s' := mk_CryptFile (mk_pyfile d (len d) false true)
                                  m (Some k) n cur) (a := cur))
    by reflexivity.
  unfold HEADER_SIZE.
  set (fill := fst (crypt AES_block (cryptor_at k n (len d - 16))
                      (zeros (cur + 16 - len d)))).
  rewrite (bind_ok _ _ _
             (s' := mk_CryptFile
                      (mk_pyfile (d ++ fill)
                         (Z.max (len d) (cur + 16)) false true)
                      m (Some k) n cur) (a := tt)).
  2:{ destruct (len d <? cur + 16) eqn:E.
      - apply Z.ltb_lt in E.
        rewrite _write_NullStream by reflexivity.
        rewrite _write_Buffer_spec by (trivial; pose proof (len_nonneg d); lia).
        replace (Z.to_nat (16 + (len d - 16))) with (length d)
          by (unfold len; lia).
        fold fill. rewrite written_at_end, len_zeros.
        f_equal. f_equal. f_equal. lia.
      - apply Z.ltb_ge in E. unfold ret. f_equal. f_equal. f_equal.
        + unfold fill. rewrite zeros_nonpositive by lia.
          rewrite crypt_nil. cbn [fst]. now rewrite app_nil_r.
        + lia. }
  rewrite (bind_ok _ _ _
             (s' := mk_CryptFile
                      (mk_pyfile (d ++ fill)
                         (Z.max (len d) (cur + 16)) false true)
                      m (Some k) n cur) (a := cur))
    by reflexivity.
  erewrite bind_ok
    by (rewrite _write_Stream_concat by reflexivity;
        apply _write_Buffer_spec; trivial; lia).
  reflexivity.
Qed.

(** [truncate] to a size from -16 to -1, on an open handle for writing of a
    file that has its header: the call succeeds and leaves [size + 16] bytes,
    fewer than the header has. *)
Lemma truncate_into_header (size : Z) (d : bytes) (p : Z) (m : string)
    (k : bytes) (n cur : Z) :
  length k = 32%nat -> 16 <= len d -> -16 <= size < 0 ->
  exists h' : CryptFile,
    truncate AES_block size
      (mk_CryptFile (mk_pyfile d p false true) m (Some k) n cur) = (Ok tt, h')
    /\ len (f_data (fp h')) = size + 16.
Proof.
  intros Hk Hd Hs.
  destruct (@truncate_spec size d p m k n cur Hk ltac:(lia)) as [p' Ht].
  eexists. split; [exact Ht|]. cbn [fp f_data].
  replace (len d <? size + 16) with false by (symmetry; apply Z.ltb_ge; lia).
  unfold len in *. rewrite length_firstn. lia.
Qed.

(** [write] of a byte string on an open handle for writing moves the cursor
    forward by the length of the string. *)
Lemma write_Buffer_cursor (h : CryptFile) (s : bytes) :
  opened h = true -> f_writable (fp h) = true ->
  exists h' : CryptFile,
    write AES_block (Buffer s) h = (Ok tt, h') /\
    offset h' = offset h + len s.
Proof.
  destruct h as [[d p c w] m k n cur]. intros Ho Hw.
  apply opened_inv in Ho as (Hc & (k1 & -> & Hl) & Hcur).
  cbn [fp f_closed f_writable] in Hc, Hw. subst c w.
  eexists. split; [now apply write_Buffer_spec|]. reflexivity.
Qed.

(** C7, at the input where the code departs from it. [write] given an
    iterator over the blocks "ab" and "c", on a container that was just
    created: the three bytes reach the file, the same bytes that [_write]
    puts there for the string "abc", and then [len(data)] raises TypeError;
    the cursor is still 0, not 3. *)
Theorem write_stream_raises_TypeError :
  let r := write AES_block (Stream [[x61; x62]; [x63]]) fresh0 in
  fst r = Raise (TypeError "object of type 'generator' has no len()") /\
  offset (snd r) = 0 /\
  len (f_data (fp (snd r))) = 16 + 3 /\
  f_data (fp (snd r)) =
    f_data (fp (snd (_write AES_block (Buffer [x61; x62; x63]) 0 fresh0))).
Proof. vm_compute. repeat split. Qed.

(** C8, as the code has it. After [close()], on whatever handle: [write],
    [truncate], [seek] from the end and [read] to the end raise the
    ValueError of a closed file and [read] of a positive size raises the
    TypeError of a missing key, all of them leaving the handle as it was;
    [tell], [seek] from the start or from the cursor and [read] of a size
    that is not positive do what they do on an open handle. *)
Theorem use_after_close (h : CryptFile) (data : wdata) (n : Z) :
  let hc := snd (close h) in
  fst (close h) = Ok tt /\
  f_closed (fp hc) = true /\ key hc = None /\
  write AES_block data hc = (Raise closed_file, hc) /\
  truncate AES_block n hc = (Raise closed_file, hc) /\
  seek n 2 hc = (Raise closed_file, hc) /\
  read AES_block None hc = (Raise closed_file, hc) /\
  read AES_block (Some n) hc =
    (if n <=? 0 then Ok []
     else Raise (TypeError
                   "argument 1 must be string or read-only buffer, not None"),
     hc) /\
  tell hc = (Ok (offset h), hc) /\
  seek n 0 hc =
    (if n <? 0 then (Raise (IOError "Invalid offset"), hc)
     else (Ok tt, set_offset n hc)) /\
  seek n 1 hc =
    (if offset h + n <? 0 then (Raise (IOError "Invalid offset"), hc)
     else (Ok tt, set_offset (offset h + n) hc)).
Proof.
  destruct h as [[d p c w] m k nn cur]. cbv zeta.
  change (snd (close (mk_CryptFile (mk_pyfile d p c w) m k nn cur)))
    with (mk_CryptFile (mk_pyfile d p true w) m None nn cur).
  repeat split.
  - destruct (Z_le_gt_dec n 0) as [Hn|Hn].
    + rewrite read_nonpositive by exact Hn.
      now replace (n <=? 0) with true by (symmetry; apply Z.leb_le; lia).
    + replace (n <=? 0) with false by (symmetry; apply Z.leb_gt; lia).
      unfold read, _read, bind, gets, ret.
      replace (n <=? 0) with false by (symmetry; apply Z.leb_gt; lia).
      reflexivity.
  - unfold seek, bind, ret, modify. cbn [Z.eqb].
    destruct (n <? 0); reflexivity.
  - unfold seek, bind, ret, gets, modify. cbn [Z.eqb Pos.eqb offset].
    destruct (cur + n <? 0); reflexivity.
Qed.

(** C9, at the input where the code departs from it. [truncate(-1)] on a
    container that was just created succeeds and cuts the file to 15 bytes:
    the header has lost its last byte and the plaintext length is -1. *)
Theorem truncate_negative_cuts_header :
  let r := truncate AES_block (-1) fresh0 in
  fst r = Ok tt /\
  len (f_data (fp fresh0)) = 16 /\
  len (f_data (fp (snd r))) = 15 /\
  plaintext_length (snd r) = -1.
Proof. vm_compute. repeat split. Qed.

(** *** More of the code: the 128-bit helpers *)

Lemma le_to_Z_le_value (s : bytes) : le_to_Z s = le_value s.
Proof.
  induction s as [|b r IH]; [reflexivity|].
  cbn [le_to_Z le_value fold_right]. fold (le_value r).
  rewrite (@lor_low_high 8) by (try lia; apply byte_Z_range).
  rewrite IH. reflexivity.
Qed.

Lemma le_value_app (a b : bytes) :
  le_value (a ++ b) = le_value a + 2 ^ (8 * len a) * le_value b.
Proof.
  induction a as [|x a IH].
  - change (le_value b = 0 + 2 ^ 0 * le_value b). rewrite Z.pow_0_r. lia.
  - cbn [app le_value fold_right]. fold (le_value (a ++ b)).
    fold (le_value a). rewrite IH.
    replace (8 * len (x :: a)) with (8 + 8 * len a)
      by (unfold len; simpl length; lia).
    rewrite Z.pow_add_r by (unfold len; lia). change (2 ^ 8) with 256. ring.
Qed.

Lemma byte_of_Z_byte_Z (b : byte) : byte_of_Z (byte_Z b) = b.
Proof.
  unfold byte_of_Z, byte_Z. pose proof (Byte.to_N_bounded b) as Hb.
  rewrite Z.mod_small by lia. rewrite N2Z.id, Byte.of_to_N. reflexivity.
Qed.

Lemma Z_to_le_le_to_Z (s : bytes) : Z_to_le (length s) (le_to_Z s) = s.
Proof.
  clear AES_block.
  induction s as [|b r IH]; [reflexivity|].
  cbn [length Z_to_le le_to_Z].
  rewrite (@lor_low_high 8) by (try lia; apply byte_Z_range).
  pose proof (byte_Z_range b) as Hb. change (2 ^ 8) with 256.
  replace ((byte_Z b + 256 * le_to_Z r) mod 256) with (byte_Z b)
    by (Z.div_mod_to_equations; lia).
  replace ((byte_Z b + 256 * le_to_Z r) / 256) with (le_to_Z r)
    by (Z.div_mod_to_equations; lia).
  now rewrite byte_of_Z_byte_Z, IH.
Qed.

Lemma _unpack_uint128_value (s : bytes) :
  length s = 16%nat -> _unpack_uint128 s = Ok (le_value s).
Proof.
  intros Hs. unfold _unpack_uint128, struct_unpack_Q.
  rewrite length_firstn, length_skipn, Hs. cbn [Nat.min Nat.sub Nat.eqb].
  f_equal.
  pose proof (le_to_Z_range (firstn 8 s)) as H1.
  unfold len in H1. rewrite length_firstn, Hs in H1.
  change (2 ^ (8 * Z.of_nat (Nat.min 8 16))) with (2 ^ 64) in H1.
  rewrite (@lor_low_high 64) by lia.
  rewrite !le_to_Z_le_value.
  rewrite <- (firstn_skipn 8 s) at 3. rewrite le_value_app.
  unfold len. rewrite length_firstn, Hs. reflexivity.
Qed.

Lemma _unpack_uint128_cases (s : bytes) :
  _unpack_uint128 s =
    (if (length s =? 16)%nat then Ok (le_value s)
     else Raise (StructError
                   "unpack requires a string argument of length 8")).
Proof.
  destruct (length s =? 16)%nat eqn:E.
  - apply Nat.eqb_eq in E. now apply _unpack_uint128_value.
  - apply Nat.eqb_neq in E. unfold _unpack_uint128, struct_unpack_Q.
    rewrite length_firstn, length_skipn.
    destruct (Nat.min 8 (length s) =? 8)%nat eqn:E1; [|reflexivity].
    destruct (length s - 8 =? 8)%nat eqn:E2; [|reflexivity].
    apply Nat.eqb_eq in E1, E2. lia.
Qed.

(** X1. [_unpack_uint128] accepts the strings of 16 bytes and no other: on
    16 bytes the two 64-bit halves, joined with [|] and [<<], are the number
    the 16 bytes stand for least significant byte first, a number of 128
    bits; on any other length [struct.unpack] raises. *)
Theorem _unpack_uint128_little_endian (s : bytes) :
  _unpack_uint128 s =
    (if (length s =? 16)%nat then Ok (le_value s)
     else Raise (StructError
                   "unpack requires a string argument of length 8")) /\
  0 <= le_value s < 2 ^ (8 * len s) /\
  (forall (b : byte) (r : bytes),
     le_value (b :: r) = byte_Z b + 256 * le_value r).
Proof.
  split; [apply _unpack_uint128_cases|split].
  - rewrite <- le_to_Z_le_value. apply le_to_Z_range.
  - reflexivity.
Qed.

(** X2. [_pack_uint128] never raises, whatever integer it is given: the
    masks keep both halves in the range of [struct.pack]. It returns 16
    bytes, and [_unpack_uint128] of them is the integer reduced modulo
    2^128, so the integer itself when it has 128 bits. *)
Theorem _pack_then_unpack_uint128 (num : Z) :
  exists s : bytes,
    _pack_uint128 num = Ok s /\ length s = 16%nat /\
    _unpack_uint128 s = Ok (num mod 2 ^ 128) /\
    (if (0 <=? num) && (num <? 2 ^ 128)
     then _unpack_uint128 s = Ok num else True).
Proof.
  destruct (_unpack_pack_uint128 num) as (s & Hp & Hl & Hu).
  exists s. repeat split; trivial.
  destruct ((0 <=? num) && (num <? 2 ^ 128)) eqn:E; [|exact I].
  apply andb_prop in E as [E1 E2].
  apply Z.leb_le in E1. apply Z.ltb_lt in E2.
  rewrite Hu. now rewrite Z.mod_small by lia.
Qed.

(** X3. The other way round: every string of 16 bytes unpacks to a number
    that packs to the same 16 bytes, so the header of a container is
    determined by its nonce and the nonce by the header. *)
Theorem _unpack_then_pack_uint128 (s : bytes) :
  length s = 16%nat ->
  exists n : Z,
    _unpack_uint128 s = Ok n /\ 0 <= n < 2 ^ 128 /\ _pack_uint128 n = Ok s.
Proof.
  clear AES_block. intros Hs. exists (le_value s).
  pose proof (_unpack_uint128_value s Hs) as Hu.
  split; [exact Hu|]. split; [now apply _unpack_uint128_range in Hu|].
  unfold _pack_uint128. rewrite !struct_pack_Q_mask.
  rewrite <- (firstn_skipn 8 s) at 1 2 3.
  rewrite le_value_app, <- !le_to_Z_le_value.
  pose proof (le_to_Z_range (firstn 8 s)) as H1.
  pose proof (le_to_Z_range (skipn 8 s)) as H2.
  unfold len in *. rewrite length_firstn, Hs in *.
  rewrite length_skipn, Hs in H2.
  change (2 ^ (8 * Z.of_nat (Nat.min 8 16))) with (2 ^ 64) in *.
  change (2 ^ (8 * Z.of_nat (16 - 8))) with (2 ^ 64) in *.
  set (lo := le_to_Z (firstn 8 s)) in *.
  set (hi := le_to_Z (skipn 8 s)) in *.
  rewrite Z.shiftr_div_pow2 by lia.
  replace ((lo + 2 ^ 64 * hi) mod 2 ^ 64) with lo
    by (Z.div_mod_to_equations; lia).
  replace ((lo + 2 ^ 64 * hi) / 2 ^ 64) with hi
    by (Z.div_mod_to_equations; lia).
  rewrite (Z.mod_small hi) by lia.
  assert (H8a : length (firstn 8 s) = 8%nat)
    by (rewrite length_firstn, Hs; reflexivity).
  assert (H8b : length (skipn 8 s) = 8%nat)
    by (rewrite length_skipn, Hs; reflexivity).
  subst lo hi.
  pose proof (Z_to_le_le_to_Z (firstn 8 s)) as Ea. rewrite H8a in Ea.
  pose proof (Z_to_le_le_to_Z (skipn 8 s)) as Eb. rewrite H8b in Eb.
  rewrite Ea, Eb. reflexivity.
Qed.

(** X4. [_wrapsum_uint128] stays within 128 bits; on two numbers of 128
    bits it is their sum, less 2^128 when the sum does not fit; and adding
    in two steps is adding the sum, which is what lets the counter of block
    [b + 1] be reached from that of block [b]. *)
Theorem _wrapsum_uint128_wraps (a b c : Z) :
  0 <= a < 2 ^ 128 -> 0 <= b < 2 ^ 128 ->
  0 <= _wrapsum_uint128 a b < 2 ^ 128 /\
  _wrapsum_uint128 a b =
    (if a + b <? 2 ^ 128 then a + b else a + b - 2 ^ 128) /\
  _wrapsum_uint128 (_wrapsum_uint128 a b) c = _wrapsum_uint128 a (b + c) /\
  _wrapsum_uint128 a b = _wrapsum_uint128 b a.
Proof.
  intros Ha Hb. unfold _wrapsum_uint128.
  change 0x100000000000000000000000000000000 with (2 ^ 128).
  split; [apply Z.mod_pos_bound; lia|]. split; [|split].
  - destruct (a + b <? 2 ^ 128) eqn:E.
    + apply Z.ltb_lt in E. apply Z.mod_small. lia.
    + apply Z.ltb_ge in E.
      replace (a + b) with (a + b - 2 ^ 128 + 1 * 2 ^ 128) at 1 by lia.
      rewrite Z.mod_add by lia. apply Z.mod_small. lia.
  - rewrite Z.add_mod_idemp_l by lia. now rewrite Z.add_assoc.
  - now rewrite Z.add_comm.
Qed.

(** *** More of the code: NullStream *)

(** X5. The generator of [NullStream(size)] yields ceil(size / 131072)
    blocks (none when [size] is not positive), each of at least one and at
    most 131072 zero bytes, [size] zero bytes in all: the stream never holds
    more than one block of 128 KiB, however long it is. *)
Theorem NullStream_iter_blocks (size : Z) :
  concat (NullStream_iter size) = zeros size /\
  Forall (fun b => 0 < len b <= NullStream_block_size /\ b = zeros (len b))
         (NullStream_iter size) /\
  Z.of_nat (length (NullStream_iter size)) =
    Z.max 0 ((size + NullStream_block_size - 1) / NullStream_block_size).
Proof.
  clear AES_block.
  split; [apply NullStream_iter_concat|].
  funelim (NullStream_iter size).
  - split; [constructor|].
    unfold NullStream_block_size. simpl length.
    Z.div_mod_to_equations. lia.
  - destruct H as [HF HL]. split.
    + constructor; [|exact HF]. rewrite len_zeros.
      unfold NullStream_block_size. split; [lia|reflexivity].
    + cbn [length]. rewrite Nat2Z.inj_succ, HL.
      unfold NullStream_block_size in *.
      Z.div_mod_to_equations. lia.
  - split.
    + constructor; [|constructor]. rewrite len_zeros.
      split; [lia|]. f_equal. lia.
    + unfold NullStream_block_size in *. simpl length.
      Z.div_mod_to_equations. lia.
Qed.

(** *** More of the code: [CryptFile.__init__] *)

Lemma CryptFile_init_existing (d rnd k : bytes) (m : string) :
  length k = 32%nat -> String.eqb m "w+b" = false ->
  String.eqb m "rb" || String.eqb m "r+b" = true ->
  CryptFile_init (Some d) rnd k m =
    (if (16 <=? length d)%nat
     then Ok (mk_CryptFile (mk_pyfile d 16 false (String.eqb m "r+b")) m
                (Some k) (le_value (firstn 16 d)) 0)
     else Raise (StructError
                   "unpack requires a string argument of length 8")).
Proof.
  intros Hk Hw Hm. unfold CryptFile_init. rewrite Hk. cbn [Nat.eqb negb].
  rewrite Hw, orb_false_r, Hm. cbn [negb].
  assert (Hin : py_in m "w+b" = false).
  { apply orb_prop in Hm as [E|E]; apply String.eqb_eq in E; subst m;
      reflexivity. }
  rewrite Hin. unfold open. rewrite Hw.
  unfold file_read. cbn [f_closed f_pos f_data].
  change (16 <? 0) with false. cbv iota.
  change (Z.to_nat 0) with 0%nat. change (Z.to_nat 16) with 16%nat.
  cbn [skipn]. rewrite _unpack_uint128_cases, length_firstn.
  destruct (16 <=? length d)%nat eqn:E.
  - apply Nat.leb_le in E.
    replace (Nat.min 16 (length d)) with 16%nat by lia. cbn [Nat.eqb].
    unfold set_pos, len. cbn [f_data f_pos f_closed f_writable].
    rewrite length_firstn.
    replace (Nat.min 16 (length d)) with 16%nat by lia. reflexivity.
  - apply Nat.leb_gt in E.
    replace (Nat.min 16 (length d) =? 16)%nat with false
      by (symmetry; apply Nat.eqb_neq; lia).
    reflexivity.
Qed.

(** X6. What [CryptFile(path, key, mode)] does, case by case. A key that
    is not 32 bytes long raises ValueError whatever the mode and the file
    are; then a mode other than 'rb', 'r+b', 'w+b' raises IOError. Mode 'w+b'
    gives a handle on a file that holds the 16 random bytes and nothing
    else, whatever was there. The other two modes raise IOError when there
    is no file and [struct.error] when it has fewer than 16 bytes; else the
    file is left as it is, only 'r+b' may write to it, and the nonce is read
    from its first 16 bytes. The cursor starts at 0. *)
Theorem CryptFile_init_outcome (disk : option bytes) (rnd k : bytes)
    (m : string) :
  length rnd = 16%nat ->
  CryptFile_init disk rnd k m =
    if negb (length k =? 32)%nat
    then Raise (ValueError "Key must be 32 bytes")
    else if String.eqb m "w+b"
    then Ok (mk_CryptFile (mk_pyfile rnd 16 false true) "w+b" (Some k)
               (le_value rnd) 0)
    else if negb (String.eqb m "rb" || String.eqb m "r+b")
    then Raise (IOError "Unsupported mode")
    else match disk with
         | None => Raise (IOError "[Errno 2] No such file or directory")
         | Some d =>
             if (16 <=? length d)%nat
             then Ok (mk_CryptFile
                        (mk_pyfile d 16 false (String.eqb m "r+b")) m
                        (Some k) (le_value (firstn 16 d)) 0)
             else Raise (StructError
                           "unpack requires a string argument of length 8")
         end.
Proof.
  intros Hr.
  destruct (length k =? 32)%nat eqn:Ek; cbn [negb].
  2:{ unfold CryptFile_init. rewrite Ek. reflexivity. }
  apply Nat.eqb_eq in Ek.
  destruct (String.eqb m "w+b") eqn:Ew.
  - apply String.eqb_eq in Ew. subst m.
    destruct (CryptFile_init_create disk rnd k Ek Hr) as (n & Hn & Hi).
    rewrite Hi. rewrite _unpack_uint128_value in Hn by exact Hr.
    injection Hn as <-. reflexivity.
  - destruct (String.eqb m "rb" || String.eqb m "r+b") eqn:Em; cbn [negb].
    + destruct disk as [d|].
      * now apply CryptFile_init_existing.
      * unfold CryptFile_init. rewrite Ek. cbn [Nat.eqb negb].
        rewrite Ew, orb_false_r, Em. cbn [negb]. unfold open. rewrite Ew.
        reflexivity.
    + unfold CryptFile_init. rewrite Ek. cbn [Nat.eqb negb].
      rewrite Ew, orb_false_r, Em. reflexivity.
Qed.

(** *** More of the code: the header is never written again *)

Lemma firstn_16_overwrite (p : nat) (s d : bytes) :
  (16 <= p)%nat -> (16 <= length d)%nat ->
  firstn 16 (overwrite p s d) = firstn 16 d.
Proof.
  intros Hp Hd. unfold overwrite.
  rewrite firstn_app, length_firstn, length_app, repeat_length.
  replace (16 - Nat.min p (length d + (p - length d)))%nat with 0%nat by lia.
  rewrite firstn_O, app_nil_r, firstn_firstn.
  replace (Nat.min 16 p) with 16%nat by lia.
  rewrite firstn_app.
  replace (16 - length d)%nat with 0%nat by lia.
  now rewrite firstn_O, app_nil_r.
Qed.

Lemma file_write_keeps_header (hdr s : bytes) (f : pyfile) :
  16 <= f_pos f ->
  firstn 16 (f_data f) = hdr /\ 16 <= len (f_data f) ->
  (firstn 16 (f_data (snd (file_write s f))) = hdr
   /\ 16 <= len (f_data (snd (file_write s f))))
  /\ 16 <= f_pos (snd (file_write s f)).
Proof.
  intros Hp [Hh Hl]. unfold file_write.
  destruct (f_closed f); [now repeat split|].
  destruct (f_writable f); cbn [negb]; [|now repeat split].
  destruct s as [|x s]; [now repeat split|].
  cbn [snd f_data f_pos]. unfold len in *. repeat split.
  - rewrite firstn_16_overwrite by lia. exact Hh.
  - rewrite overwrite_length. lia.
  - lia.
Qed.

Lemma has_header_on_fp_write (hdr s : bytes) (h : CryptFile) :
  has_header hdr h -> 16 <= f_pos (fp h) ->
  has_header hdr (snd (on_fp (file_write s) h))
  /\ 16 <= f_pos (fp (snd (on_fp (file_write s) h))).
Proof.
  intros Hh Hp. unfold on_fp, has_header in *.
  pose proof (@file_write_keeps_header hdr s (fp h) Hp Hh) as Hf.
  destruct (file_write s (fp h)) as [r f]. exact Hf.
Qed.

Lemma has_header_write_blocks (hdr : bytes) (blocks : list bytes) :
  forall (c : cryptor) (h : CryptFile),
  has_header hdr h -> 16 <= f_pos (fp h) ->
  has_header hdr (snd (write_blocks AES_block c blocks h)).
Proof.
  induction blocks as [|b r IH]; intros c h Hh Hp; [exact Hh|].
  cbn [write_blocks]. destruct (encrypt AES_block c b) as [ct c1].
  unfold bind.
  destruct (@has_header_on_fp_write hdr ct h Hh Hp) as [Hh1 Hp1].
  destruct (on_fp (file_write ct) h) as [[u|e] h1]; cbn [snd] in *;
    [now apply IH|exact Hh1].
Qed.

(** [_write] at an offset that is not negative leaves the header alone. *)
Lemma has_header__write (hdr : bytes) (data : wdata) (off : Z)
    (h : CryptFile) :
  0 <= off -> has_header hdr h ->
  has_header hdr (snd (_write AES_block data off h)).
Proof.
  intros Ho Hh. unfold _write. unfold bind at 1.
  pose proof (_get_AES_at_state off true h) as Hs.
  destruct (_get_AES_at AES_block off true h) as [[enc|e] h0];
    cbn [snd] in Hs; subst h0; [|exact Hh].
  unfold bind.
  assert (Hseek : on_fp (file_seek (HEADER_SIZE + off) 0) h
                  = (Raise closed_file, set_fp (fp h) h)
                  \/ on_fp (file_seek (HEADER_SIZE + off) 0) h
                     = (Ok tt, set_fp (set_pos (16 + off) (fp h)) h)).
  { unfold on_fp, file_seek, HEADER_SIZE. cbn [Z.eqb].
    destruct (f_closed (fp h)); [now left|]. right.
    rewrite Z.add_0_l.
    now replace (16 + off <? 0) with false by (symmetry; apply Z.ltb_ge; lia). }
  destruct Hseek as [-> | ->]; [exact Hh|].
  assert (Hh1 : has_header hdr (set_fp (set_pos (16 + off) (fp h)) h))
    by exact Hh.
  assert (Hp1 : 16 <= f_pos (fp (set_fp (set_pos (16 + off) (fp h)) h)))
    by (cbn [set_fp set_pos fp f_pos]; lia).
  destruct data as [s|blocks].
  - now apply has_header_on_fp_write.
  - now apply has_header_write_blocks.
Qed.

Lemma has_header_on_fp {A : Type} (hdr : bytes) (m : M pyfile A) :
  (forall f, f_data (snd (m f)) = f_data f) ->
  Preserves (has_header hdr) (on_fp m).
Proof.
  intros Hm h H. unfold on_fp, has_header in *. specialize (Hm (fp h)).
  destruct (m (fp h)) as [r f]. cbn [snd set_fp fp] in *. now rewrite Hm.
Qed.

Lemma has_header_file_seek (hdr : bytes) (pos whence : Z) :
  Preserves (has_header hdr) (on_fp (file_seek pos whence)).
Proof. apply has_header_on_fp. intros f. apply file_seek_data. Qed.

Lemma has_header_file_tell (hdr : bytes) :
  Preserves (has_header hdr) (on_fp file_tell).
Proof. apply has_header_on_fp. intros f. apply file_tell_data. Qed.

Lemma has_header_file_read (hdr : bytes) (size : Z) :
  Preserves (has_header hdr) (on_fp (file_read size)).
Proof. apply has_header_on_fp. intros f. apply file_read_data. Qed.

Lemma has_header_set_offset (hdr : bytes) (o : Z) :
  Preserves (has_header hdr) (modify (set_offset o)).
Proof. intros h H. exact H. Qed.

#[local] Hint Resolve has_header_file_seek has_header_file_tell
  has_header_file_read has_header_set_offset : preserves.

Lemma has_header_seek (hdr : bytes) (o w : Z) :
  Preserves (has_header hdr) (seek o w).
Proof. unfold seek, _get_file_size. preserves. Qed.

Lemma has_header_read (hdr : bytes) (size : option Z) :
  Preserves (has_header hdr) (read AES_block size).
Proof.
  assert (Hp : forall o e,
            Preserves (has_header hdr) (_get_AES_at AES_block o e))
    by (intros o e h H; now rewrite _get_AES_at_state).
  unfold read, _read, _get_file_size. preserves.
Qed.

Lemma has_header_write (hdr : bytes) (data : wdata) (h : CryptFile) :
  is_opened h -> has_header hdr h ->
  has_header hdr (snd (write AES_block data h)).
Proof.
  destruct h as [[d p c w] m k n cur]. intros Ho Hh.
  pose proof Ho as Ho'.
  apply opened_inv in Ho' as (Hc & _ & Hcur).
  cbn [f_closed] in Hc. subst c.
  assert (Hd : 16 <= len d) by apply Hh.
  unfold write.
  rewrite (bind_ok _ _ _ (s' := mk_CryptFile (mk_pyfile d (len d) false w)
                                  m k n cur) (a := tt)).
  2:{ unfold on_fp, file_seek. cbn [fp f_closed f_pos f_data Z.eqb Pos.eqb].
      rewrite Z.add_0_r.
      replace (len d <? 0) with false by (symmetry; apply Z.ltb_ge; lia).
      reflexivity. }
  rewrite (bind_ok _ _ _ (s' := mk_CryptFile (mk_pyfile d (len d) false w)
                                  m k n cur) (a := len d))
    by reflexivity.
  rewrite (bind_ok _ _ _ (s' := mk_CryptFile (mk_pyfile d (len d) false w)
                                  m k n cur) (a := cur))
    by reflexivity.
  set (h0 := mk_CryptFile (mk_pyfile d (len d) false w) m k n cur).
  assert (Ho0 : is_opened h0) by exact Ho.
  assert (Hh0 : has_header hdr h0) by exact Hh.
  set (fill := if len d <? cur + HEADER_SIZE
               then _write AES_block (NullStream (cur + HEADER_SIZE - len d))
                      (len d - HEADER_SIZE)
               else ret tt).
  assert (H1 : is_opened (snd (fill h0)) /\ has_header hdr (snd (fill h0))).
  { unfold fill. destruct (len d <? cur + HEADER_SIZE).
    - split; [now apply is_opened__write|].
      apply has_header__write; [unfold HEADER_SIZE; lia|exact Hh0].
    - split; assumption. }
  unfold bind at 1.
  destruct (fill h0) as [[u|e] h1]; cbn [snd] in H1; [|apply H1].
  destruct H1 as [Ho1 Hh1].
  unfold bind at 1. unfold gets at 1.
  pose proof (@is_opened_offset h1 Ho1) as Hc1.
  pose proof (@has_header__write hdr data (offset h1) h1 Hc1 Hh1) as Hh2.
  unfold bind at 1.
  destruct (_write AES_block data (offset h1) h1) as [[u2|e2] h2];
    cbn [snd] in Hh2; [|exact Hh2].
  destruct data as [s|blocks]; exact Hh2.
Qed.

Lemma file_truncate_keeps_header (hdr : bytes) (size : Z) (f : pyfile) :
  0 <= size \/ size < -16 ->
  firstn 16 (f_data f) = hdr /\ 16 <= len (f_data f) ->
  firstn 16 (f_data (snd (file_truncate (size + 16) f))) = hdr
  /\ 16 <= len (f_data (snd (file_truncate (size + 16) f))).
Proof.
  intros Hs [Hh Hl]. unfold file_truncate.
  destruct (f_closed f); [now split|].
  destruct (f_writable f); cbn [negb]; [|now split].
  destruct (size + 16 <? 0) eqn:E; [now split|].
  apply Z.ltb_ge in E. cbn [snd set_data f_data]. unfold len in *. split.
  - rewrite firstn_app, firstn_firstn, length_firstn.
    replace (Nat.min 16 (Z.to_nat (size + 16))) with 16%nat by lia.
    replace (16 - Nat.min (Z.to_nat (size + 16)) (length (f_data f)))%nat
      with 0%nat by lia.
    now rewrite firstn_O, app_nil_r.
  - rewrite length_app, length_firstn, repeat_length. lia.
Qed.

Lemma has_header_truncate (hdr : bytes) (size : Z) (h : CryptFile) :
  0 <= size \/ size < -16 ->
  is_opened h -> has_header hdr h ->
  has_header hdr (snd (truncate AES_block size h)).
Proof.
  destruct h as [[d p c w] m k n cur]. intros Hs Ho Hh.
  pose proof Ho as Ho'.
  apply opened_inv in Ho' as (Hc & _ & Hcur).
  cbn [f_closed] in Hc. subst c.
  assert (Hd : 16 <= len d) by apply Hh.
  unfold truncate.
  erewrite bind_ok by apply _get_file_size_spec.
  set (h0 := mk_CryptFile (mk_pyfile d (len d) false w) m k n cur).
  assert (Hh0 : has_header hdr h0) by exact Hh.
  assert (H1 : has_header hdr
                 (snd (on_fp (file_truncate (size + HEADER_SIZE)) h0))).
  { unfold on_fp, has_header, HEADER_SIZE in *.
    pose proof (@file_truncate_keeps_header hdr size (fp h0) Hs Hh0) as Hf.
    destruct (file_truncate (size + 16) (fp h0)) as [r f]. exact Hf. }
  unfold bind at 1.
  destruct (on_fp (file_truncate (size + HEADER_SIZE)) h0) as [[u|e] h1];
    cbn [snd] in H1; [|exact H1].
  destruct (len d <? size + HEADER_SIZE); [|exact H1].
  apply has_header__write; [unfold HEADER_SIZE; lia|exact H1].
Qed.

Lemma has_header_after_calls (hdr : bytes) (cs : list call) :
  forall h : CryptFile,
  forallb keeps_header cs = true -> is_opened h -> has_header hdr h ->
  has_header hdr (after_calls AES_block cs h).
Proof.
  induction cs as [|c cs IH]; intros h Hcs Ho Hh; [exact Hh|].
  cbn [forallb] in Hcs. apply andb_prop in Hcs as [Hc Hcs].
  unfold after_calls. cbn [fold_left].
  apply IH; [exact Hcs| |].
  - change (is_opened (after_calls AES_block [c] h)).
    now apply is_opened_after_calls.
  - destruct c as [o w| |size|data|size]; cbn [after_call].
    + now apply has_header_seek.
    + exact Hh.
    + now apply has_header_read.
    + now apply has_header_write.
    + apply has_header_truncate; trivial.
      cbn [keeps_header] in Hc. apply orb_prop in Hc as [Hc|Hc];
        [left; now apply Z.leb_le|right; now apply Z.ltb_lt].
Qed.

Lemma CryptFile_init_header (disk : option bytes) (rnd k : bytes)
    (m : string) (h : CryptFile) :
  CryptFile_init disk rnd k m = Ok h ->
  _unpack_uint128 (firstn 16 (f_data (fp h))) = Ok (nonce h).
Proof.
  intros Hi.
  assert (Hk : length k = 32%nat).
  { unfold CryptFile_init in Hi.
    destruct (length k =? 32)%nat eqn:E; [now apply Nat.eqb_eq|discriminate]. }
  destruct (String.eqb m "w+b") eqn:Ew.
  - apply String.eqb_eq in Ew. subst m.
    unfold CryptFile_init in Hi. rewrite Hk in Hi. cbn [Nat.eqb negb] in Hi.
    change (open disk "w+b") with (Ok (mk_pyfile [] 0 false true)) in Hi.
    change (py_in "w+b" "w+b") with true in Hi. cbv iota in Hi.
    cbn [negb orb] in Hi. unfold bind, file_write, ret in Hi.
    cbn [f_closed f_writable negb f_pos f_data] in Hi.
    destruct rnd as [|x rnd]; [discriminate|].
    destruct (_unpack_uint128 (x :: rnd)) as [n|e] eqn:En; [|discriminate].
    injection Hi as <-. cbn [fp f_data nonce].
    pose proof (@_unpack_uint128_Ok _ _ En) as Hl.
    assert (Hov : overwrite 0 (x :: rnd) [] = x :: rnd).
    { unfold overwrite. cbn [firstn app].
      now rewrite skipn_nil, app_nil_r. }
    rewrite Hov, firstn_all2 by lia. exact En.
  - assert (Hm : String.eqb m "rb" || String.eqb m "r+b" = true).
    { unfold CryptFile_init in Hi. rewrite Hk in Hi.
      cbn [Nat.eqb negb] in Hi. rewrite Ew, orb_false_r in Hi.
      destruct (String.eqb m "rb" || String.eqb m "r+b");
        [reflexivity|discriminate]. }
    destruct disk as [d|].
    + rewrite CryptFile_init_existing in Hi by assumption.
      destruct (16 <=? length d)%nat eqn:E; [|discriminate].
      apply Nat.leb_le in E.
      assert (Hl : length (firstn 16 d) = 16%nat)
        by (rewrite length_firstn; lia).
      assert (Hv : h = mk_CryptFile
                         (mk_pyfile d 16 false (String.eqb m "r+b")) m
                         (Some k) (le_value (firstn 16 d)) 0)
        by congruence.
      rewrite Hv. cbn [fp f_data nonce].
      now apply _unpack_uint128_value.
    + unfold CryptFile_init in Hi. rewrite Hk in Hi.
      cbn [Nat.eqb negb] in Hi. rewrite Ew, orb_false_r, Hm in Hi.
      unfold open in Hi. rewrite Ew in Hi. discriminate.
Qed.

(** X7. The nonce of a container is fixed when it is created and no method
    touches the header again: after [CryptFile(...)] has returned a handle
    and after any sequence of [seek], [tell], [read], [write] and
    [truncate] calls on it (with no [truncate] to a size from -16 to -1),
    whether they returned or raised, the first 16 bytes of the file are the
    ones they were, and closing the handle and opening the file again in
    'rb' or 'r+b', with any 32-byte key, gives a handle with the same
    nonce, on the same bytes, with the cursor at 0. *)
Theorem nonce_survives_calls_and_reopen (disk : option bytes)
    (rnd rnd' k k' : bytes) (m m' : string) (h : CryptFile)
    (cs : list call) :
  CryptFile_init disk rnd k m = Ok h ->
  forallb keeps_header cs = true ->
  length k' = 32%nat -> m' = "rb" \/ m' = "r+b" ->
  let h1 := snd (close (after_calls AES_block cs h)) in
  firstn 16 (f_data (fp h1)) = firstn 16 (f_data (fp h)) /\
  exists h2 : CryptFile,
    CryptFile_init (Some (f_data (fp h1))) rnd' k' m' = Ok h2 /\
    nonce h2 = nonce h /\
    f_data (fp h2) = f_data (fp h1) /\
    offset h2 = 0.
Proof.
  intros Hi Hcs Hk' Hm' h1.
  pose proof (@CryptFile_init_header _ _ _ _ _ Hi) as Hn.
  pose proof (@CryptFile_init_Ok _ _ _ _ _ Hi) as [Ho Hh].
  assert (Hhdr : has_header (firstn 16 (f_data (fp h)))
                   (after_calls AES_block cs h))
    by (apply has_header_after_calls; trivial; now split).
  assert (Hd1 : f_data (fp h1) = f_data (fp (after_calls AES_block cs h)))
    by reflexivity.
  destruct Hhdr as [Hf Hl]. rewrite Hd1. split; [exact Hf|].
  rewrite CryptFile_init_existing; trivial.
  - replace (16 <=? length (f_data (fp (after_calls AES_block cs h))))%nat
      with true by (symmetry; apply Nat.leb_le; unfold len in Hl; lia).
    eexists. split; [reflexivity|]. cbn [nonce fp f_data offset].
    split; [|split; reflexivity].
    rewrite Hf. rewrite _unpack_uint128_cases in Hn.
    destruct (length (firstn 16 (f_data (fp h))) =? 16)%nat;
      [|discriminate].
    now injection Hn.
  - destruct Hm' as [-> | ->]; reflexivity.
  - destruct Hm' as [-> | ->]; reflexivity.
Qed.

(** *** More of the code: what a write leaves in the file *)

Lemma overwrite_inside (p : nat) (s d : bytes) :
  (p <= length d)%nat ->
  overwrite p s d = firstn p d ++ s ++ skipn (p + length s) d.
Proof.
  intros Hp. unfold overwrite.
  replace (p - length d)%nat with 0%nat by lia.
  cbn [repeat]. now rewrite app_nil_r.
Qed.

Lemma written_inside (p : nat) (s d : bytes) :
  (p <= length d)%nat ->
  written p s d = firstn p d ++ s ++ skipn (p + length s) d.
Proof.
  intros Hp. destruct s as [|x s]; [|now apply overwrite_inside].
  cbn [written app length]. rewrite Nat.add_0_r.
  symmetry. apply firstn_skipn.
Qed.

Lemma slice_app_l (A B : bytes) (a n : nat) :
  (a + n <= length A)%nat ->
  firstn n (skipn a (A ++ B)) = firstn n (skipn a A).
Proof.
  intros H. rewrite skipn_app.
  replace (a - length A)%nat with 0%nat by lia. cbn [skipn].
  rewrite firstn_app, length_skipn.
  replace (n - (length A - a))%nat with 0%nat by lia.
  now rewrite firstn_O, app_nil_r.
Qed.

Lemma slice_firstn (D : bytes) (a n P : nat) :
  (a + n <= P)%nat ->
  firstn n (skipn a (firstn P D)) = firstn n (skipn a D).
Proof.
  intros H. destruct (Nat.le_gt_cases (length D) P) as [Hl|Hl].
  - now rewrite (@firstn_all2 _ P D) by lia.
  - rewrite <- (firstn_skipn P D) at 2.
    rewrite slice_app_l; [reflexivity|].
    rewrite length_firstn. lia.
Qed.

Lemma skipn_app_r (A B : bytes) (a : nat) :
  (length A <= a)%nat -> skipn a (A ++ B) = skipn (a - length A) B.
Proof.
  intros H. rewrite skipn_app, skipn_all2 by lia. reflexivity.
Qed.

(** The bytes of a file after a write at [p], in three pieces: what was
    before [p], the bytes written, and what was after them. *)
Lemma written_slices (p : nat) (s D : bytes) :
  (p <= length D)%nat ->
  firstn (length s) (skipn p (written p s D)) = s /\
  (forall a n, (a + n <= p)%nat ->
     firstn n (skipn a (written p s D)) = firstn n (skipn a D)) /\
  (forall a, (p + length s <= a)%nat ->
     skipn a (written p s D) = skipn a D) /\
  length (written p s D) = Nat.max (p + length s) (length D).
Proof.
  intros Hp. rewrite written_inside by exact Hp.
  assert (HP : length (firstn p D) = p) by (rewrite length_firstn; lia).
  repeat split.
  - rewrite skipn_app_r by lia. rewrite HP, Nat.sub_diag. cbn [skipn].
    now rewrite firstn_app, Nat.sub_diag, firstn_O, app_nil_r, firstn_all.
  - intros a n H. rewrite slice_app_l by lia. now apply slice_firstn.
  - intros a H. rewrite skipn_app_r by lia. rewrite HP.
    rewrite skipn_app_r by lia. rewrite skipn_skipn. f_equal. lia.
  - rewrite !length_app, HP, length_skipn. lia.
Qed.

Lemma written_app (p : nat) (a b D : bytes) :
  written (p + length a) b (written p a D) = written p (a ++ b) D.
Proof.
  destruct a as [|x a].
  - cbn [written length app]. now rewrite Nat.add_0_r.
  - destruct b as [|y b].
    + cbn [written]. now rewrite app_nil_r.
    + change (written p ((x :: a) ++ y :: b) D)
        with (overwrite p ((x :: a) ++ y :: b) D).
      cbn [written]. apply overwrite_app.
Qed.

Lemma byte_xor_x00_l (k : byte) : byte_xor x00 k = k.
Proof.
  unfold byte_xor. change (Byte.to_bits x00)
    with (false, (false, (false, (false, (false, (false, (false, false))))))).
  destruct (Byte.to_bits k) as (b0 & b1 & b2 & b3 & b4 & b5 & b6 & b7) eqn:E.
  cbn [xor_bits8 xorb]. rewrite <- E. apply Byte.of_bits_to_bits.
Qed.

Lemma byte_xor_same_key (a b k : byte) :
  byte_xor (byte_xor a k) (byte_xor b k) = byte_xor a b.
Proof.
  unfold byte_xor. rewrite !Byte.to_bits_of_bits. f_equal.
  destruct (Byte.to_bits a) as (a0 & a1 & a2 & a3 & a4 & a5 & a6 & a7).
  destruct (Byte.to_bits b) as (b0 & b1 & b2 & b3 & b4 & b5 & b6 & b7).
  destruct (Byte.to_bits k) as (k0 & k1 & k2 & k3 & k4 & k5 & k6 & k7).
  unfold xor_bits8.
  assert (Hx : forall x y z, xorb (xorb x z) (xorb y z) = xorb x y)
    by (intros [] [] []; reflexivity).
  now rewrite !Hx.
Qed.

(** An open handle for writing, taken apart. *)
Lemma writable_inv (h : CryptFile) :
  writable h = true ->
  exists d p m k n cur,
    h = mk_CryptFile (mk_pyfile d p false true) m (Some k) n cur /\
    length k = 32%nat /\ 0 <= cur.
Proof.
  destruct h as [[d p c w] m k n cur]. unfold writable.
  intros H. apply andb_prop in H as [Ho Hw].
  apply opened_inv in Ho as (Hc & (k0 & -> & Hk) & Hcur).
  cbn [fp f_closed f_writable] in Hc, Hw. subst c w.
  exists d, p, m, k0, n, cur. auto.
Qed.

(** The file and the handle after [write] of a byte string: the hole, if
    there is one, is filled, and the ciphertext of the string lies at the
    cursor, over what was there. *)
Lemma write_Buffer_file (s d : bytes) (p : Z) (m : string) (k : bytes)
    (n cur : Z) :
  length k = 32%nat -> 0 <= cur ->
  let D := d ++ fst (crypt AES_block (cryptor_at k n (len d - 16))
                       (zeros (cur + 16 - len d))) in
  let ct := fst (crypt AES_block (cryptor_at k n cur) s) in
  write AES_block (Buffer s)
    (mk_CryptFile (mk_pyfile d p false true) m (Some k) n cur) =
  (Ok tt,
   mk_CryptFile
     (mk_pyfile (written (Z.to_nat (16 + cur)) ct D) (16 + cur + len s)
        false true) m (Some k) n (cur + len s))
  /\ (Z.to_nat (16 + cur) <= length D)%nat
  /\ len D = Z.max (len d) (cur + 16)
  /\ length ct = length s.
Proof.
  intros Hk Hc D ct. split; [now apply write_Buffer_spec|].
  assert (HD : len D = Z.max (len d) (cur + 16)).
  { unfold D. rewrite len_app, crypt_len, len_zeros.
    pose proof (len_nonneg d). lia. }
  split; [unfold len in HD; lia|]. split; [exact HD|].
  apply crypt_length.
Qed.

Lemma plaintext_at_spec (d : bytes) (p : Z) (w : bool) (m : string)
    (k : bytes) (n cur a size : Z) :
  length k = 32%nat -> 0 <= a -> 0 < size ->
  plaintext_at AES_block
    (mk_CryptFile (mk_pyfile d p false w) m (Some k) n cur) a size =
  Ok (fst (crypt AES_block (cryptor_at k n a)
             (firstn (Z.to_nat size) (skipn (Z.to_nat (16 + a)) d)))).
Proof.
  intros Hk Ha Hs. unfold plaintext_at.
  now rewrite _read_spec by (trivial; lia).
Qed.

Lemma write_disk_byte (s d : bytes) (p : Z) (m : string) (k : bytes)
    (n cur : Z) (i : nat) :
  length k = 32%nat -> 0 <= cur -> (i < length s)%nat ->
  nth (Z.to_nat (16 + cur) + i)
    (f_data (fp (snd (write AES_block (Buffer s)
                        (mk_CryptFile (mk_pyfile d p false true) m (Some k)
                           n cur))))) x00 =
  byte_xor (nth i s x00) (keystream_byte AES_block k n (cur + Z.of_nat i)).
Proof.
  intros Hk Hc Hi.
  destruct (@write_Buffer_file s d p m k n cur Hk Hc) as (Hw & HP & _ & Hl).
  rewrite Hw. cbn [snd fp f_data].
  rewrite written_inside by exact HP.
  rewrite app_nth2 by (rewrite length_firstn; lia).
  rewrite length_firstn.
  replace (Z.to_nat (16 + cur) + i
           - Nat.min (Z.to_nat (16 + cur)) _)%nat with i by lia.
  rewrite app_nth1 by lia.
  now rewrite crypt_nth by exact Hi.
Qed.

(** X8. Read after write, wherever the cursor is: on a handle open for
    writing, [write] of a byte string succeeds, and going back to where the
    cursor was and reading [len(data)] bytes returns the string, whether
    the write went past the end, onto the end or over bytes that were
    there. The cursor ends [len(data)] further and the plaintext is as
    long as it was, or reaches the new cursor. *)
Theorem read_after_write (h : CryptFile) (s : bytes) :
  writable h = true ->
  exists h' : CryptFile,
    write AES_block (Buffer s) h = (Ok tt, h') /\
    fst ((seek (offset h) 0 ;; read AES_block (Some (len s))) h') = Ok s /\
    offset h' = offset h + len s /\
    plaintext_length h' =
      Z.max (plaintext_length h) (offset h + len s).
Proof.
  intros Hw. apply writable_inv in Hw
    as (d & p & m & k & n & cur & -> & Hk & Hc).
  destruct (@write_Buffer_file s d p m k n cur Hk Hc) as (Hw & HP & HD & Hl).
  cbv zeta in *.
  set (D := d ++ fst (crypt AES_block (cryptor_at k n (len d - 16))
                        (zeros (cur + 16 - len d)))) in *.
  set (ct := fst (crypt AES_block (cryptor_at k n cur) s)) in *.
  destruct (@written_slices (Z.to_nat (16 + cur)) ct D HP)
    as (Hmid & _ & _ & Hlen).
  eexists. split; [exact Hw|]. cbn [offset plaintext_length fp f_data].
  split; [|split; [reflexivity|]].
  - erewrite bind_ok by (apply seek_start; exact Hc).
    unfold set_offset. cbn [fp mode key nonce offset].
    destruct s as [|x s].
    + now rewrite read_nonpositive by (unfold len; simpl; lia).
    + rewrite read_positive by (trivial; unfold len; simpl length; lia).
      cbn [fst]. f_equal.
      replace (Z.to_nat (len (x :: s))) with (length ct)
        by (rewrite Hl; unfold len; lia).
      rewrite Hmid. apply crypt_involutive.
  - unfold plaintext_length, len in *. cbn [fp f_data].
    rewrite Hlen, Hl. lia.
Qed.

(** X9. A write changes the plaintext nowhere else: on a handle open for
    writing, every range of the plaintext that was there before the write
    and lies wholly before the cursor, or wholly after the last byte
    written, reads after the write as it read before. *)
Theorem write_leaves_other_ranges (h : CryptFile) (s : bytes) (a size : Z) :
  writable h = true ->
  0 <= a -> 0 < size -> a + size <= plaintext_length h ->
  a + size <= offset h \/ offset h + len s <= a ->
  plaintext_at AES_block (snd (write AES_block (Buffer s) h)) a size =
  plaintext_at AES_block h a size.
Proof.
  intros Hw Ha Hs Hin Hout. apply writable_inv in Hw
    as (d & p & m & k & n & cur & -> & Hk & Hc).
  unfold plaintext_length in Hin. cbn [fp f_data offset] in Hin, Hout.
  destruct (@write_Buffer_file s d p m k n cur Hk Hc) as (Hw & HP & HD & Hl).
  cbv zeta in *.
  set (D := d ++ fst (crypt AES_block (cryptor_at k n (len d - 16))
                        (zeros (cur + 16 - len d)))) in *.
  set (ct := fst (crypt AES_block (cryptor_at k n cur) s)) in *.
  destruct (@written_slices (Z.to_nat (16 + cur)) ct D HP)
    as (_ & Hbefore & Hafter & _).
  rewrite Hw. cbn [snd]. rewrite !plaintext_at_spec by assumption.
  assert (HDd : firstn (Z.to_nat size) (skipn (Z.to_nat (16 + a)) D)
                = firstn (Z.to_nat size) (skipn (Z.to_nat (16 + a)) d))
    by (unfold D; apply slice_app_l; unfold len in Hin; lia).
  destruct Hout as [Hb|Hb].
  - rewrite Hbefore by lia. now rewrite HDd.
  - rewrite Hafter by (rewrite Hl; unfold len in Hb; lia). now rewrite HDd.
Qed.

(** X10. Two writes in a row are one write of the two strings put end to
    end: the same bytes in the file, the same cursor, the same handle. *)
Theorem write_write_concat (h : CryptFile) (s1 s2 : bytes) :
  writable h = true ->
  (write AES_block (Buffer s1) ;; write AES_block (Buffer s2)) h =
  write AES_block (Buffer (s1 ++ s2)) h.
Proof.
  intros Hw. apply writable_inv in Hw
    as (d & p & m & k & n & cur & -> & Hk & Hc).
  destruct (@write_Buffer_file s1 d p m k n cur Hk Hc)
    as (Hw & HP & HD & Hl).
  cbv zeta in *.
  set (D := d ++ fst (crypt AES_block (cryptor_at k n (len d - 16))
                        (zeros (cur + 16 - len d)))) in *.
  set (ct1 := fst (crypt AES_block (cryptor_at k n cur) s1)) in *.
  destruct (@written_slices (Z.to_nat (16 + cur)) ct1 D HP)
    as (_ & _ & _ & Hlen).
  erewrite bind_ok by exact Hw.
  pose proof (len_nonneg s1) as Hs1.
  rewrite !write_Buffer_spec by (trivial; lia).
  fold D.
  rewrite (zeros_nonpositive
             (n := cur + len s1 + 16
                   - len (written (Z.to_nat (16 + cur)) ct1 D)))
    by (unfold len in *; rewrite Hlen, Hl; lia).
  rewrite crypt_nil. cbn [fst]. rewrite app_nil_r.
  rewrite crypt_app. cbn [fst]. rewrite crypt_at. fold ct1.
  replace (Z.to_nat (16 + (cur + len s1)))
    with (Z.to_nat (16 + cur) + length ct1)%nat
    by (rewrite Hl; unfold len; lia).
  rewrite written_app, len_app.
  f_equal. f_equal; [f_equal; lia|lia].
Qed.

(** X13. The bytes on disk after a write: on a handle open for writing of a
    file that has its header, byte [i] of the data lies at file position
    16 + cursor + i and is the plaintext byte xor-ed with keystream byte
    cursor + i, the byte (cursor + i) mod 16 of the AES block of counter
    (nonce + floor((cursor + i) / 16)) mod 2^128; and every position of the
    hole between the old end and the cursor holds the keystream byte of its
    offset, the encryption of a zero byte, not a zero byte. *)
Theorem write_on_disk_format (h : CryptFile) (k s : bytes) :
  writable h = true -> key h = Some k -> 0 <= plaintext_length h ->
  let h' := snd (write AES_block (Buffer s) h) in
  (forall i : nat, (i < length s)%nat ->
     nth (Z.to_nat (16 + offset h + Z.of_nat i)) (f_data (fp h')) x00 =
     byte_xor (nth i s x00)
       (keystream_byte AES_block k (nonce h) (offset h + Z.of_nat i))) /\
  (forall j : Z, plaintext_length h <= j < offset h ->
     nth (Z.to_nat (16 + j)) (f_data (fp h')) x00 =
     keystream_byte AES_block k (nonce h) j).
Proof.
  intros Hw Hkey Hpl h'. subst h'. apply writable_inv in Hw
    as (d & p & m & k0 & n & cur & -> & Hk & Hc).
  cbn [key] in Hkey. injection Hkey as ->.
  unfold plaintext_length in *. cbn [fp f_data offset nonce] in *. split.
  - intros i Hi.
    replace (Z.to_nat (16 + cur + Z.of_nat i))
      with (Z.to_nat (16 + cur) + i)%nat by lia.
    now apply write_disk_byte.
  - intros j Hj.
    destruct (@write_Buffer_file s d p m k n cur Hk Hc) as (Hw & HP & _ & _).
    cbv zeta in *. rewrite Hw. cbn [snd fp f_data].
    rewrite written_inside by exact HP.
    rewrite app_nth1 by (rewrite length_firstn; lia).
    rewrite nth_firstn.
    replace (Z.to_nat (16 + j) <? Z.to_nat (16 + cur))%nat with true
      by (symmetry; apply Nat.ltb_lt; lia).
    rewrite app_nth2 by (unfold len in *; lia).
    replace (Z.to_nat (16 + j) - length d)%nat
      with (Z.to_nat (j - (len d - 16))) by (unfold len in *; lia).
    assert (Hlt : (Z.to_nat (j - (len d - 16))
                   < length (zeros (cur + 16 - len d)))%nat).
    { unfold zeros. rewrite repeat_length. lia. }
    rewrite crypt_nth by exact Hlt.
    unfold zeros at 1. rewrite nth_repeat, byte_xor_x00_l.
    unfold keystream_byte.
    replace (len d - 16 + Z.of_nat (Z.to_nat (j - (len d - 16)))) with j
      by lia.
    reflexivity.
Qed.

(** X16. Writing a range again reuses its keystream: of two writes at the
    same cursor of the same container, the two ciphertext bytes at a
    position xor to the xor of the two plaintext bytes, so who sees the file
    before and after a rewrite learns the xor of the old and the new
    plaintext. *)
Theorem rewrite_reuses_keystream (h : CryptFile) (s1 s2 : bytes) (i : nat) :
  writable h = true -> (i < length s1)%nat -> (i < length s2)%nat ->
  let pos := Z.to_nat (16 + offset h + Z.of_nat i) in
  byte_xor
    (nth pos (f_data (fp (snd (write AES_block (Buffer s1) h)))) x00)
    (nth pos (f_data (fp (snd (write AES_block (Buffer s2) h)))) x00) =
  byte_xor (nth i s1 x00) (nth i s2 x00).
Proof.
  intros Hw H1 H2 pos. subst pos. apply writable_inv in Hw
    as (d & p & m & k & n & cur & -> & Hk & Hc).
  cbn [offset].
  replace (Z.to_nat (16 + cur + Z.of_nat i))
    with (Z.to_nat (16 + cur) + i)%nat by lia.
  rewrite !write_disk_byte by assumption.
  apply byte_xor_same_key.
Qed.

(** *** More of the code: reads in a row, shrinking, read-only handles *)

Lemma firstn_add_split (l : bytes) (A B : nat) :
  firstn (A + B) l =
  firstn A l ++ firstn B (skipn (length (firstn A l)) l).
Proof.
  revert l. induction A as [|A IH]; intros l; [reflexivity|].
  destruct l as [|x l]; [now destruct B|].
  cbn [Nat.add firstn length skipn app]. now rewrite IH.
Qed.

(** X11. Reads in a row return the bytes one read returns: on an open
    handle, [read(a)] and then [read(b)] both succeed, and what they return,
    put end to end, is what [read(a + b)] returns from the same cursor,
    which it leaves at the same place. The keystream is picked up again at
    the cursor, in the middle of a block if need be. *)
Theorem read_read_concat (h : CryptFile) (a b : Z) :
  opened h = true -> 0 <= a -> 0 <= b ->
  exists (x y : bytes) (h1 h2 h12 : CryptFile),
    read AES_block (Some a) h = (Ok x, h1) /\
    read AES_block (Some b) h1 = (Ok y, h2) /\
    read AES_block (Some (a + b)) h = (Ok (x ++ y), h12) /\
    offset h12 = offset h2.
Proof.
  destruct h as [[d p c w] m k n cur]. intros Ho Ha Hb.
  apply opened_inv in Ho as (Hc & (k0 & -> & Hk) & Hcur).
  cbn [f_closed] in Hc. subst c.
  destruct (Z.eq_dec a 0) as [->|Ha0].
  { assert (Hy : exists y h2,
                read AES_block (Some b)
                  (mk_CryptFile (mk_pyfile d p false w) m (Some k0) n cur)
                = (Ok y, h2)).
    { destruct (Z.eq_dec b 0) as [->|Hb0].
      - eexists. eexists. now apply read_nonpositive.
      - eexists. eexists. apply read_positive; trivial; lia. }
    destruct Hy as (y & h2 & Hy).
    exists [], y, (mk_CryptFile (mk_pyfile d p false w) m (Some k0) n cur),
      h2, h2.
    rewrite read_nonpositive by lia. rewrite Z.add_0_l. cbn [app]. auto. }
  set (P := Z.to_nat (16 + cur)).
  set (cta := firstn (Z.to_nat a) (skipn P d)).
  set (x := fst (crypt AES_block (cryptor_at k0 n cur) cta)).
  assert (Hra : read AES_block (Some a)
                  (mk_CryptFile (mk_pyfile d p false w) m (Some k0) n cur) =
                (Ok x, mk_CryptFile (mk_pyfile d (16 + cur + len cta) false w)
                         m (Some k0) n (cur + len x)))
    by (apply read_positive; trivial; lia).
  assert (Hlx : len x = len cta) by apply crypt_len.
  destruct (Z.eq_dec b 0) as [->|Hb0].
  { eexists x, [], _, _, _. split; [exact Hra|].
    rewrite read_nonpositive by lia. split; [reflexivity|].
    rewrite Z.add_0_r, app_nil_r. split; [exact Hra|reflexivity]. }
  set (ctb := firstn (Z.to_nat b)
                (skipn (Z.to_nat (16 + (cur + len x))) d)).
  set (y := fst (crypt AES_block (cryptor_at k0 n (cur + len x)) ctb)).
  exists x, y. eexists. eexists. eexists.
  split; [exact Hra|].
  split; [apply read_positive; trivial; pose proof (len_nonneg x); lia|].
  rewrite read_positive by (trivial; lia). cbv zeta.
  fold P.
  assert (Hsplit : firstn (Z.to_nat (a + b)) (skipn P d) = cta ++ ctb).
  { rewrite Z2Nat.inj_add by lia. rewrite firstn_add_split. fold cta.
    f_equal. unfold ctb. f_equal. rewrite skipn_skipn. f_equal.
    unfold P. rewrite Hlx. unfold len. lia. }
  rewrite Hsplit, crypt_app. cbn [fst]. rewrite crypt_at. fold x.
  rewrite <- Hlx. fold y.
  split; [reflexivity|]. cbn [offset]. rewrite len_app.
  fold ctb. fold y. lia.
Qed.

(** X12. [truncate] to a size within the plaintext, on a handle open for
    writing: the file is cut to the header and [size] bytes of ciphertext,
    nothing is encrypted again, the cursor stays where it is (past the new
    end, if it was past [size]), and every range of the plaintext before
    [size] reads as it did. *)
Theorem truncate_shrinks (h : CryptFile) (size : Z) :
  writable h = true -> 0 <= size <= plaintext_length h ->
  exists h' : CryptFile,
    truncate AES_block size h = (Ok tt, h') /\
    f_data (fp h') = firstn (Z.to_nat (size + 16)) (f_data (fp h)) /\
    plaintext_length h' = size /\
    offset h' = offset h /\
    (forall a n : Z, 0 <= a -> 0 < n -> a + n <= size ->
       plaintext_at AES_block h' a n = plaintext_at AES_block h a n).
Proof.
  intros Hw Hs. apply writable_inv in Hw
    as (d & p & m & k & n & cur & -> & Hk & Hc).
  unfold plaintext_length in *. cbn [fp f_data offset] in *.
  destruct (@truncate_spec size d p m k n cur Hk ltac:(lia)) as [p' Ht].
  replace (len d <? size + 16) with false in Ht
    by (symmetry; apply Z.ltb_ge; lia).
  eexists. split; [exact Ht|]. cbn [fp f_data offset].
  split; [reflexivity|]. split; [|split; [reflexivity|]].
  - unfold len in *. rewrite length_firstn. lia.
  - intros a sz Ha Hsz Hin. rewrite !plaintext_at_spec by assumption.
    now rewrite slice_firstn by lia.
Qed.

Lemma NullStream_iter_cons (size : Z) :
  0 < size -> exists b rest, NullStream_iter size = b :: rest.
Proof.
  intros Hs. funelim (NullStream_iter size); [lia|eauto|eauto].
Qed.

Lemma _write_read_only (data : wdata) (d : bytes) (p off : Z) (m : string)
    (k : bytes) (n cur : Z) :
  length k = 32%nat -> 0 <= 16 + off ->
  (forall blocks, data = Stream blocks -> blocks <> []) ->
  _write AES_block data off
    (mk_CryptFile (mk_pyfile d p false false) m (Some k) n cur) =
  (Raise not_writable,
   mk_CryptFile (mk_pyfile d (16 + off) false false) m (Some k) n cur).
Proof.
  intros Hk Ho Hne. unfold _write, bind.
  rewrite (@_get_AES_at_ok off true _ k) by (cbn [key]; trivial).
  unfold on_fp at 1. unfold file_seek, HEADER_SIZE.
  cbn [fp f_closed f_pos f_data Z.eqb]. rewrite Z.add_0_l.
  replace (16 + off <? 0) with false by (symmetry; apply Z.ltb_ge; lia).
  unfold set_pos, set_fp. cbn [fp f_closed f_pos f_data f_writable mode key
                               nonce offset].
  destruct data as [s|[|b rest]].
  - reflexivity.
  - now destruct (Hne [] eq_refl).
  - cbn [write_blocks]. destruct (encrypt AES_block _ b) as [ct c1].
    reflexivity.
Qed.

(** X14. A handle on a file opened 'rb' never changes the file: [write] of
    a byte string and [truncate] raise IOError ("File not open for
    writing"), also when the string is empty or the size is the size the
    file has, and leave the bytes of the file and the cursor as they were. *)
Theorem read_only_handle_never_writes (h : CryptFile) (s : bytes) (size : Z) :
  opened h = true -> f_writable (fp h) = false ->
  let hw := write AES_block (Buffer s) h in
  let ht := truncate AES_block size h in
  fst hw = Raise (IOError "File not open for writing") /\
  f_data (fp (snd hw)) = f_data (fp h) /\ offset (snd hw) = offset h /\
  fst ht = Raise (IOError "File not open for writing") /\
  f_data (fp (snd ht)) = f_data (fp h) /\ offset (snd ht) = offset h.
Proof.
  destruct h as [[d p c w] m k n cur]. intros Ho Hw.
  apply opened_inv in Ho as (Hc & (k0 & -> & Hk) & Hcur).
  cbn [fp f_closed f_writable] in Hc, Hw. subst c w. cbv zeta.
  assert (Hwrite : write AES_block (Buffer s)
                     (mk_CryptFile (mk_pyfile d p false false) m (Some k0)
                        n cur) =
                   (Raise not_writable,
                    mk_CryptFile
                      (mk_pyfile d (if len d <? cur + 16 then 16 + (len d - 16)
                                    else 16 + cur) false false)
                      m (Some k0) n cur)).
  { unfold write.
    rewrite (bind_ok _ _ _
               (s' := mk_CryptFile (mk_pyfile d (len d) false false)
                        m (Some k0) n cur) (a := tt)).
    2:{ unfold on_fp, file_seek.
        cbn [fp f_closed f_pos f_data Z.eqb Pos.eqb]. rewrite Z.add_0_r.
        replace (len d <? 0) with false
          by (symmetry; apply Z.ltb_ge; apply len_nonneg).
        reflexivity. }
    rewrite (bind_ok _ _ _
               (s' := mk_CryptFile (mk_pyfile d (len d) false false)
                        m (Some k0) n cur) (a := len d)) by reflexivity.
    rewrite (bind_ok _ _ _
               (s' := mk_CryptFile (mk_pyfile d (len d) false false)
                        m (Some k0) n cur) (a := cur)) by reflexivity.
    unfold HEADER_SIZE. destruct (len d <? cur + 16) eqn:E.
    - apply Z.ltb_lt in E. apply bind_raise.
      apply _write_read_only; trivial; [pose proof (len_nonneg d); lia|].
      intros blocks Hb. injection Hb as <-.
      destruct (@NullStream_iter_cons (cur + 16 - len d) ltac:(lia))
        as (b & rest & ->).
      discriminate.
    - rewrite (bind_ok _ _ _
                 (s' := mk_CryptFile (mk_pyfile d (len d) false false)
                          m (Some k0) n cur) (a := tt)) by reflexivity.
      rewrite (bind_ok _ _ _
                 (s' := mk_CryptFile (mk_pyfile d (len d) false false)
                          m (Some k0) n cur) (a := cur)) by reflexivity.
      apply bind_raise.
      apply _write_read_only; trivial; [lia|discriminate]. }
  assert (Htrunc : truncate AES_block size
                     (mk_CryptFile (mk_pyfile d p false false) m (Some k0)
                        n cur) =
                   (Raise not_writable,
                    mk_CryptFile (mk_pyfile d (len d) false false)
                      m (Some k0) n cur)).
  { unfold truncate. erewrite bind_ok by apply _get_file_size_spec.
    apply bind_raise. reflexivity. }
  rewrite Hwrite, Htrunc. cbn [fst snd fp f_data offset]. auto 10.
Qed.

(** X15. [close()] and [__exit__] never raise and can be called again: the
    file object is closed and the key dropped, the bytes of the file, the
    cursor and the nonce stay, a second [close()] changes nothing, and
    [__exit__] returns [False] whatever exception it is told of, so that the
    exception goes on. [__enter__] hands back the handle as it is. *)
Theorem close_is_idempotent (h : CryptFile) (exc : option exn) :
  let hc := snd (close h) in
  close h = (Ok tt, hc) /\
  f_closed (fp hc) = true /\ key hc = None /\
  f_data (fp hc) = f_data (fp h) /\ offset hc = offset h /\
  nonce hc = nonce h /\
  close hc = (Ok tt, hc) /\
  __exit__ exc h = (Ok false, hc) /\
  __exit__ exc hc = (Ok false, hc) /\
  __enter__ h = (Ok h, h).
Proof. destruct h as [[d p c w] m k n cur]. cbv zeta. repeat split. Qed.

(** X17. Streaming: on a handle whose file is open for writing, [_write]
    given an iterator over blocks encrypts and writes them with one cipher
    object, and leaves the file and the handle exactly as [_write] of the
    blocks put end to end does, with the same result, however the data is
    cut into blocks; the null stream of [size] bytes is written as [size]
    zero bytes are. *)
Theorem _write_stream_as_one_string (blocks : list bytes) (size off : Z)
    (h : CryptFile) :
  f_writable (fp h) = true ->
  _write AES_block (Stream blocks) off h =
    _write AES_block (Buffer (concat blocks)) off h /\
  _write AES_block (NullStream size) off h =
    _write AES_block (Buffer (zeros size)) off h.
Proof.
  intros Hw. split; [now apply _write_Stream_concat|].
  now apply _write_NullStream.
Qed.

(** *** More of the code: growing and shrinking, sessions *)

(** X18. Growing a container by [truncate] and growing it by a write of
    nothing past the end are the same thing for the file: on a handle open
    for writing of a file that has its header, [truncate(size)] with [size]
    past the plaintext length leaves the bytes that [seek(size)] and
    [write("")] leave. *)
Theorem truncate_same_as_empty_write_past_end (h : CryptFile) (size : Z) :
  writable h = true -> 0 <= plaintext_length h < size ->
  f_data (fp (snd (truncate AES_block size h))) =
  f_data (fp (snd ((seek size 0 ;; write AES_block (Buffer [])) h))).
Proof.
  intros Hw Hs. apply writable_inv in Hw
    as (d & p & m & k & n & cur & -> & Hk & Hc).
  unfold plaintext_length in Hs. cbn [fp f_data] in Hs.
  destruct (@truncate_spec size d p m k n cur Hk ltac:(lia)) as [p' Ht].
  rewrite Ht. cbn [snd fp f_data].
  replace (len d <? size + 16) with true by (symmetry; apply Z.ltb_lt; lia).
  erewrite bind_ok by (apply seek_start; lia).
  unfold set_offset. cbn [fp mode key nonce offset].
  rewrite write_Buffer_spec by (trivial; lia). cbn [snd fp f_data].
  rewrite crypt_nil. cbn [fst written]. reflexivity.
Qed.

(** X19. Growing and cutting back: on a handle open for writing of a file
    that has its header, [truncate] to a size past the end and then
    [truncate] to the plaintext length there was give back the file byte
    for byte. *)
Theorem truncate_grow_then_back (h : CryptFile) (size : Z) :
  writable h = true -> 0 <= plaintext_length h <= size ->
  exists h' : CryptFile,
    (truncate AES_block size ;; truncate AES_block (plaintext_length h)) h
      = (Ok tt, h') /\
    f_data (fp h') = f_data (fp h) /\ offset h' = offset h.
Proof.
  intros Hw Hs. apply writable_inv in Hw
    as (d & p & m & k & n & cur & -> & Hk & Hc).
  unfold plaintext_length in *. cbn [fp f_data offset] in *.
  destruct (@truncate_spec size d p m k n cur Hk ltac:(lia)) as [p1 Ht1].
  erewrite bind_ok by exact Ht1.
  set (d1 := if len d <? size + 16
             then d ++ fst (crypt AES_block (cryptor_at k n (len d - 16))
                              (zeros (size + 16 - len d)))
             else firstn (Z.to_nat (size + 16)) d) in *.
  assert (Hd1 : firstn (length d) d1 = d /\ len d <= len d1).
  { unfold d1. destruct (len d <? size + 16) eqn:E.
    - rewrite firstn_app, firstn_all, Nat.sub_diag, firstn_O, app_nil_r.
      split; [reflexivity|]. rewrite len_app. pose proof (len_nonneg
        (fst (crypt AES_block (cryptor_at k n (len d - 16))
                (zeros (size + 16 - len d))))). lia.
    - apply Z.ltb_ge in E. rewrite (@firstn_all2 _ (Z.to_nat (size + 16)) d)
        by (unfold len in *; lia).
      split; [apply firstn_all|lia]. }
  destruct Hd1 as [Hf Hl].
  destruct (@truncate_spec (len d - 16) d1 p1 m k n cur Hk ltac:(lia))
    as [p2 Ht2].
  eexists. split; [exact Ht2|]. cbn [fp f_data offset].
  split; [|reflexivity].
  replace (len d1 <? len d - 16 + 16) with false
    by (symmetry; apply Z.ltb_ge; lia).
  replace (Z.to_nat (len d - 16 + 16)) with (length d) by (unfold len; lia).
  exact Hf.
Qed.

(** No method but [close] assigns the key. *)
Lemma has_key_on_fp {A : Type} (k : option bytes) (m : M pyfile A) :
  Preserves (has_key k) (on_fp m).
Proof.
  intros h H. unfold on_fp. destruct (m (fp h)) as [r f]. exact H.
Qed.

Lemma has_key_set_offset (k : option bytes) (o : Z) :
  Preserves (has_key k) (modify (set_offset o)).
Proof. intros h H. exact H. Qed.

#[local] Hint Resolve has_key_on_fp has_key_set_offset : preserves.

Lemma has_key__get_AES_at (k : option bytes) (o : Z) (e : bool) :
  Preserves (has_key k) (_get_AES_at AES_block o e).
Proof. intros h H. now rewrite _get_AES_at_state. Qed.

Lemma has_key_write_blocks (k : option bytes) (blocks : list bytes) :
  forall c, Preserves (has_key k) (write_blocks AES_block c blocks).
Proof.
  induction blocks as [|b r IH]; intros c; cbn [write_blocks].
  - preserves.
  - destruct (encrypt AES_block c b) as [ct c1]. preserves.
Qed.

Lemma has_key__write (k : option bytes) (data : wdata) (o : Z) :
  Preserves (has_key k) (_write AES_block data o).
Proof.
  pose proof (@has_key__get_AES_at k) as Hp1.
  pose proof (@has_key_write_blocks k) as Hp2.
  unfold _write. preserves.
Qed.

Lemma has_key_after_calls (cs : list call) : forall h : CryptFile,
  key (after_calls AES_block cs h) = key h.
Proof.
  induction cs as [|c cs IH]; intros h; [reflexivity|].
  unfold after_calls. cbn [fold_left].
  fold (after_calls AES_block cs (after_call AES_block c h)). rewrite IH.
  pose proof (@has_key__get_AES_at (key h)) as Hp1.
  pose proof (@has_key__write (key h)) as Hp2.
  destruct c as [o w| |size|data|size]; cbn [after_call].
  - assert (Hp : Preserves (has_key (key h)) (seek o w))
      by (unfold seek, _get_file_size; preserves).
    now apply Hp.
  - reflexivity.
  - assert (Hp : Preserves (has_key (key h)) (read AES_block size))
      by (unfold read, _read, _get_file_size; preserves).
    now apply Hp.
  - assert (Hp : Preserves (has_key (key h)) (write AES_block data))
      by (unfold write, py_len; preserves).
    now apply Hp.
  - assert (Hp : Preserves (has_key (key h)) (truncate AES_block size))
      by (unfold truncate, _get_file_size; preserves).
    now apply Hp.
Qed.

(** X20. A container reads the same in the next session: after
    [CryptFile(path, key, mode)] and any sequence of calls (with no
    [truncate] to a size from -16 to -1), closing the handle and opening
    the file again with the same key, in 'rb' or 'r+b', gives a handle on
    which every range of the plaintext reads as it read on the old handle
    before it was closed. *)
Theorem reopened_container_reads_the_same (disk : option bytes)
    (rnd rnd' k : bytes) (m m' : string) (h : CryptFile) (cs : list call)
    (a size : Z) :
  CryptFile_init disk rnd k m = Ok h ->
  forallb keeps_header cs = true ->
  m' = "rb" \/ m' = "r+b" -> 0 <= a ->
  let h1 := after_calls AES_block cs h in
  exists h2 : CryptFile,
    CryptFile_init (Some (f_data (fp (snd (close h1))))) rnd' k m' = Ok h2 /\
    plaintext_length h2 = plaintext_length h1 /\
    plaintext_at AES_block h2 a size = plaintext_at AES_block h1 a size.
Proof.
  intros Hi Hcs Hm' Ha h1.
  assert (Hk : length k = 32%nat).
  { unfold CryptFile_init in Hi.
    destruct (length k =? 32)%nat eqn:E; [now apply Nat.eqb_eq|discriminate]. }
  assert (Hkey : key h = Some k).
  { unfold CryptFile_init in Hi.
    destruct (negb (length k =? 32)%nat); [discriminate|].
    destruct (negb _); [discriminate|].
    destruct (open disk m) as [f0|e]; [|discriminate].
    match type of Hi with
    | context [let (r, f1) := ?mm f0 in _] =>
        destruct (mm f0) as [[s|e] f1]; [|discriminate]
    end.
    destruct (_unpack_uint128 s) as [n|e]; [|discriminate].
    injection Hi as <-. reflexivity. }
  pose proof (@CryptFile_init_header _ _ _ _ _ Hi) as Hn.
  pose proof (@CryptFile_init_Ok _ _ _ _ _ Hi) as [Ho Hh].
  assert (Hhdr : has_header (firstn 16 (f_data (fp h))) h1)
    by (apply has_header_after_calls; trivial; now split).
  assert (Ho1 : is_opened h1) by now apply is_opened_after_calls.
  assert (Hk1 : key h1 = Some k)
    by (unfold h1; now rewrite has_key_after_calls).
  assert (Hn1 : nonce h1 = nonce h) by apply has_nonce_after_calls.
  destruct Hhdr as [Hf Hl].
  assert (Hd1 : f_data (fp (snd (close h1))) = f_data (fp h1))
    by reflexivity.
  rewrite Hd1.
  assert (Hnonce : le_value (firstn 16 (f_data (fp h1))) = nonce h1).
  { rewrite Hf, Hn1. rewrite _unpack_uint128_cases in Hn.
    destruct (length (firstn 16 (f_data (fp h))) =? 16)%nat;
      [|discriminate].
    now injection Hn. }
  destruct h1 as [[d1 p1 c1 w1] m1 k1 n1 cur1].
  apply opened_inv in Ho1 as (Hc1 & _ & Hcur1).
  cbn [fp f_data f_closed key nonce] in *. subst c1 k1.
  rewrite CryptFile_init_existing; trivial;
    try (destruct Hm' as [-> | ->]; reflexivity).
  replace (16 <=? length d1)%nat with true
    by (symmetry; apply Nat.leb_le; unfold len in Hl; lia).
  eexists. split; [reflexivity|]. split; [reflexivity|].
  rewrite Hnonce.
  destruct (Z_lt_le_dec 0 size) as [Hs|Hs].
  - now rewrite !plaintext_at_spec by assumption.
  - unfold plaintext_at. now rewrite !_read_nonpositive by exact Hs.
Qed.

(** *** More of the code: the cursor *)

(** [seek] on an open file, in one equation: the size query of whence 2
    moves the position of the file object, nothing else changes but the
    cursor. *)
Lemma seek_spec (d : bytes) (p : Z) (w : bool) (m : string)
    (k : option bytes) (n cur o wh : Z) :
  wh = 0 \/ wh = 1 \/ wh = 2 ->
  seek o wh (mk_CryptFile (mk_pyfile d p false w) m k n cur) =
  let t := if wh =? 0 then o
           else if wh =? 1 then cur + o else len d - 16 + o in
  let p1 := if wh =? 2 then len d else p in
  if t <? 0
  then (Raise (IOError "Invalid offset"),
        mk_CryptFile (mk_pyfile d p1 false w) m k n cur)
  else (Ok tt, mk_CryptFile (mk_pyfile d p1 false w) m k n t).
Proof.
  unfold seek, HEADER_SIZE.
  intros [-> | [-> | ->]]; cbn [Z.eqb Pos.eqb]; unfold bind.
  - unfold ret. destruct (o <? 0); reflexivity.
  - unfold gets, ret. cbn [offset]. destruct (cur + o <? 0); reflexivity.
  - rewrite _get_file_size_spec. unfold ret.
    destruct (len d - 16 + o <? 0); reflexivity.
Qed.

(** X21. The cursor is a plain number: on a handle whose file is open, a
    [seek] that succeeds followed by [tell] returns the target of the seek
    (the offset itself, the cursor plus the offset, or the plaintext length
    plus the offset), and following it with a relative seek by [d] that
    stays at or above 0 is the one seek by [offset + d], to the same handle
    state. *)
Theorem seek_then_tell_and_relative_seek (h : CryptFile) (o d w : Z) :
  f_closed (fp h) = false ->
  w = 0 \/ w = 1 \/ w = 2 ->
  0 <= seek_target h o w -> 0 <= seek_target h o w + d ->
  fst ((seek o w ;; tell) h) = Ok (seek_target h o w) /\
  (seek o w ;; seek d 1) h = seek (o + d) w h.
Proof.
  destruct h as [[dd p c wr] m k n cur]. cbn [fp f_closed].
  intros -> Hw. unfold seek_target, plaintext_length.
  cbn [fp f_data offset]. intros Ht Htd.
  unfold bind. rewrite !seek_spec by (trivial; now right; left).
  cbv zeta.
  destruct Hw as [-> | [-> | ->]]; cbn [Z.eqb Pos.eqb] in *.
  - replace (o <? 0) with false by (symmetry; apply Z.ltb_ge; lia).
    replace (o + d <? 0) with false by (symmetry; apply Z.ltb_ge; lia).
    split; [reflexivity|].
    rewrite seek_spec by (right; now left). cbv zeta. cbn [Z.eqb Pos.eqb].
    now replace (o + d <? 0) with false by (symmetry; apply Z.ltb_ge; lia).
  - replace (cur + o <? 0) with false by (symmetry; apply Z.ltb_ge; lia).
    replace (cur + (o + d) <? 0) with false
      by (symmetry; apply Z.ltb_ge; lia).
    split; [reflexivity|].
    rewrite seek_spec by (right; now left). cbv zeta. cbn [Z.eqb Pos.eqb].
    replace (cur + o + d <? 0) with false by (symmetry; apply Z.ltb_ge; lia).
    do 2 f_equal. lia.
  - replace (len dd - 16 + o <? 0) with false
      by (symmetry; apply Z.ltb_ge; lia).
    replace (len dd - 16 + (o + d) <? 0) with false
      by (symmetry; apply Z.ltb_ge; lia).
    split; [reflexivity|].
    rewrite seek_spec by (right; now left). cbv zeta. cbn [Z.eqb Pos.eqb].
    replace (len dd - 16 + o + d <? 0) with false
      by (symmetry; apply Z.ltb_ge; lia).
    do 2 f_equal. lia.
Qed.

End Properties.

(** ** The theorems at concrete inputs

    The container is run with [toy_block] for the block function, [key0] for
    the key and [rnd0] for the nonce, so that the counter wraps around at the
    second block. *)

Lemma write_close_reopen_read_witness :
  length key0 = 32%nat /\ length rnd0 = 16%nat /\
  exists h0 h1 h2 h3 : CryptFile,
    CryptFile_init None rnd0 key0 "w+b" = Ok h0 /\
    write toy_block (Buffer [x68; x69]) h0 = (Ok tt, h1) /\
    close h1 = (Ok tt, h2) /\
    CryptFile_init (Some (f_data (fp h2))) rnd0 key0 "rb" = Ok h3 /\
    fst (read toy_block (Some (len [x68; x69])) h3) = Ok [x68; x69] /\
    fst (read toy_block None h3) = Ok [x68; x69].
Proof.
  split; [reflexivity|]. split; [reflexivity|].
  apply (@write_close_reopen_read toy_block None rnd0 rnd0 key0 [x68; x69]);
    reflexivity.
Defined.

Lemma get_AES_at_counter_witness :
  key fresh0 = Some key0 /\ length key0 = 32%nat /\
  nonce fresh0 = 2 ^ 128 - 1 /\
  _get_AES_at toy_block 20 true fresh0 = (Ok (mk_cryptor key0 0 4), fresh0).
Proof.
  split; [reflexivity|]. split; [reflexivity|]. split; [reflexivity|].
  destruct (@get_AES_at_counter toy_block fresh0 key0 20 true
              eq_refl eq_refl)
    as (_ & _ & _ & _ & Hget & Hc1 & _).
  rewrite Hget, Hc1. reflexivity.
Defined.

Lemma write_fills_hole_witness :
  length key0 = 32%nat /\ length rnd0 = 16%nat /\
  exists h0 : CryptFile,
    CryptFile_init None rnd0 key0 "w+b" = Ok h0 /\
    fst ((seek 100 0 ;;
          write toy_block (Buffer [x58; x58; x58; x58; x58]) ;;
          seek 0 0 ;;
          read toy_block (Some 105)) h0)
    = Ok (zeros 100 ++ [x58; x58; x58; x58; x58]).
Proof.
  split; [reflexivity|]. split; [reflexivity|].
  apply (@write_fills_hole toy_block None rnd0 key0); reflexivity.
Defined.

Lemma truncate_extends_with_zeros_witness :
  length key0 = 32%nat /\ length rnd0 = 16%nat /\ 0 <= 5 /\
  exists h0 : CryptFile,
    CryptFile_init None rnd0 key0 "w+b" = Ok h0 /\
    fst ((truncate toy_block 5 ;; read toy_block (Some 5)) h0)
    = Ok (zeros 5).
Proof.
  split; [reflexivity|]. split; [reflexivity|]. split; [lia|].
  apply (@truncate_extends_with_zeros toy_block None rnd0 key0 5);
    [reflexivity|reflexivity|lia].
Defined.

Lemma read_clamps_witness :
  opened fresh0 = true /\
  exists (data : bytes) (h' : CryptFile),
    read toy_block (Some 3) fresh0 = (Ok data, h') /\
    len data = Z.max 0 (Z.min 3 (plaintext_length fresh0 - offset fresh0)) /\
    (plaintext_length fresh0 <= offset fresh0 -> data = []) /\
    offset h' = offset fresh0 + len data /\
    f_data (fp h') = f_data (fp fresh0).
Proof.
  split; [reflexivity|].
  apply (@read_clamps toy_block fresh0 (Some 3)). reflexivity.
Defined.

Lemma seek_invalid_offset_iff_witness :
  f_closed (fp fresh0) = false /\
  seek (-3) 1 fresh0 = (Raise (IOError "Invalid offset"), fresh0) /\
  seek 7 2 fresh0 =
    (Ok tt, set_offset 7 (set_fp (set_pos 16 (fp fresh0)) fresh0)).
Proof.
  split; [reflexivity|]. split.
  - destruct (@seek_invalid_offset_iff fresh0 (-3) 1 eq_refl
                (or_intror (or_introl eq_refl)))
      as (_ & Hneg & _).
    destruct (Hneg ltac:(vm_compute; reflexivity)) as [Hs _]. exact Hs.
  - destruct (@seek_invalid_offset_iff fresh0 7 2 eq_refl
                (or_intror (or_intror eq_refl)))
      as (_ & _ & Hpos).
    apply Hpos. vm_compute. discriminate.
Defined.

Lemma read_nonpositive_size_witness :
  -2 <= 0 /\
  read toy_block (Some (-2)) fresh0 = (Ok [], fresh0) /\
  _read toy_block (Some (-2)) (offset fresh0) fresh0 = (Ok [], fresh0).
Proof.
  split; [lia|].
  apply (@read_nonpositive_size toy_block fresh0 (-2)). lia.
Defined.

Lemma _unpack_then_pack_uint128_witness :
  length rnd0 = 16%nat /\
  exists n : Z,
    _unpack_uint128 rnd0 = Ok n /\ 0 <= n < 2 ^ 128 /\
    _pack_uint128 n = Ok rnd0.
Proof.
  split; [reflexivity|].
  apply (@_unpack_then_pack_uint128 rnd0). reflexivity.
Defined.

Lemma _wrapsum_uint128_wraps_witness :
  0 <= 2 ^ 128 - 1 < 2 ^ 128 /\ 0 <= 2 < 2 ^ 128 /\
  _wrapsum_uint128 (2 ^ 128 - 1) 2 = 1 /\
  _wrapsum_uint128 (_wrapsum_uint128 (2 ^ 128 - 1) 2) 5 =
    _wrapsum_uint128 (2 ^ 128 - 1) (2 + 5).
Proof.
  split; [lia|]. split; [lia|].
  destruct (@_wrapsum_uint128_wraps (2 ^ 128 - 1) 2 5
              ltac:(lia) ltac:(lia)) as (_ & Hsum & Hadd & _).
  split; [rewrite Hsum; reflexivity|exact Hadd].
Defined.

Lemma CryptFile_init_outcome_witness :
  length rnd0 = 16%nat /\
  CryptFile_init (Some [x01; x02]) rnd0 key0 "r+b" =
    Raise (StructError "unpack requires a string argument of length 8") /\
  CryptFile_init (Some [x01; x02]) rnd0 key0 "w+b" = Ok fresh0.
Proof.
  split; [reflexivity|]. split.
  - rewrite (@CryptFile_init_outcome (Some [x01; x02]) rnd0 key0 "r+b"
               eq_refl).
    reflexivity.
  - rewrite (@CryptFile_init_outcome (Some [x01; x02]) rnd0 key0 "w+b"
               eq_refl).
    reflexivity.
Defined.

Lemma nonce_survives_calls_and_reopen_witness :
  CryptFile_init None rnd0 key0 "w+b" = Ok fresh0 /\
  forallb keeps_header calls0 = true /\
  length key0 = 32%nat /\
  let h1 := snd (close (after_calls toy_block calls0 fresh0)) in
  firstn 16 (f_data (fp h1)) = firstn 16 (f_data (fp fresh0)) /\
  exists h2 : CryptFile,
    CryptFile_init (Some (f_data (fp h1))) rnd0 key0 "rb" = Ok h2 /\
    nonce h2 = nonce fresh0 /\
    f_data (fp h2) = f_data (fp h1) /\
    offset h2 = 0.
Proof.
  split; [reflexivity|]. split; [reflexivity|]. split; [reflexivity|].
  apply (@nonce_survives_calls_and_reopen toy_block None rnd0 rnd0 key0 key0
           "w+b" "rb" fresh0 calls0);
    [reflexivity|reflexivity|reflexivity|left; reflexivity].
Defined.

Lemma read_after_write_witness :
  writable stored0 = true /\
  exists h' : CryptFile,
    write toy_block (Buffer [x41; x42]) stored0 = (Ok tt, h') /\
    fst ((seek (offset stored0) 0 ;;
          read toy_block (Some (len [x41; x42]))) h') = Ok [x41; x42] /\
    offset h' = offset stored0 + len [x41; x42] /\
    plaintext_length h' =
      Z.max (plaintext_length stored0) (offset stored0 + len [x41; x42]).
Proof.
  split; [reflexivity|].
  apply (@read_after_write toy_block stored0 [x41; x42]). reflexivity.
Defined.

Lemma write_leaves_other_ranges_witness :
  writable stored0 = true /\ 4 + 2 <= plaintext_length stored0 /\
  offset stored0 + len [x41; x42] <= 4 /\
  plaintext_at toy_block
    (snd (write toy_block (Buffer [x41; x42]) stored0)) 4 2 =
  plaintext_at toy_block stored0 4 2.
Proof.
  split; [reflexivity|].
  split; [vm_compute; discriminate|]. split; [vm_compute; discriminate|].
  apply (@write_leaves_other_ranges toy_block stored0 [x41; x42] 4 2);
    [reflexivity|lia|lia|vm_compute; discriminate
    |right; vm_compute; discriminate].
Defined.

Lemma write_write_concat_witness :
  writable stored0 = true /\
  (write toy_block (Buffer [x41]) ;;
   write toy_block (Buffer [x42; x43])) stored0 =
  write toy_block (Buffer ([x41] ++ [x42; x43])) stored0.
Proof.
  split; [reflexivity|].
  apply (@write_write_concat toy_block stored0 [x41] [x42; x43]).
  reflexivity.
Defined.

Lemma read_read_concat_witness :
  opened readonly0 = true /\ 0 <= 3 /\ 0 <= 2 /\
  exists (x y : bytes) (h1 h2 h12 : CryptFile),
    read toy_block (Some 3) readonly0 = (Ok x, h1) /\
    read toy_block (Some 2) h1 = (Ok y, h2) /\
    read toy_block (Some (3 + 2)) readonly0 = (Ok (x ++ y), h12) /\
    offset h12 = offset h2.
Proof.
  split; [reflexivity|]. split; [lia|]. split; [lia|].
  apply (@read_read_concat toy_block readonly0 3 2); [reflexivity|lia|lia].
Defined.

Lemma truncate_shrinks_witness :
  writable stored0 = true /\ 0 <= 3 <= plaintext_length stored0 /\
  exists h' : CryptFile,
    truncate toy_block 3 stored0 = (Ok tt, h') /\
    f_data (fp h') = firstn (Z.to_nat (3 + 16)) (f_data (fp stored0)) /\
    plaintext_length h' = 3 /\
    offset h' = offset stored0 /\
    (forall a n : Z, 0 <= a -> 0 < n -> a + n <= 3 ->
       plaintext_at toy_block h' a n = plaintext_at toy_block stored0 a n).
Proof.
  split; [reflexivity|].
  split; [split; [lia|vm_compute; discriminate]|].
  apply (@truncate_shrinks toy_block stored0 3);
    [reflexivity|split; [lia|vm_compute; discriminate]].
Defined.

Lemma write_on_disk_format_witness :
  let h := snd (seek 20 0 stored0) in
  writable h = true /\ key h = Some key0 /\ 0 <= plaintext_length h /\
  let h' := snd (write toy_block (Buffer [x41; x42]) h) in
  (forall i : nat, (i < length [x41; x42])%nat ->
     nth (Z.to_nat (16 + offset h + Z.of_nat i)) (f_data (fp h')) x00 =
     byte_xor (nth i [x41; x42] x00)
       (keystream_byte toy_block key0 (nonce h) (offset h + Z.of_nat i))) /\
  (forall j : Z, plaintext_length h <= j < offset h ->
     nth (Z.to_nat (16 + j)) (f_data (fp h')) x00 =
     keystream_byte toy_block key0 (nonce h) j).
Proof.
  intros h.
  split; [reflexivity|]. split; [reflexivity|].
  split; [vm_compute; discriminate|].
  apply (@write_on_disk_format toy_block h key0 [x41; x42]);
    [reflexivity|reflexivity|vm_compute; discriminate].
Defined.

Lemma rewrite_reuses_keystream_witness :
  writable stored0 = true /\
  (1 < length [x41; x42])%nat /\ (1 < length [x43; x44; x45])%nat /\
  let pos := Z.to_nat (16 + offset stored0 + Z.of_nat 1) in
  byte_xor
    (nth pos (f_data (fp (snd (write toy_block (Buffer [x41; x42])
                                 stored0)))) x00)
    (nth pos (f_data (fp (snd (write toy_block (Buffer [x43; x44; x45])
                                 stored0)))) x00) =
  byte_xor (nth 1 [x41; x42] x00) (nth 1 [x43; x44; x45] x00).
Proof.
  split; [reflexivity|]. split; [simpl; lia|]. split; [simpl; lia|].
  apply (@rewrite_reuses_keystream toy_block stored0 [x41; x42]
           [x43; x44; x45] 1); [reflexivity|simpl; lia|simpl; lia].
Defined.

Lemma read_only_handle_never_writes_witness :
  opened readonly0 = true /\ f_writable (fp readonly0) = false /\
  let hw := write toy_block (Buffer [x41]) readonly0 in
  let ht := truncate toy_block 3 readonly0 in
  fst hw = Raise (IOError "File not open for writing") /\
  f_data (fp (snd hw)) = f_data (fp readonly0) /\
  offset (snd hw) = offset readonly0 /\
  fst ht = Raise (IOError "File not open for writing") /\
  f_data (fp (snd ht)) = f_data (fp readonly0) /\
  offset (snd ht) = offset readonly0.
Proof.
  split; [reflexivity|]. split; [reflexivity|].
  apply (@read_only_handle_never_writes toy_block readonly0 [x41] 3);
    reflexivity.
Defined.

Lemma _write_stream_as_one_string_witness :
  f_writable (fp stored0) = true /\
  _write toy_block (Stream [[x41]; [x42; x43]]) 2 stored0 =
    _write toy_block (Buffer (concat [[x41]; [x42; x43]])) 2 stored0 /\
  _write toy_block (NullStream 5) 2 stored0 =
    _write toy_block (Buffer (zeros 5)) 2 stored0.
Proof.
  split; [reflexivity|].
  apply (@_write_stream_as_one_string toy_block [[x41]; [x42; x43]] 5 2
           stored0).
  reflexivity.
Defined.

Lemma truncate_same_as_empty_write_past_end_witness :
  writable stored0 = true /\ 0 <= plaintext_length stored0 < 9 /\
  f_data (fp (snd (truncate toy_block 9 stored0))) =
  f_data (fp (snd ((seek 9 0 ;; write toy_block (Buffer [])) stored0))).
Proof.
  split; [reflexivity|].
  split; [split; [vm_compute; discriminate|vm_compute; reflexivity]|].
  apply (@truncate_same_as_empty_write_past_end toy_block stored0 9);
    [reflexivity|split; [vm_compute; discriminate|vm_compute; reflexivity]].
Defined.

Lemma truncate_grow_then_back_witness :
  writable stored0 = true /\ 0 <= plaintext_length stored0 <= 9 /\
  exists h' : CryptFile,
    (truncate toy_block 9 ;;
     truncate toy_block (plaintext_length stored0)) stored0 = (Ok tt, h') /\
    f_data (fp h') = f_data (fp stored0) /\ offset h' = offset stored0.
Proof.
  split; [reflexivity|].
  split; [split; vm_compute; discriminate|].
  apply (@truncate_grow_then_back toy_block stored0 9);
    [reflexivity|split; vm_compute; discriminate].
Defined.

Lemma reopened_container_reads_the_same_witness :
  CryptFile_init None rnd0 key0 "w+b" = Ok fresh0 /\
  forallb keeps_header calls0 = true /\ 0 <= 1 /\
  let h1 := after_calls toy_block calls0 fresh0 in
  exists h2 : CryptFile,
    CryptFile_init (Some (f_data (fp (snd (close h1))))) rnd0 key0 "r+b"
      = Ok h2 /\
    plaintext_length h2 = plaintext_length h1 /\
    plaintext_at toy_block h2 1 4 = plaintext_at toy_block h1 1 4.
Proof.
  split; [reflexivity|]. split; [reflexivity|]. split; [lia|].
  apply (@reopened_container_reads_the_same toy_block None rnd0 rnd0 key0
           "w+b" "r+b" fresh0 calls0 1 4);
    [reflexivity|reflexivity|right; reflexivity|lia].
Defined.

Lemma seek_then_tell_and_relative_seek_witness :
  f_closed (fp stored0) = false /\
  0 <= seek_target stored0 (-1) 2 /\ 0 <= seek_target stored0 (-1) 2 + (-3) /\
  fst ((seek (-1) 2 ;; tell) stored0) = Ok 5 /\
  (seek (-1) 2 ;; seek (-3) 1) stored0 = seek (-1 + -3) 2 stored0.
Proof.
  split; [reflexivity|].
  split; [vm_compute; discriminate|]. split; [vm_compute; discriminate|].
  apply (@seek_then_tell_and_relative_seek stored0 (-1) (-3) 2);
    [reflexivity|right; right; reflexivity|vm_compute; discriminate
    |vm_compute; discriminate].
Defined.

(** C8, as the spec words it, fails on the code: after [close()] on a
    container that was just created, [tell], [seek] from the start and a
    [read] of no bytes do not fail. *)
Lemma use_after_close_does_not_always_fail :
  ~ fails_loudly tell (snd (close fresh0)) /\
  ~ fails_loudly (seek 7 0) (snd (close fresh0)) /\
  ~ fails_loudly (read toy_block (Some 0)) (snd (close fresh0)).
Proof.
  repeat split; intros [e H]; vm_compute in H; discriminate.
Qed.
